(** * WCLSTM: vocabulary, embedding loading, training loop and persistence

    A shallow embedding of [snorkel/contrib/wclstm/wclstm.py] (class
    [WCLSTM], Python 2).  Python [str] values are Rocq strings, Python
    [int]s are [Z] (symbol IDs, which only ever count up from 2, are
    [nat]), attributes that the code tests with [hasattr] are [option]
    fields, exceptions are an explicit error type, and [dict]s are stdpp
    finite maps.  Floating-point quantities that only take part in
    comparisons (dev scores, marginals, the check-point delay) are
    rationals. *)

From Stdlib Require Import ZArith QArith Lia.
From Stdlib Require Import Ascii String DecimalString.
From stdpp Require Import base option list gmap strings.

Local Open Scope Z_scope.
Local Open Scope stdpp_scope.

(** ** Python built-ins used by the class *)

Module Py.

(** Exceptions the modelled code can raise. *)
Inductive exn : Type :=
| ValueError (msg : string)
| AssertionError (msg : string)
| AttributeError (attr : string)
| IOError (path : string)
| TypeError
| IndexError
| ZeroDivisionError
| UnpicklingError (path : string)
| KeyError (key : string).

(** Outcome of a call that may raise. *)
Inductive res (A : Type) : Type :=
| Ok (a : A)
| Raise (e : exn).
Global Arguments Ok {A} a.
Global Arguments Raise {A} e.

Global Instance res_ret : MRet res := fun A a => Ok a.
Global Instance res_bind : MBind res := fun A B f c =>
  match c with
  | Ok a => f a
  | Raise e => Raise e
  end.

(** [str(n)] / [format] of an [int]. *)
Definition str_of_int (z : Z) : string := NilZero.string_of_int (Z.to_int z).

(** [len(s)] for a [str]. *)
Definition len (s : string) : Z := Z.of_nat (String.length s).

(** Bound normalisation of a slice index: negative indices count from
    the end, and the result is clamped to [0, n]. *)
Definition clamp (n i : Z) : Z :=
  if i <? 0 then Z.max 0 (i + n) else Z.min i n.

(** [s[i:j]] for a [str]. *)
Definition slice (s : string) (i j : Z) : string :=
  let n := len s in
  let lo := clamp n i in
  let hi := clamp n j in
  String.substring (Z.to_nat lo) (Z.to_nat (hi - lo)) s.

(** [range(n)]. *)
Definition range (n : Z) : list Z := Z.of_nat <$> seq 0 (Z.to_nat n).

(** [sep.join(l)]. *)
Fixpoint join (sep : string) (l : list string) : string :=
  match l with
  | [] => EmptyString
  | [x] => x
  | x :: rest => x +:+ sep +:+ join sep rest
  end.

(** [list(s)]: the one-character strings of [s]. *)
Fixpoint chars (s : string) : list string :=
  match s with
  | EmptyString => []
  | String a rest => String a EmptyString :: chars rest
  end.

Fixpoint lstrip (s : string) : string :=
  match s with
  | String a rest => if Ascii.is_space a then lstrip rest else s
  | EmptyString => EmptyString
  end.

(** [s.strip()]. *)
Definition strip (s : string) : string :=
  String.rev (lstrip (String.rev (lstrip s))).

Fixpoint split_go (sep : ascii) (cur : string) (s : string) : list string :=
  match s with
  | EmptyString => [String.rev cur]
  | String a rest =>
      if Ascii.eqb a sep then String.rev cur :: split_go sep EmptyString rest
      else split_go sep (String a cur) rest
  end.

(** [s.split(sep)] for a one-character separator: every single
    occurrence separates two fields. *)
Definition split (sep : ascii) (s : string) : list string :=
  split_go sep EmptyString s.

Fixpoint replace_go (key val : string) (skip : nat) (s : string) : string :=
  match s with
  | EmptyString => EmptyString
  | String a rest =>
      match skip with
      | S k => replace_go key val k rest
      | O =>
          if String.prefix key s
          then val +:+ replace_go key val (String.length key - 1) rest
          else String a (replace_go key val O rest)
      end
  end.

Fixpoint intersperse (val : string) (s : string) : string :=
  match s with
  | EmptyString => val
  | String a rest => val +:+ String a (intersperse val rest)
  end.

(** [s.replace(key, val)]: all non-overlapping occurrences, left to
    right; an empty [key] matches before every character and at the
    end. *)
Definition str_replace (key val s : string) : string :=
  match key with
  | EmptyString => intersperse val s
  | _ => replace_go key val O s
  end.

(** [l[-d:]] for a list. *)
Definition last_n {A} (d : Z) (l : list A) : list A :=
  let n := Z.of_nat (length l) in
  drop (Z.to_nat (clamp n (- d))) l.

(** [s.startswith('/')]. *)
Definition starts_with_slash (s : string) : bool :=
  match s with
  | String c _ => Ascii.eqb c "/"
  | EmptyString => false
  end.

(** [s == '' or s.endswith('/')]. *)
Definition empty_or_ends_with_slash (s : string) : bool :=
  match String.rev s with
  | String c _ => Ascii.eqb c "/"
  | EmptyString => true
  end.

(** [os.path.join(a, b)] on a POSIX system. *)
Definition path_join (a b : string) : string :=
  if starts_with_slash b then b
  else if empty_or_ends_with_slash a then a +:+ b
  else a +:+ "/" +:+ b.

End Py.

Import Py.

(** ** Symbol table *)

(** Modelled from the spec: the class [SymbolTable] comes from the
    package's [utils] module, which is not part of the sources at hand.
    Following the data model of the specification: IDs 0 and 1 are
    reserved (padding, unknown), so the first inserted token receives
    ID 2; [get] inserts an absent token and returns its ID; [lookup]
    returns the existing ID or the unknown ID and never mutates;
    [lookup_strict] fails on an absent token.  The attribute [s] that
    [wclstm.py] reads as the table's size is the next free ID. *)
Module SymbolTable.

Record t : Type := { s : nat; d : gmap string nat }.

Definition unknown : nat := 1.

Definition new : t := {| s := 2; d := ∅ |}.

Definition get (w : string) (tb : t) : nat * t :=
  match d tb !! w with
  | Some i => (i, tb)
  | None => (s tb, {| s := S (s tb); d := <[w := s tb]> (d tb) |})
  end.

Definition lookup (w : string) (tb : t) : nat :=
  default unknown (d tb !! w).

Definition lookup_strict (w : string) (tb : t) : res nat :=
  match d tb !! w with
  | Some i => Ok i
  | None => Raise (KeyError w)
  end.

(** [map(tb.get, ws)] (Python 2: evaluated eagerly, left to right). *)
Fixpoint get_all (ws : list string) (tb : t) : list nat * t :=
  match ws with
  | [] => ([], tb)
  | w :: rest =>
      let '(i, tb1) := get w tb in
      let '(ids, tb2) := get_all rest tb1 in
      (i :: ids, tb2)
  end.

(** [map(tb.lookup, ws)]. *)
Definition lookup_all (ws : list string) (tb : t) : list nat :=
  (fun w => lookup w tb) <$> ws.

Definition contains (w : string) (tb : t) : bool :=
  bool_decide (is_Some (d tb !! w)).

End SymbolTable.

(** ** Candidates and vocabulary splits *)

(** A candidate as the class consumes it: [spans] lists
    [(get_word_start(), get_word_end())] of each argument in order, so
    [len(candidate)] is [length spans]; [tokens] is the value of
    [candidate_to_tokens(candidate)]. *)
Record Candidate : Type := {
  spans : list (Z * Z);
  tokens : list string
}.

(** The [splits] argument of [create_dict]: [splits["train"]] is a list
    of candidates, [splits["test"]] a list of candidate sets. *)
Record Splits : Type := {
  split_train : list Candidate;
  split_test : list (list Candidate)
}.

(** ** Hyper-parameters *)

(** The keyword arguments recognised by [_init_kwargs]; [None] stands
    for an absent key. *)
Record Kwargs : Type := {
  k_init_pretrained : option Splits;
  k_load_emb : option bool;
  k_word_emb_dim : option Z;
  k_char_emb_dim : option Z;
  k_word_emb_path : option string;
  k_char_emb_path : option string;
  k_lr : option Q;
  k_attention : option bool;
  k_n_epochs : option Z;
  k_dropout : option Q;
  k_batch_size : option Z;
  k_rebalance : option bool;
  k_char_gram : option Z;
  k_lstm_hidden_dim : option Z;
  k_bidirectional : option bool;
  k_max_sentence_length : option Z;
  k_max_word_length : option Z;
  k_host_device : option string;
  k_replace : option (list (string * string));
  k_patience : option Z
}.

Definition no_kwargs : Kwargs :=
  {| k_init_pretrained := None; k_load_emb := None; k_word_emb_dim := None;
     k_char_emb_dim := None; k_word_emb_path := None; k_char_emb_path := None;
     k_lr := None; k_attention := None; k_n_epochs := None; k_dropout := None;
     k_batch_size := None; k_rebalance := None; k_char_gram := None;
     k_lstm_hidden_dim := None; k_bidirectional := None;
     k_max_sentence_length := None; k_max_word_length := None;
     k_host_device := None; k_replace := None; k_patience := None |}.

(** [del kwargs["init_pretrained"]]. *)
Definition del_init_pretrained (k : Kwargs) : Kwargs :=
  {| k_init_pretrained := None; k_load_emb := k_load_emb k;
     k_word_emb_dim := k_word_emb_dim k; k_char_emb_dim := k_char_emb_dim k;
     k_word_emb_path := k_word_emb_path k; k_char_emb_path := k_char_emb_path k;
     k_lr := k_lr k; k_attention := k_attention k; k_n_epochs := k_n_epochs k;
     k_dropout := k_dropout k; k_batch_size := k_batch_size k;
     k_rebalance := k_rebalance k; k_char_gram := k_char_gram k;
     k_lstm_hidden_dim := k_lstm_hidden_dim k;
     k_bidirectional := k_bidirectional k;
     k_max_sentence_length := k_max_sentence_length k;
     k_max_word_length := k_max_word_length k;
     k_host_device := k_host_device k; k_replace := k_replace k;
     k_patience := k_patience k |}.

(** The attributes that [_init_kwargs] derives from the keyword
    arguments (lines 255-307). *)
Record Config : Type := {
  load_emb : bool;
  word_emb_dim : Z;
  char_emb_dim : Z;
  word_emb_path : option string;
  char_emb_path : option string;
  lr : Q;
  attention : bool;
  n_epochs : Z;
  dropout : Q;
  batch_size : Z;
  rebalance : bool;
  char_gram : Z;
  lstm_hidden_dim : Z;
  bidirectional : bool;
  max_sentence_length : Z;
  max_word_length : Z;
  host_device : string;
  replace : list (string * string);
  patience : Z
}.

Definition config_of_kwargs (k : Kwargs) : Config :=
  {| load_emb := default false (k_load_emb k);
     word_emb_dim := default 300 (k_word_emb_dim k);
     char_emb_dim := default 300 (k_char_emb_dim k);
     word_emb_path := k_word_emb_path k;
     char_emb_path := k_char_emb_path k;
     lr := default (1 # 1000)%Q (k_lr k);
     attention := default true (k_attention k);
     n_epochs := default 100 (k_n_epochs k);
     dropout := default 0%Q (k_dropout k);
     batch_size := default 100 (k_batch_size k);
     rebalance := default false (k_rebalance k);
     char_gram := default 3 (k_char_gram k);
     lstm_hidden_dim := default 100 (k_lstm_hidden_dim k);
     bidirectional := default true (k_bidirectional k);
     max_sentence_length := default 100 (k_max_sentence_length k);
     max_word_length := default 20 (k_max_word_length k);
     host_device := default "cpu" (k_host_device k);
     replace := default [] (k_replace k);
     patience := default 100 (k_patience k) |}.

(** ** The model object and its environment *)

(** A two-dimensional numpy array, row by row. *)
Abbreviation matrix Float := (list (list Float)).

Section Model.

(** [Weights]: a serialisable network (what [torch.save] writes and
    [torch.load] returns); [Float]: an entry of an embedding matrix. *)
Context {Weights Float : Type}.

(** What a file holds.  The two pickles are those written by [save];
    [DictsPickle] has the keys [char_dict], [word_dict] and, when
    embeddings were in use, [char_emb] and [word_emb]. *)
Inductive file : Type :=
| TextFile (lines : list string)
| KwargsPickle (k : Kwargs)
| DictsPickle (cd wd : SymbolTable.t)
    (embs : option (matrix Float * matrix Float))
| NetFile (w : Weights).

(** The part of the process environment the class acts on: the file
    system and the messages handed to [warnings.warn], oldest first.
    Output of [print] is not modelled. *)
Record World : Type := {
  files : gmap string file;
  dirs : gset string;
  warned : list string
}.

Definition write_file (p : string) (f : file) (wl : World) : World :=
  {| files := <[p := f]> (files wl); dirs := dirs wl; warned := warned wl |}.

Definition makedirs (p : string) (wl : World) : World :=
  {| files := files wl; dirs := {[p]} ∪ dirs wl; warned := warned wl |}.

Definition path_exists (p : string) (wl : World) : bool :=
  bool_decide (p ∈ dirs wl) || bool_decide (is_Some (files wl !! p)).

Definition warn (msg : string) (wl : World) : World :=
  {| files := files wl; dirs := dirs wl; warned := warned wl ++ [msg] |}.

(** The instance attributes of a [WCLSTM] object.  Those that the code
    creates on demand and tests with [hasattr] are optional. *)
Record WCLSTM : Type := {
  cardinality : Z;
  model_kwargs : option Kwargs;
  cfg : Config;
  word_dict : option SymbolTable.t;
  char_dict : option SymbolTable.t;
  word_dict_all : option (gset string);
  char_dict_all : option (gset string);
  word_emb : option (matrix Float);
  char_emb : option (matrix Float);
  word_model : option Weights;
  char_model : option Weights
}.

Definition set_word_dict (v : option SymbolTable.t) (o : WCLSTM) : WCLSTM :=
  {| cardinality := cardinality o; model_kwargs := model_kwargs o; cfg := cfg o;
     word_dict := v; char_dict := char_dict o;
     word_dict_all := word_dict_all o; char_dict_all := char_dict_all o;
     word_emb := word_emb o; char_emb := char_emb o;
     word_model := word_model o; char_model := char_model o |}.

Definition set_char_dict (v : option SymbolTable.t) (o : WCLSTM) : WCLSTM :=
  {| cardinality := cardinality o; model_kwargs := model_kwargs o; cfg := cfg o;
     word_dict := word_dict o; char_dict := v;
     word_dict_all := word_dict_all o; char_dict_all := char_dict_all o;
     word_emb := word_emb o; char_emb := char_emb o;
     word_model := word_model o; char_model := char_model o |}.

Definition set_word_dict_all (v : option (gset string)) (o : WCLSTM) : WCLSTM :=
  {| cardinality := cardinality o; model_kwargs := model_kwargs o; cfg := cfg o;
     word_dict := word_dict o; char_dict := char_dict o;
     word_dict_all := v; char_dict_all := char_dict_all o;
     word_emb := word_emb o; char_emb := char_emb o;
     word_model := word_model o; char_model := char_model o |}.

Definition set_char_dict_all (v : option (gset string)) (o : WCLSTM) : WCLSTM :=
  {| cardinality := cardinality o; model_kwargs := model_kwargs o; cfg := cfg o;
     word_dict := word_dict o; char_dict := char_dict o;
     word_dict_all := word_dict_all o; char_dict_all := v;
     word_emb := word_emb o; char_emb := char_emb o;
     word_model := word_model o; char_model := char_model o |}.

Definition set_word_emb (v : option (matrix Float)) (o : WCLSTM) : WCLSTM :=
  {| cardinality := cardinality o; model_kwargs := model_kwargs o; cfg := cfg o;
     word_dict := word_dict o; char_dict := char_dict o;
     word_dict_all := word_dict_all o; char_dict_all := char_dict_all o;
     word_emb := v; char_emb := char_emb o;
     word_model := word_model o; char_model := char_model o |}.

Definition set_char_emb (v : option (matrix Float)) (o : WCLSTM) : WCLSTM :=
  {| cardinality := cardinality o; model_kwargs := model_kwargs o; cfg := cfg o;
     word_dict := word_dict o; char_dict := char_dict o;
     word_dict_all := word_dict_all o; char_dict_all := char_dict_all o;
     word_emb := word_emb o; char_emb := v;
     word_model := word_model o; char_model := char_model o |}.

Definition set_word_model (v : option Weights) (o : WCLSTM) : WCLSTM :=
  {| cardinality := cardinality o; model_kwargs := model_kwargs o; cfg := cfg o;
     word_dict := word_dict o; char_dict := char_dict o;
     word_dict_all := word_dict_all o; char_dict_all := char_dict_all o;
     word_emb := word_emb o; char_emb := char_emb o;
     word_model := v; char_model := char_model o |}.

Definition set_char_model (v : option Weights) (o : WCLSTM) : WCLSTM :=
  {| cardinality := cardinality o; model_kwargs := model_kwargs o; cfg := cfg o;
     word_dict := word_dict o; char_dict := char_dict o;
     word_dict_all := word_dict_all o; char_dict_all := char_dict_all o;
     word_emb := word_emb o; char_emb := char_emb o;
     word_model := word_model o; char_model := v |}.

Definition set_kwargs (k : Kwargs) (c : Config) (o : WCLSTM) : WCLSTM :=
  {| cardinality := cardinality o; model_kwargs := Some k; cfg := c;
     word_dict := word_dict o; char_dict := char_dict o;
     word_dict_all := word_dict_all o; char_dict_all := char_dict_all o;
     word_emb := word_emb o; char_emb := char_emb o;
     word_model := word_model o; char_model := char_model o |}.

(** Class attributes. *)
Definition name : string := "WCLSTM".
Definition char_marker : list string := ["<"; ">"].
Definition unknown_symbol : nat := 1.

(** The four argument-boundary markers (lines 37, 89, 125). *)
Definition word_paddings : list string := ["~~[[1"; "1]]~~"; "~~[[2"; "2]]~~"].

(** [obj.attr] for an attribute that may not exist yet. *)
Definition getattr {A} (attr : string) (v : option A) : res A :=
  match v with
  | Some a => Ok a
  | None => Raise (AttributeError attr)
  end.

(** [l[i]] for a list. *)
Definition index {A} (l : list A) (i : nat) : res A :=
  match l !! i with
  | Some a => Ok a
  | None => Raise IndexError
  end.

End Model.

Arguments file : clear implicits.
Arguments World : clear implicits.
Arguments WCLSTM : clear implicits.

(** ** Vocabulary construction and preprocessing *)

Section Vocabulary.

Context {Weights Float : Type}.

(** [mark_sentence] lives in the package's [utils] module, outside the
    sources at hand; it receives the sentence tokens and the triples
    [(start, end, argument_index)] and returns the marked tokens. *)
Variable mark_sentence : list string -> list (Z * Z * Z) -> list string.

Abbreviation WCLSTM := (WCLSTM Weights Float).
Abbreviation World := (World Weights Float).

(** Lines 34-42: create the two symbol tables on first use and seed
    them with their padding markers. *)
Definition init_dicts (self : WCLSTM) : WCLSTM :=
  let self1 :=
    match word_dict self with
    | None =>
        set_word_dict (Some (SymbolTable.get_all word_paddings SymbolTable.new).2) self
    | Some _ => self
    end in
  match char_dict self1 with
  | None =>
      set_char_dict (Some (SymbolTable.get_all char_marker SymbolTable.new).2) self1
  | Some _ => self1
  end.

(** Lines 48-54: the argument triples of a candidate. *)
Definition candidate_args (c : Candidate) : res (list (Z * Z * Z)) :=
  if bool_decide (length (spans c) = 2%nat) then
    a0 ← index (spans c) 0;
    a1 ← index (spans c) 1;
    Ok [(a0.1, a0.2, 1); (a1.1, a1.2, 2)]
  else
    a0 ← index (spans c) 0;
    Ok [(a0.1, a0.2, 1)].

(** Lines 65-68: the character n-grams of one marked token. *)
Definition char_ngrams (gram : Z) (w : string) : list string :=
  let word := "<" +:+ w +:+ ">" in
  (fun i => Py.slice word i (i + gram)) <$> Py.range (Py.len word - gram + 1).

(** [map(f, ws)] with [f] the table's [get] when [extend], else its
    [lookup] (lines 58-59, 62 and 69). *)
Definition map_table (extend : bool) (ws : list string) (tb : SymbolTable.t)
  : list nat * SymbolTable.t :=
  if extend then SymbolTable.get_all ws tb
  else (SymbolTable.lookup_all ws tb, tb).

(** Lines 63-69: the char-ID sub-sequences of the marked tokens. *)
Fixpoint char_seq_of (extend : bool) (gram : Z) (s : list string)
    (cd : SymbolTable.t) : list (list nat) * SymbolTable.t :=
  match s with
  | [] => ([], cd)
  | w :: rest =>
      let '(ids, cd1) := map_table extend (char_ngrams gram w) cd in
      let '(seqs, cd2) := char_seq_of extend gram rest cd1 in
      (ids :: seqs, cd2)
  end.

(** Lines 46-70: the loop over the candidates, threading both tables. *)
Fixpoint preprocess_loop (extend : bool) (gram : Z) (cands : list Candidate)
    (wd cd : SymbolTable.t)
  : res (list (list nat) * list (list (list nat)) * SymbolTable.t * SymbolTable.t) :=
  match cands with
  | [] => Ok ([], [], wd, cd)
  | c :: rest =>
      args ← candidate_args c;
      let s := mark_sentence (tokens c) args in
      let '(word_ids, wd1) := map_table extend s wd in
      let '(char_seq, cd1) := char_seq_of extend gram s cd in
      '(ws, cs, wd2, cd2) ← preprocess_loop extend gram rest wd1 cd1;
      Ok (word_ids :: ws, char_seq :: cs, wd2, cd2)
  end.

(** [_preprocess_data(self, candidates, extend)].  The body neither
    touches the file system nor calls [warnings.warn], so the
    environment comes back as it went in. *)
Definition _preprocess_data (self : WCLSTM) (wl : World)
    (candidates : list Candidate) (extend : bool)
  : res (list (list nat) * list (list (list nat)) * WCLSTM * World) :=
  let self1 := init_dicts self in
  wd ← getattr "word_dict" (word_dict self1);
  cd ← getattr "char_dict" (char_dict self1);
  '(ws, cs, wd', cd') ←
    preprocess_loop extend (char_gram (cfg self1)) candidates wd cd;
  Ok (ws, cs, set_char_dict (Some cd') (set_word_dict (Some wd') self1), wl).

(** The warning text of lines 78-80. *)
Definition length_warning (i : nat) (e mx : Z) : string :=
  "Candidate " +:+ str_of_int (Z.of_nat i)
    +:+ " has argument past max length for model:"
    +:+ String "009"%char EmptyString
    +:+ "[arg ends at index " +:+ str_of_int e
    +:+ "; max len " +:+ str_of_int mx +:+ "]".

(** [max_len or self.max_sentence_length] (line 75). *)
Definition effective_max_len (self : WCLSTM) (max_len : option Z) : Z :=
  match max_len with
  | Some m => if m =? 0 then max_sentence_length (cfg self) else m
  | None => max_sentence_length (cfg self)
  end.

Fixpoint check_ends (mx : Z) (i : nat) (ends : list Z) (wl : World) : World :=
  match ends with
  | [] => wl
  | e :: rest =>
      check_ends mx (S i) rest
        (if e >=? mx then warn (length_warning i e mx) wl else wl)
  end.

(** [_check_max_sentence_length(self, ends, max_len=None)]. *)
Definition _check_max_sentence_length (self : WCLSTM) (wl : World)
    (ends : list Z) (max_len : option Z) : World :=
  check_ends (effective_max_len self max_len) 0 ends wl.

(** Lines 99-102: the training vocabulary. *)
Fixpoint create_dict_train (word char : bool) (cands : list Candidate)
    (self : WCLSTM) : res WCLSTM :=
  match cands with
  | [] => Ok self
  | c :: rest =>
      let words := tokens c in
      self1 ←
        (if word then
           wd ← getattr "word_dict" (word_dict self);
           Ok (set_word_dict (Some (SymbolTable.get_all words wd).2) self)
         else Ok self);
      self2 ←
        (if char then
           cd ← getattr "char_dict" (char_dict self1);
           Ok (set_char_dict
                 (Some (SymbolTable.get_all (Py.chars (Py.join " " words)) cd).2)
                 self1)
         else Ok self1);
      create_dict_train word char rest self2
  end.

(** [d.update(dict.fromkeys(ks))] on a dict used as a set of keys. *)
Definition update_keys (ks : list string) (dall : gset string) : gset string :=
  dall ∪ list_to_set ks.

(** Lines 106-111: one dev/test candidate.  Both updates are guarded
    by [word]; [char] is not consulted. *)
Definition create_dict_test_cand (word char : bool) (c : Candidate)
    (self : WCLSTM) : res WCLSTM :=
  let words := tokens c in
  self1 ←
    (if word then
       wa ← getattr "word_dict_all" (word_dict_all self);
       Ok (set_word_dict_all (Some (update_keys words wa)) self)
     else Ok self);
  if word then
    ca ← getattr "char_dict_all" (char_dict_all self1);
    Ok (set_char_dict_all
          (Some (update_keys (Py.chars (Py.join " " words)) ca)) self1)
  else Ok self1.

Fixpoint create_dict_test_set (word char : bool) (cands : list Candidate)
    (self : WCLSTM) : res WCLSTM :=
  match cands with
  | [] => Ok self
  | c :: rest =>
      self1 ← create_dict_test_cand word char c self;
      create_dict_test_set word char rest self1
  end.

Fixpoint create_dict_test (word char : bool) (sets : list (list Candidate))
    (self : WCLSTM) : res WCLSTM :=
  match sets with
  | [] => Ok self
  | cs :: rest =>
      self1 ← create_dict_test_set word char cs self;
      create_dict_test word char rest self1
  end.

(** [create_dict(self, splits, word=True, char=True)].  Line 96 maps
    [dict.get] of the fresh, empty [char_dict_all] over the char
    markers: two look-ups that find nothing and change nothing.  The
    two closing [print]s read [self.word_dict.s] and
    [len(self.word_dict_all)]. *)
Definition create_dict (self : WCLSTM) (splits : Splits) (word char : bool)
  : res WCLSTM :=
  let self1 :=
    if word then
      set_word_dict (Some (SymbolTable.get_all word_paddings SymbolTable.new).2)
        (set_word_dict_all (Some ∅) self)
    else self in
  let self2 :=
    if char then
      set_char_dict (Some SymbolTable.new) (set_char_dict_all (Some ∅) self1)
    else self1 in
  self3 ← create_dict_train word char (split_train splits) self2;
  self4 ← create_dict_test word char (split_test splits) self3;
  _ ← getattr "word_dict" (word_dict self4);
  _ ← getattr "word_dict_all" (word_dict_all self4);
  Ok self4.

End Vocabulary.

(** ** Pre-trained embeddings *)

Section Embeddings.

Context {Weights Float : Type}.

(** [float(tok)]; [None] stands for the [ValueError] of a malformed
  literal. *)
Variable parse_float : string -> option Float.

(** [np.random.uniform(low, high, (rows, cols))]: the [k]-th draw made
  by [load_embeddings] from numpy's generator. *)
Variable uniform : nat -> Q -> Q -> nat -> nat -> matrix Float.

Abbreviation WCLSTM := (WCLSTM Weights Float).
Abbreviation World := (World Weights Float).

Definition word_dim_msg : string := "Word embedding dimension doesn't match!".
Definition char_dim_msg : string := "Char embedding dimension doesn't match!".

(** [open(path, 'r')] followed by iteration over the lines.  A [None]
  path is a [TypeError], a missing file an [IOError]; reading one of
  the pickles as text is outside the model and fails alike. *)
Definition open_text (wl : World) (path : option string) : res (list string) :=
match path with
| None => Raise TypeError
| Some p =>
    match files wl !! p with
    | Some (TextFile ls) => Ok ls
    | _ => Raise (IOError p)
    end
end.

(** [path.split(".")[-1] == "vec"] (lines 132 and 185). *)
Definition is_fastText (path : option string) : bool :=
match path with
| Some p => bool_decide (last (Py.split "." p) = Some "vec")
| None => false
end.

(** The lines that reach the loop body: the first line of a fastText
  file is skipped ([continue] at [i == 0]). *)
Definition body_lines (fast : bool) (ls : list string) : list string :=
if fast then drop 1 ls else ls.

(** [_.strip().split(' ')]. *)
Definition fields (ln : string) : list string := Py.split " " (Py.strip ln).

(** The placeholder loop [for key in self.replace.keys(): ...]; the
  association list is in the dict's iteration order. *)
Definition apply_replace (rep : list (string * string)) (w : string) : string :=
fold_left (fun acc kv => Py.str_replace kv.1 kv.2 acc) rep w.

(** [hasattr(self, a) and w in self.a] for one of the [_dict_all]. *)
Definition in_dict_all (w : string) (dall : option (gset string)) : bool :=
match dall with
| Some st => bool_decide (w ∈ st)
| None => false
end.

(** Lines 137-147 and 161-169: collect the file's tokens that occur in
  the dev/test vocabulary; the assertion guards every line. *)
Fixpoint collect_tokens (dim : Z) (msg : string) (rep : list (string * string))
  (dall : option (gset string)) (ls : list string) : res (list string) :=
match ls with
| [] => Ok []
| ln :: rest =>
    let line := fields ln in
    if Z.of_nat (length line) =? dim + 1 then
      w0 ← index line 0;
      let w := apply_replace rep w0 in
      l ← collect_tokens dim msg rep dall rest;
      Ok (if in_dict_all w dall then w :: l else l)
    else Raise (AssertionError msg)
end.

(** Lines 118-128: make sure both tables exist, then seed them. *)
Definition load_dict_init (self : WCLSTM) : WCLSTM :=
let wd := default SymbolTable.new (word_dict self) in
let cd := default SymbolTable.new (char_dict self) in
set_char_dict (Some (SymbolTable.get_all char_marker cd).2)
  (set_word_dict (Some (SymbolTable.get_all word_paddings wd).2) self).

(** Lines 130-155: the word-embedding file.  The coverage report
  divides by [len(self.word_dict_all)]. *)
Definition load_dict_words (self : WCLSTM) (wl : World) : res WCLSTM :=
ls ← open_text wl (word_emb_path (cfg self));
let fast := is_fastText (word_emb_path (cfg self)) in
l ← collect_tokens (word_emb_dim (cfg self)) word_dim_msg (replace (cfg self))
      (word_dict_all self) (body_lines fast ls);
wd ← getattr "word_dict" (word_dict self);
let self1 := set_word_dict (Some (SymbolTable.get_all l wd).2) self in
match word_dict_all self1 with
| Some wa => if bool_decide (size wa = 0%nat) then Raise ZeroDivisionError else Ok self1
| None => Ok self1
end.

(** Lines 157-172: the char-embedding file (no header is skipped). *)
Definition load_dict_chars (self : WCLSTM) (wl : World) : res WCLSTM :=
ls ← open_text wl (char_emb_path (cfg self));
l ← collect_tokens (char_emb_dim (cfg self)) char_dim_msg (replace (cfg self))
      (char_dict_all self) ls;
cd ← getattr "char_dict" (char_dict self);
Ok (set_char_dict (Some (SymbolTable.get_all l cd).2) self).

(** [load_dict(self)]. *)
Definition load_dict (self : WCLSTM) (wl : World) : res WCLSTM :=
self1 ← load_dict_words (load_dict_init self) wl;
load_dict_chars self1 wl.

(** [[float(_) for _ in toks]]. *)
Fixpoint parse_floats (toks : list string) : res (list Float) :=
match toks with
| [] => Ok []
| t :: rest =>
    match parse_float t with
    | Some x => xs ← parse_floats rest; Ok (x :: xs)
    | None => Raise (ValueError "could not convert string to float")
    end
end.

(** [emb[i] = v] for a two-dimensional [emb] and a one-dimensional [v]:
  the index must be in range and [v] must have the row's width or
  broadcast from width one. *)
Definition set_row (emb : matrix Float) (i : nat) (v : list Float)
: res (matrix Float) :=
match emb !! i with
| None => Raise IndexError
| Some row =>
    if bool_decide (length v = length row) then Ok (<[i := v]> emb)
    else
      match v with
      | [x] => Ok (<[i := replicate (length row) x]> emb)
      | _ => Raise (ValueError "could not broadcast input array")
      end
end.

(** Lines 187-196 and 202-209: overwrite the rows of the tokens the
  table knows. *)
Fixpoint fill_rows (dim : Z) (msg : string) (rep : list (string * string))
  (tb : SymbolTable.t) (ls : list string) (emb : matrix Float)
: res (matrix Float) :=
match ls with
| [] => Ok emb
| ln :: rest =>
    let line := fields ln in
    if Z.of_nat (length line) =? dim + 1 then
      w0 ← index line 0;
      let w := apply_replace rep w0 in
      let line' := <[0%nat := w]> line in
      emb1 ←
        (if bool_decide (SymbolTable.lookup w tb ≠ unknown_symbol) then
           v ← parse_floats (Py.last_n dim line');
           i ← SymbolTable.lookup_strict w tb;
           set_row emb i v
         else Ok emb);
      fill_rows dim msg rep tb rest emb1
    else Raise (AssertionError msg)
end.

(** The random matrix of lines 178 and 181. *)
Definition random_emb (k : nat) (rows : nat) (dim : Z) : res (matrix Float) :=
if dim <? 0 then Raise (ValueError "negative dimensions are not allowed")
else Ok (uniform k (- (1 # 10))%Q (1 # 10)%Q rows (Z.to_nat dim)).

(** [load_embeddings(self)]. *)
Definition load_embeddings (self : WCLSTM) (wl : World) : res WCLSTM :=
self1 ← load_dict self wl;
wd ← getattr "word_dict" (word_dict self1);
we0 ← random_emb 0 (SymbolTable.s wd) (word_emb_dim (cfg self1));
cd ← getattr "char_dict" (char_dict self1);
ce0 ← random_emb 1 (SymbolTable.s cd) (char_emb_dim (cfg self1));
wls ← open_text wl (word_emb_path (cfg self1));
let fast := is_fastText (word_emb_path (cfg self1)) in
we ← fill_rows (word_emb_dim (cfg self1)) word_dim_msg (replace (cfg self1))
       wd (body_lines fast wls) we0;
cls ← open_text wl (char_emb_path (cfg self1));
ce ← fill_rows (char_emb_dim (cfg self1)) char_dim_msg (replace (cfg self1))
       cd cls ce0;
Ok (set_char_emb (Some ce) (set_word_emb (Some we) self1)).

End Embeddings.

(** ** Persistence *)

Section Persistence.

Context {Weights Float : Type}.

Abbreviation WCLSTM := (WCLSTM Weights Float).
Abbreviation World := (World Weights Float).

(** [_init_kwargs(self, **kwargs)].  [model_kwargs] is the very dict
    that was passed in, so the closing [del] shows in it. *)
Definition _init_kwargs (self : WCLSTM) (kwargs : Kwargs) : res WCLSTM :=
  self1 ←
    match k_init_pretrained kwargs with
    | Some splits => create_dict (set_kwargs kwargs (cfg self) self) splits true true
    | None => Ok (set_kwargs kwargs (cfg self) self)
    end;
  let c := config_of_kwargs kwargs in
  let self2 := set_kwargs (del_init_pretrained kwargs) c self1 in
  if load_emb c then
    match word_emb_path c, char_emb_path c with
    | Some _, Some _ => Ok self2
    | _, _ => Raise (AssertionError EmptyString)
    end
  else Ok self2.

(** [model_name or self.name]. *)
Definition effective_name (model_name : option string) : string :=
  match model_name with
  | Some EmptyString | None => name
  | Some n => n
  end.

Definition model_dir (save_dir : string) (model_name : option string) : string :=
  Py.path_join save_dir (effective_name model_name).

Definition kwargs_path (save_dir : string) (model_name : option string) : string :=
  Py.path_join (model_dir save_dir model_name) "model_kwargs.pkl".

Definition dicts_path (save_dir : string) (model_name : option string) : string :=
  Py.path_join (model_dir save_dir model_name) "model_dicts.pkl".

Definition word_model_path (save_dir : string) (model_name : option string) : string :=
  Py.path_join (model_dir save_dir model_name)
    (effective_name model_name +:+ "_word_model").

Definition char_model_path (save_dir : string) (model_name : option string) : string :=
  Py.path_join (model_dir save_dir model_name)
    (effective_name model_name +:+ "_char_model").

(** Lines 526-539: configuration and symbol tables. *)
Definition save_config (self : WCLSTM) (wl : World) (save_dir : string)
    (model_name : option string) : res World :=
  k ← getattr "model_kwargs" (model_kwargs self);
  let wl1 := write_file (kwargs_path save_dir model_name) (KwargsPickle k) wl in
  cd ← getattr "char_dict" (char_dict self);
  wd ← getattr "word_dict" (word_dict self);
  if load_emb (cfg self) then
    ce ← getattr "char_emb" (char_emb self);
    we ← getattr "word_emb" (word_emb self);
    Ok (write_file (dicts_path save_dir model_name)
          (DictsPickle cd wd (Some (ce, we))) wl1)
  else
    Ok (write_file (dicts_path save_dir model_name) (DictsPickle cd wd None) wl1).

(** [save(self, model_name=None, save_dir='checkpoints', verbose=True,
    only_param=False)]. *)
Definition save (self : WCLSTM) (wl : World) (model_name : option string)
    (save_dir : string) (only_param : bool) : res World :=
  let mdir := model_dir save_dir model_name in
  let wl1 := if path_exists mdir wl then wl else makedirs mdir wl in
  wl2 ← (if only_param then Ok wl1 else save_config self wl1 save_dir model_name);
  wm ← getattr "word_model" (word_model self);
  let wl3 := write_file (word_model_path save_dir model_name) (NetFile wm) wl2 in
  cm ← getattr "char_model" (char_model self);
  Ok (write_file (char_model_path save_dir model_name) (NetFile cm) wl3).

Definition read_kwargs (wl : World) (p : string) : res Kwargs :=
  match files wl !! p with
  | Some (KwargsPickle k) => Ok k
  | Some _ => Raise (UnpicklingError p)
  | None => Raise (IOError p)
  end.

Definition read_net (wl : World) (p : string) : res Weights :=
  match files wl !! p with
  | Some (NetFile w) => Ok w
  | Some _ => Raise (UnpicklingError p)
  | None => Raise (IOError p)
  end.

(** Lines 553-571: configuration and symbol tables. *)
Definition load_config (self : WCLSTM) (wl : World) (save_dir : string)
    (model_name : option string) : res WCLSTM :=
  k ← read_kwargs wl (kwargs_path save_dir model_name);
  self1 ← _init_kwargs self k;
  let p := dicts_path save_dir model_name in
  match files wl !! p with
  | Some (DictsPickle cd wd embs) =>
      let self2 := set_word_dict (Some wd) (set_char_dict (Some cd) self1) in
      if load_emb (cfg self1) then
        match embs with
        | Some (ce, we) => Ok (set_word_emb (Some we) (set_char_emb (Some ce) self2))
        | None => Raise (KeyError "char_emb")
        end
      else Ok self2
  | Some _ => Raise (UnpicklingError p)
  | None => Raise (IOError p)
  end.

(** [load(self, model_name=None, save_dir='checkpoints', verbose=True,
    only_param=False)]. *)
Definition load (self : WCLSTM) (wl : World) (model_name : option string)
    (save_dir : string) (only_param : bool) : res WCLSTM :=
  self1 ← (if only_param then Ok self else load_config self wl save_dir model_name);
  wm ← read_net wl (word_model_path save_dir model_name);
  let self2 := set_word_model (Some wm) self1 in
  cm ← read_net wl (char_model_path save_dir model_name);
  Ok (set_char_model (Some cm) self2).

End Persistence.

(** ** Training *)

(** A numpy array of marginals: one-dimensional, or two-dimensional
    with [ncols] columns. *)
Inductive ndarray : Type :=
| Arr1 (xs : list Q)
| Arr2 (ncols : nat) (rows : list (list Q)).

Definition Qlt_bool (x y : Q) : bool := negb (Qle_bool y x).

Definition Qsum (xs : list Q) : Q := fold_left Qplus xs 0%Q.

(** [Y.sum(axis=1)]. *)
Definition sum_axis1 (Y : ndarray) : res (list Q) :=
  match Y with
  | Arr2 _ rows => Ok (Qsum <$> rows)
  | Arr1 _ => Raise (ValueError "'axis' entry is out of bounds")
  end.

(** [np.all(Y >= 0)]. *)
Definition all_nonneg (Y : ndarray) : bool :=
  match Y with
  | Arr1 xs => forallb (Qle_bool 0) xs
  | Arr2 _ rows => forallb (forallb (Qle_bool 0)) rows
  end.

Definition Qmax_list (x : Q) (xs : list Q) : Q :=
  fold_left (fun a b => if Qle_bool a b then b else a) xs x.
Definition Qmin_list (x : Q) (xs : list Q) : Q :=
  fold_left (fun a b => if Qle_bool b a then b else a) xs x.

(** [Y.max(axis=1) - Y.min(axis=1)]. *)
Fixpoint row_spreads (rows : list (list Q)) : res (list Q) :=
  match rows with
  | [] => Ok []
  | [] :: _ => Raise (ValueError "zero-size array to reduction operation")
  | (x :: xs) :: rest =>
      ds ← row_spreads rest;
      Ok ((Qmax_list x xs - Qmin_list x xs)%Q :: ds)
  end.

(** [np.where(diffs > 1e-6)[0]]. *)
Fixpoint where_gt (eps : Q) (i : nat) (ds : list Q) : list nat :=
  match ds with
  | [] => []
  | x :: rest =>
      if Qlt_bool eps x then i :: where_gt eps (S i) rest
      else where_gt eps (S i) rest
  end.

(** [[l[j] for j in idxs]]. *)
Fixpoint select {A} (l : list A) (idxs : list nat) : res (list A) :=
  match idxs with
  | [] => Ok []
  | j :: rest =>
      match l !! j with
      | Some a => r ← select l rest; Ok (a :: r)
      | None => Raise IndexError
      end
  end.

(** [Y[idxs]]. *)
Definition select_rows (Y : ndarray) (idxs : list nat) : res ndarray :=
  match Y with
  | Arr1 xs => r ← select xs idxs; Ok (Arr1 r)
  | Arr2 k rows => r ← select rows idxs; Ok (Arr2 k r)
  end.

Definition cardinality_msg (got model : Z) : string :=
  "Training marginals cardinality (" +:+ str_of_int got
    +:+ ") does notmatch model cardinality (" +:+ str_of_int model +:+ ").".

Section Training.

Context {Weights Float Opt Dev : Type}.

Abbreviation WCLSTM := (WCLSTM Weights Float).
Abbreviation World := (World Weights Float).

Variable mark_sentence : list string -> list (Z * Z * Z) -> list string.
Variable parse_float : string -> option Float.
Variable uniform : nat -> Q -> Q -> nat -> nat -> matrix Float.

(** The collaborators of [train] that lie outside the sources at hand:
    [reshape_marginals] and [LabelBalancer(Y).get_train_idxs] of
    [snorkel.learning.utils]; the two network constructors of [layers]
    (given the number of classes, the vocabulary size and the
    hyper-parameters); the copy of an embedding matrix into a network's
    look-up layer; the optimiser's constructor; one pass of lines
    444-448 over the data loader (every batch through [train_model]);
    and the dev score of line 453. *)
Variable reshape_marginals : ndarray -> ndarray.
Variable get_train_idxs : ndarray -> bool -> list nat.
Variable CharRNN : nat -> Config -> Weights.
Variable WordRNN : option Z -> nat -> Config -> Weights.
Variable copy_embedding : matrix Float -> Weights -> Weights.
Variable Adam : Weights -> Weights -> Q -> Opt.
Variable train_pass :
  Config -> list (list nat) -> list (list (list nat)) -> ndarray ->
  Opt * Weights * Weights -> Opt * Weights * Weights.
Variable dev_score : Dev -> WCLSTM -> Q.

(** Lines 358-369: the checks on the training marginals. *)
Definition check_marginals (self : WCLSTM) (Y_train : ndarray) : res ndarray :=
  let card := match Y_train with Arr2 k _ => Z.of_nat k | Arr1 _ => 2 end in
  _ ←
    (if bool_decide (card ≠ cardinality self) then
       match Y_train with
       | Arr2 k _ => Raise (ValueError (cardinality_msg (Z.of_nat k) (cardinality self)))
       | Arr1 _ => Raise IndexError
       end
     else Ok ());
  let Y := reshape_marginals Y_train in
  _ ←
    (if cardinality self >? 2 then
       sums ← sum_axis1 Y;
       if forallb (fun r => Qlt_bool (r - 1) (1 # 10000000000)) sums then Ok ()
       else Raise (ValueError "Y_train must be row-stochastic (rows sum to 1).")
     else Ok ());
  if all_nonneg Y then Ok Y
  else Raise (ValueError "Y_train must have values in [0,1].").

(** Lines 371-381: drop unlabelled examples. *)
Definition filter_train (self : WCLSTM) (X_train : list Candidate) (Y : ndarray)
  : res (list Candidate * ndarray) :=
  idxs ←
    (if cardinality self =? 2 then Ok (get_train_idxs Y (rebalance (cfg self)))
     else
       match Y with
       | Arr2 _ rows => ds ← row_spreads rows; Ok (where_gt (1 # 1000000) 0 ds)
       | Arr1 _ => Raise (ValueError "'axis' entry is out of bounds")
       end);
  X ← select X_train idxs;
  Y' ← select_rows Y idxs;
  Ok (X, Y').

(** The local variables of the epoch loop together with the objects it
    mutates.  [epochs_run] is a ghost counter of the loop bodies
    entered. *)
Record LoopState : Type := {
  l_self : WCLSTM;
  l_world : World;
  l_opt : Opt;
  dev_score_opt : Q;
  last_epoch_opt : option Z;
  epochs_run : nat
}.

(** The parameters of [train] that the loop reads. *)
Record LoopEnv : Type := {
  X_w_train : list (list nat);
  X_c_train : list (list (list nat));
  Y_fit : ndarray;
  X_dev : option Dev;
  print_freq : Z;
  dev_ckpt : bool;
  dev_ckpt_delay : Q;
  save_dir : string
}.

Definition verbose (env : LoopEnv) : bool := print_freq env >? 0.

(** [idx > dev_ckpt_delay * self.n_epochs]. *)
Definition past_delay (env : LoopEnv) (n : Z) (idx : Z) : bool :=
  Qlt_bool (dev_ckpt_delay env * inject_Z n) (inject_Z idx).

(** The guard of line 449. *)
Definition is_check (env : LoopEnv) (n : Z) (idx : Z) : bool :=
  verbose env && (((idx + 1) mod print_freq env =? 0) || (idx + 1 =? n)).

(** Lines 444-448: one epoch of gradient steps. *)
Definition fit_epoch (env : LoopEnv) (st : LoopState) : res LoopState :=
  wm ← getattr "word_model" (word_model (l_self st));
  cm ← getattr "char_model" (char_model (l_self st));
  let '(opt, wm', cm') :=
    train_pass (cfg (l_self st)) (X_w_train env) (X_c_train env) (Y_fit env)
      (l_opt st, wm, cm) in
  Ok {| l_self := set_char_model (Some cm') (set_word_model (Some wm') (l_self st));
        l_world := l_world st; l_opt := opt;
        dev_score_opt := dev_score_opt st;
        last_epoch_opt := last_epoch_opt st;
        epochs_run := S (epochs_run st) |}.

(** Lines 458-461: record an improvement and check-point it. *)
Definition checkpoint (env : LoopEnv) (idx : Z) (st : LoopState) : res LoopState :=
  match X_dev env with
  | Some dev =>
      let score := dev_score dev (l_self st) in
      if dev_ckpt env && past_delay env (n_epochs (cfg (l_self st))) idx
         && Qlt_bool (dev_score_opt st) score
      then
        wl ← save (l_self st) (l_world st) None (save_dir env) true;
        Ok {| l_self := l_self st; l_world := wl; l_opt := l_opt st;
              dev_score_opt := score; last_epoch_opt := Some idx;
              epochs_run := epochs_run st |}
      else Ok st
  | None => Ok st
  end.

(** The condition of line 463. *)
Definition stale (env : LoopEnv) (idx : Z) (st : LoopState) : bool :=
  match last_epoch_opt st with
  | Some b =>
      (idx - b >? patience (cfg (l_self st)))
      && (dev_ckpt env && past_delay env (n_epochs (cfg (l_self st))) idx)
  | None => false
  end.

(** Lines 443-465: the body of the epoch loop; the flag tells whether
    it ended in [break].  The report of line 450 divides the cost by
    the number of training examples. *)
Definition epoch_body (env : LoopEnv) (idx : Z) (st : LoopState)
  : res (LoopState * bool) :=
  st1 ← fit_epoch env st;
  if is_check env (n_epochs (cfg (l_self st1))) idx then
    if bool_decide (length (X_w_train env) = 0%nat) then Raise ZeroDivisionError
    else
      st2 ← checkpoint env idx st1;
      Ok (st2, stale env idx st2)
  else Ok (st1, false).

(** [for idx in range(self.n_epochs): ...] from a given list of
    remaining indices. *)
Fixpoint run_epochs (env : LoopEnv) (idxs : list Z) (st : LoopState)
  : res LoopState :=
  match idxs with
  | [] => Ok st
  | idx :: rest =>
      match epoch_body env idx st with
      | Ok (st1, brk) => if brk then Ok st1 else run_epochs env rest st1
      | Raise e => Raise e
      end
  end.

Definition train_loop (env : LoopEnv) (st : LoopState) : res LoopState :=
  run_epochs env (Py.range (n_epochs (cfg (l_self st)))) st.

(** Lines 471-473: reload the best check-point. *)
Definition restore_best (env : LoopEnv) (st : LoopState) : res WCLSTM :=
  if dev_ckpt env && bool_decide (is_Some (X_dev env)) && verbose env
     && Qlt_bool 0 (dev_score_opt st)
  then load (l_self st) (l_world st) None (save_dir env) true
  else Ok (l_self st).

(** Lines 344-437: everything up to the epoch loop. *)
Definition train_setup (self : WCLSTM) (wl : World) (X_train : list Candidate)
    (Y_train : ndarray) (dev : option Dev) (pf : Z) (ckpt : bool) (delay : Q)
    (sdir : string) (kwargs : Kwargs) : res (LoopEnv * LoopState) :=
  self1 ← _init_kwargs self kwargs;
  Y ← check_marginals self1 Y_train;
  '(X, Y') ← filter_train self1 X_train Y;
  '(Xw, Xc, self2, wl1) ← _preprocess_data mark_sentence self1 wl X true;
  self3 ← (if load_emb (cfg self2)
           then load_embeddings parse_float uniform self2 wl1 else Ok self2);
  let n_classes := if cardinality self3 =? 2 then Some 1 else None in
  cd ← getattr "char_dict" (char_dict self3);
  let cm0 := CharRNN (SymbolTable.s cd) (cfg self3) in
  cm ← (if load_emb (cfg self3)
        then ce ← getattr "char_emb" (char_emb self3); Ok (copy_embedding ce cm0)
        else Ok cm0);
  wd ← getattr "word_dict" (word_dict self3);
  let wm0 := WordRNN n_classes (SymbolTable.s wd) (cfg self3) in
  wm ← (if load_emb (cfg self3)
        then we ← getattr "word_emb" (word_emb self3); Ok (copy_embedding we wm0)
        else Ok wm0);
  let self4 := set_word_model (Some wm) (set_char_model (Some cm) self3) in
  Ok ({| X_w_train := Xw; X_c_train := Xc; Y_fit := Y'; X_dev := dev;
         print_freq := pf; dev_ckpt := ckpt; dev_ckpt_delay := delay;
         save_dir := sdir |},
      {| l_self := self4; l_world := wl1; l_opt := Adam cm wm (lr (cfg self4));
         dev_score_opt := 0%Q; last_epoch_opt := None; epochs_run := 0 |}).

(** [train(self, X_train, Y_train, X_dev=None, Y_dev=None, print_freq=5,
    dev_ckpt=True, dev_ckpt_delay=0.75, save_dir='checkpoints',
    **kwargs)]; [dev] stands for the pair of [X_dev] and [Y_dev]. *)
Definition train (self : WCLSTM) (wl : World) (X_train : list Candidate)
    (Y_train : ndarray) (dev : option Dev) (pf : Z) (ckpt : bool) (delay : Q)
    (sdir : string) (kwargs : Kwargs) : res (WCLSTM * World) :=
  '(env, st0) ← train_setup self wl X_train Y_train dev pf ckpt delay sdir kwargs;
  st ← train_loop env st0;
  self' ← restore_best env st;
  Ok (self', l_world st).

End Training.

(** ** Well-formed symbol tables *)

(** The invariant of every table built from [SymbolTable.new] by
    [get]: the next free ID lies above the two reserved ones, the
    stored IDs lie between the reserved ones and the next free one, and
    no two tokens share an ID. *)
Record table_wf (tb : SymbolTable.t) : Prop := {
  wf_start : (2 <= SymbolTable.s tb)%nat;
  wf_range : forall w i, SymbolTable.d tb !! w = Some i -> (2 <= i < SymbolTable.s tb)%nat;
  wf_inj : forall w1 w2 i,
    SymbolTable.d tb !! w1 = Some i -> SymbolTable.d tb !! w2 = Some i -> w1 = w2
}.

Definition opt_table_wf (o : option SymbolTable.t) : Prop :=
  match o with
  | Some tb => table_wf tb
  | None => True
  end.

(** ** Auxiliary notions for the statements *)

(** The indices of [ends], counted from [i0], that reach [mx], with
    their offsets. *)
Definition past_max (mx : Z) (i0 : nat) (ends : list Z) : list (nat * Z) :=
  filter (fun ie => mx <= ie.2) (imap (fun i e => ((i0 + i)%nat, e)) ends).


(** The token that the row-filling pass reads off a line: the first
    field after placeholder substitution. *)
Definition line_token (rep : list (string * string)) (ln : string) : option string :=
  apply_replace rep <$> head (fields ln).

(** What the specification says the row-filling pass does with one
    line of an embedding file: the row [lookup_strict(token)] is
    overwritten with the parsed vector exactly when [lookup(token)] is
    not the unknown ID; otherwise the matrix is left alone. *)
Definition overwrite_spec {Float} (parse_float : string -> option Float)
    (rep : list (string * string)) (tb : SymbolTable.t)
    (emb : matrix Float) (ln : string) : matrix Float :=
  match line_token rep ln with
  | Some w =>
      if bool_decide (SymbolTable.lookup w tb ≠ SymbolTable.unknown) then
        match SymbolTable.lookup_strict w tb,
              parse_floats parse_float (drop 1 (fields ln)) with
        | Ok i, Ok v => <[i := v]> emb
        | _, _ => emb
        end
      else emb
  | None => emb
  end.

(** A matrix with [rows] rows of width [cols]. *)
Definition has_shape {Float} (emb : matrix Float) (rows cols : nat) : Prop :=
  length emb = rows /\ Forall (fun r => length r = cols) emb.

(** The object with its two networks replaced by those of a training
    state [(optimiser, word network, char network)]. *)
Definition with_models {Weights Float Opt : Type} (x : Opt * Weights * Weights)
    (self : WCLSTM Weights Float) : WCLSTM Weights Float :=
  set_char_model (Some x.2) (set_word_model (Some x.1.2) self).

(** The training state after [k] passes over the data, starting from
    [x0]. *)
Definition passes {Weights Opt Dev : Type}
    (train_pass : Config -> list (list nat) -> list (list (list nat)) -> ndarray ->
                  Opt * Weights * Weights -> Opt * Weights * Weights)
    (c : Config) (env : @LoopEnv Dev) (x0 : Opt * Weights * Weights) (k : nat)
  : Opt * Weights * Weights :=
  Nat.iter k (train_pass c (X_w_train env) (X_c_train env) (Y_fit env)) x0.

(** The training state a loop state starts from. *)
Definition start_of {Weights Float Opt : Type} (wm cm : Weights)
    (st : @LoopState Weights Float Opt) : Opt * Weights * Weights :=
  (l_opt st, wm, cm).

Section LoopNotions.

Context {Weights Float Opt Dev : Type}.
Variable train_pass :
  Config -> list (list nat) -> list (list (list nat)) -> ndarray ->
  Opt * Weights * Weights -> Opt * Weights * Weights.
Variable dev_score : Dev -> WCLSTM Weights Float -> Q.
Variable env : @LoopEnv Dev.
Variable dev : Dev.
Variable st0 : @LoopState Weights Float Opt.
Variables wm0 cm0 : Weights.

(** The training state after [k] epochs of the loop entered in [st0]
    with networks [wm0] and [cm0]. *)
Definition after (k : nat) : Opt * Weights * Weights :=
  passes train_pass (cfg (l_self st0)) env (start_of wm0 cm0 st0) k.

(** The dev score of the networks after [k] epochs. *)
Definition score_after (k : nat) : Q :=
  dev_score dev (with_models (after k) (l_self st0)).

(** Epoch [i] is one at which an improvement may be recorded: a
    reporting epoch past the check-point delay, with check-pointing
    on. *)
Definition eligible (i : nat) : Prop :=
  is_check env (n_epochs (cfg (l_self st0))) (Z.of_nat i) = true
  /\ dev_ckpt env = true
  /\ past_delay env (n_epochs (cfg (l_self st0))) (Z.of_nat i) = true.

(** The state has both networks. *)
Definition has_models (st : @LoopState Weights Float Opt) : Prop :=
  is_Some (word_model (l_self st)) /\ is_Some (char_model (l_self st)).

(** What holds of the loop state when [k] epochs have been trained. *)
Definition loop_inv (k : nat) (st : @LoopState Weights Float Opt) : Prop :=
  l_self st = with_models (after k) (l_self st0)
  /\ l_opt st = (after k).1.1
  /\ epochs_run st = k
  /\ (0 <= dev_score_opt st)%Q
  /\ (forall i, (i < k)%nat -> eligible i ->
                (score_after (S i) <= dev_score_opt st)%Q)
  /\ match last_epoch_opt st with
     | None => l_world st = l_world st0
     | Some b =>
         exists j, b = Z.of_nat j /\ (j < k)%nat /\ eligible j
           /\ files (l_world st) !! word_model_path (save_dir env) None
              = Some (NetFile (after (S j)).1.2)
           /\ files (l_world st) !! char_model_path (save_dir env) None
              = Some (NetFile (after (S j)).2)
           /\ dev_score_opt st = score_after (S j)
           /\ (0 < dev_score_opt st)%Q
           /\ verbose env = true
     end.

End LoopNotions.

(** ** Concrete collaborators for worked examples *)

Module Demo.

(** [l.insert(k, v)] for [0 <= k]. *)
Definition insert_at (k : Z) (v : string) (l : list string) : list string :=
  take (Z.to_nat k) l ++ v :: drop (Z.to_nat k) l.

(** Modelled from the spec: [mark_sentence] is defined in the package's
    [utils] module, outside the sources at hand.  The marked sequence
    is the sentence with bracket markers inserted at each argument's
    start and end boundary, distinct per argument index; later
    arguments are treated first so that positions stay valid. *)
Fixpoint mark_sentence (s : list string) (args : list (Z * Z * Z)) : list string :=
  match args with
  | [] => s
  | (l, h, idx) :: rest =>
      let s1 := mark_sentence s rest in
      insert_at l ("~~[[" +:+ str_of_int idx)
        (insert_at (h + 1) (str_of_int idx +:+ "]]~~") s1)
  end.

(** A reader for the few literals the examples use. *)
Definition parse_float (s : string) : option Q :=
  if bool_decide (s = "0.5") then Some (1 # 2)%Q
  else if bool_decide (s = "1.0") then Some 1%Q
  else if bool_decide (s = "0.25") then Some (1 # 4)%Q
  else if bool_decide (s = "2.0") then Some 2%Q
  else None.

(** A draw whose entries all sit on the lower bound. *)
Definition uniform (k : nat) (lo hi : Q) (rows cols : nat) : matrix Q :=
  replicate rows (replicate cols lo).

(** Networks are stood for by a counter of the gradient passes they
    have seen. *)
Definition CharRNN (num_tokens : nat) (c : Config) : nat := 0%nat.
Definition WordRNN (n_classes : option Z) (num_tokens : nat) (c : Config) : nat := 0%nat.
Definition copy_embedding (m : matrix Q) (w : nat) : nat := w.
Definition Adam (cm wm : nat) (rate : Q) : unit := tt.
Definition train_pass (c : Config) (xw : list (list nat))
    (xc : list (list (list nat))) (y : ndarray) (x : unit * nat * nat)
  : unit * nat * nat :=
  (tt, S x.1.2, S x.2).
Definition reshape_marginals (Y : ndarray) : ndarray := Y.
Definition get_train_idxs (Y : ndarray) (rebalance : bool) : list nat :=
  match Y with
  | Arr1 xs => seq 0 (length xs)
  | Arr2 _ rows => seq 0 (length rows)
  end.

(** A dev score that is the same after every epoch. *)
Definition flat_score (dev : unit) (self : WCLSTM nat Q) : Q := (1 # 2)%Q.

(** Keyword arguments that set [n_epochs] and [patience] only. *)
Definition with_epochs_patience (n p : Z) : Kwargs :=
  {| k_init_pretrained := None; k_load_emb := None; k_word_emb_dim := None;
     k_char_emb_dim := None; k_word_emb_path := None; k_char_emb_path := None;
     k_lr := None; k_attention := None; k_n_epochs := Some n; k_dropout := None;
     k_batch_size := None; k_rebalance := None; k_char_gram := None;
     k_lstm_hidden_dim := None; k_bidirectional := None;
     k_max_sentence_length := None; k_max_word_length := None;
     k_host_device := None; k_replace := None; k_patience := Some p |}.

Definition default_config : Config := config_of_kwargs no_kwargs.

(** Keyword arguments that turn pre-trained embeddings of width 2 on. *)
Definition emb_kwargs : Kwargs :=
  {| k_init_pretrained := None; k_load_emb := Some true;
     k_word_emb_dim := Some 2; k_char_emb_dim := Some 2;
     k_word_emb_path := Some "word.txt"; k_char_emb_path := Some "char.txt";
     k_lr := None; k_attention := None; k_n_epochs := None; k_dropout := None;
     k_batch_size := None; k_rebalance := None; k_char_gram := None;
     k_lstm_hidden_dim := None; k_bidirectional := None;
     k_max_sentence_length := None; k_max_word_length := None;
     k_host_device := None; k_replace := None; k_patience := None |}.

Definition emb_config : Config := config_of_kwargs emb_kwargs.

(** A model object right after construction. *)
Definition fresh (card : Z) : WCLSTM nat Q :=
  {| cardinality := card; model_kwargs := None; cfg := default_config;
     word_dict := None; char_dict := None;
     word_dict_all := None; char_dict_all := None;
     word_emb := None; char_emb := None;
     word_model := None; char_model := None |}.

Definition empty_world : World nat Q :=
  {| files := ∅; dirs := ∅; warned := [] |}.

Definition with_max_sentence_length (m : Z) (c : Config) : Config :=
  {| load_emb := load_emb c; word_emb_dim := word_emb_dim c;
     char_emb_dim := char_emb_dim c; word_emb_path := word_emb_path c;
     char_emb_path := char_emb_path c; lr := lr c; attention := attention c;
     n_epochs := n_epochs c; dropout := dropout c; batch_size := batch_size c;
     rebalance := rebalance c; char_gram := char_gram c;
     lstm_hidden_dim := lstm_hidden_dim c; bidirectional := bidirectional c;
     max_sentence_length := m; max_word_length := max_word_length c;
     host_device := host_device c; replace := replace c; patience := patience c |}.

Definition with_cfg (c : Config) (o : WCLSTM nat Q) : WCLSTM nat Q :=
  {| cardinality := cardinality o; model_kwargs := model_kwargs o; cfg := c;
     word_dict := word_dict o; char_dict := char_dict o;
     word_dict_all := word_dict_all o; char_dict_all := char_dict_all o;
     word_emb := word_emb o; char_emb := char_emb o;
     word_model := word_model o; char_model := char_model o |}.

(** "Hi yo" with its argument at word position 0. *)
Definition greeting : Candidate :=
  {| spans := [(0, 0)]; tokens := ["hi"; "yo"] |}.

(** A unary candidate whose argument ends at word position 5. *)
Definition long_cand : Candidate :=
  {| spans := [(5, 5)];
     tokens := ["a"; "b"; "c"; "d"; "e"; "f"] |}.

(** A file system that holds the two embedding files and nothing
    else. *)
Definition text_world (wls cls : list string) : World nat Q :=
  {| files := <["char.txt" := TextFile cls]> (<["word.txt" := TextFile wls]> ∅);
     dirs := ∅; warned := [] |}.

(** Vectors for one of the greeting's words and for one foreign word;
    the first line ends in blanks. *)
Definition word_lines : list string := ["hi 0.5 1.0  "; "zebra 1.0 1.0"].

Definition char_lines : list string := ["<hi 0.5 0.5"].


(** The object after the greeting has been preprocessed under
    [emb_config]. *)
Definition preprocessed : WCLSTM nat Q :=
  match _preprocess_data mark_sentence (with_cfg emb_config (fresh 2))
          empty_world [greeting] true with
  | Ok (_, _, o, _) => o
  | Raise _ => fresh 2
  end.

Definition no_splits : Splits := {| split_train := []; split_test := [] |}.

Definition dev_only_splits : Splits :=
  {| split_train := []; split_test := [[greeting]] |}.

Definition train_only_splits : Splits :=
  {| split_train := [greeting]; split_test := [] |}.

(** An object on which [create_dict] has already run once with both
    flags on and nothing to read. *)
Definition seeded : WCLSTM nat Q :=
  match create_dict (fresh 2) no_splits true true with
  | Ok o => o
  | Raise _ => fresh 2
  end.

(** [train] with the collaborators above. *)
Definition train (self : WCLSTM nat Q) (wl : World nat Q)
    (X_train : list Candidate) (Y_train : ndarray) (dev : option unit)
    (pf : Z) (ckpt : bool) (delay : Q) (sdir : string) (kwargs : Kwargs)
  : res (WCLSTM nat Q * World nat Q) :=
  train mark_sentence parse_float uniform reshape_marginals get_train_idxs
    CharRNN WordRNN copy_embedding Adam train_pass flat_score
    self wl X_train Y_train dev pf ckpt delay sdir kwargs.

Definition train_setup (self : WCLSTM nat Q) (wl : World nat Q)
    (X_train : list Candidate) (Y_train : ndarray) (dev : option unit)
    (pf : Z) (ckpt : bool) (delay : Q) (sdir : string) (kwargs : Kwargs)
  : res (@LoopEnv unit * @LoopState nat Q unit) :=
  train_setup mark_sentence parse_float uniform reshape_marginals get_train_idxs
    CharRNN WordRNN copy_embedding Adam
    self wl X_train Y_train dev pf ckpt delay sdir kwargs.

Definition idle_env : @LoopEnv unit :=
  {| X_w_train := []; X_c_train := []; Y_fit := Arr1 []; X_dev := None;
     print_freq := 0; dev_ckpt := false; dev_ckpt_delay := 0%Q;
     save_dir := EmptyString |}.

Definition idle_state : @LoopState nat Q unit :=
  {| l_self := fresh 2; l_world := empty_world; l_opt := tt;
     dev_score_opt := 0%Q; last_epoch_opt := None; epochs_run := 0 |}.

(** The run of the early-stopping scenario: seven epochs at most,
    patience 2, no check-point delay, a report at every epoch, one
    labelled training sentence and a dev set. *)
Definition scenario_setup : res (@LoopEnv unit * @LoopState nat Q unit) :=
  train_setup (fresh 2) empty_world [greeting] (Arr1 [1%Q]) (Some tt)
    1 true 0%Q "checkpoints" (with_epochs_patience 7 2).

Definition scenario_env : @LoopEnv unit :=
  match scenario_setup with Ok (e, _) => e | Raise _ => idle_env end.

Definition scenario_start : @LoopState nat Q unit :=
  match scenario_setup with Ok (_, st) => st | Raise _ => idle_state end.

Definition scenario_end : @LoopState nat Q unit :=
  match train_loop train_pass flat_score scenario_env scenario_start with
  | Ok st => st
  | Raise _ => idle_state
  end.




End Demo.

(** ** Further notions for the statements *)

(** The least ID a mode of [_preprocess_data] can return: look-up mode
    may answer with the unknown symbol. *)
Definition least_id (extend : bool) : nat := if extend then 2%nat else 1%nat.

(** The characters that [create_dict] reads off a candidate:
    [list(' '.join(words))]. *)
Definition chars_of (c : Candidate) : list string :=
  Py.chars (Py.join " " (tokens c)).


(** A model name that is a single path component: not empty and
    without ["/"]. *)
Fixpoint slash_free (s : string) : bool :=
  match s with
  | EmptyString => true
  | String c rest => negb (Ascii.eqb c "/") && slash_free rest
  end.

Definition plain_name (n : string) : Prop :=
  n <> EmptyString /\ slash_free n = true.

(** The four files of a full check-point. *)
Definition checkpoint_paths (save_dir : string) (model_name : option string)
  : list string :=
  [kwargs_path save_dir model_name; dicts_path save_dir model_name;
   word_model_path save_dir model_name; char_model_path save_dir model_name].

(** * Tutorial helpers

    A shallow embedding of [tutorial/utils.py].  An XML element is
    represented by the results of the xpath queries that the code makes
    on it: lists of strings for the [text()] and attribute queries,
    lists of elements for the element queries. *)

(** [l[i]] for a Python [int] index: a negative index counts from the
    end of the list. *)
Definition index_int {A} (l : list A) (i : Z) : res A :=
  let n := Z.of_nat (length l) in
  if i <? 0 then
    if i + n <? 0 then Raise IndexError else index l (Z.to_nat (i + n))
  else index l (Z.to_nat i).

(** [dict(zip(ks, vs))]: [zip] stops with the shorter list, and a key
    that occurs again overwrites the earlier entry. *)
Definition dict_zip {V} (ks : list string) (vs : list V) : gmap string V :=
  fold_left (fun m kv => <[kv.1 := kv.2]> m) (zip ks vs) ∅.

(** An [<annotation>] element: the results of
    [./infon[@key="CompositeRole"]/text()], [./text/text()],
    [./location/@offset], [./location/@length],
    [./infon[@key="type"]/text()] and [./infon[@key="MESH"]/text()]. *)
Record Annotation : Type := {
  composite_role : list string;
  ann_text : list string;
  ann_offset : list string;
  ann_length : list string;
  ann_type : list string;
  ann_mesh : list string
}.

(** A [<relation>] element: the results of
    [./infon[@key="Chemical"]/text()] and
    [./infon[@key="Disease"]/text()]. *)
Record Relation : Type := {
  rel_chemical : list string;
  rel_disease : list string
}.

(** A [<document>] element: the results of [.//annotation] and
    [.//relation], in document order. *)
Record DocXml : Type := {
  annotations : list Annotation;
  relations : list Relation
}.

Section Tutorial.

(** [Sent]: the sentence objects of the corpus, compared with [==];
    [Xml]: a parsed XML tree; [Elem]: an element of it. *)
Context {Sent Xml Elem : Type} `{EqDecision Sent}.

(** [s.abs_char_offsets] of a sentence. *)
Variable abs_char_offsets : Sent -> list Z.

(** [int(x)] on a string; [None] stands for the [ValueError] of a
    malformed literal. *)
Variable py_int : string -> option Z.

(** [et.fromstring(open(filepath, 'rb').read())] and the two kinds of
    xpath query that [get_docs_xml] makes on the result. *)
Variable read_xml : string -> res Xml.
Variable xpath_text : Xml -> string -> list string.
Variable xpath_elems : Xml -> string -> list Elem.

(** [get_docs_xml(filepath, doc_path=".//document",
    id_path=".//id/text()")]. *)
Definition get_docs_xml (filepath doc_path id_path : string)
  : res (gmap string Elem) :=
  xml ← read_xml filepath;
  Ok (dict_zip (xpath_text xml id_path) (xpath_elems xml doc_path)).

Definition to_int (x : string) : res Z :=
  match py_int x with
  | Some z => Ok z
  | None => Raise (ValueError "invalid literal for int() with base 10")
  end.

(** Line 16: [[s.abs_char_offsets[0] for s in sents]]. *)
Fixpoint sent_offsets (sents : list Sent) : res (list Z) :=
  match sents with
  | [] => Ok []
  | s :: rest =>
      so ← index (abs_char_offsets s) 0;
      sos ← sent_offsets rest;
      Ok (so :: sos)
  end.

(** Lines 37-44: the search for the sentence index, from position [i]
    of the enumeration on; [si] is the value set before the loop. *)
Fixpoint find_sentence (offset : Z) (i : Z) (offs : list Z) (si : Z) : Z :=
  match offs with
  | [] => si
  | so :: rest =>
      if offset =? so then i
      else if offset <? so then i - 1
      else find_sentence offset (i + 1) rest si
  end.

(** A unary mention: [(sent, char_start, char_end, txt)]. *)
Definition Mention : Type := Sent * Z * Z * string.

(** Lines 24-50: the loop body for one annotation. *)
Definition add_mention (sents : list Sent) (offs : list Z) (a : Annotation)
    (unary_mentions : gmap string Mention) : res (gmap string Mention) :=
  let comp_role := head (composite_role a) in
  if bool_decide (comp_role = Some "IndividualMention") then Ok unary_mentions
  else
    txt ← index (ann_text a) 0;
    o ← index (ann_offset a) 0;
    offset ← to_int o;
    l ← index (ann_length a) 0;
    length' ← to_int l;
    _ ← index (ann_type a) 0;
    mesh ← index (ann_mesh a) 0;
    let si := find_sentence offset 0 offs (Z.of_nat (length offs) - 1) in
    sent ← index_int sents si;
    so ← index_int offs si;
    let char_start := offset - so in
    let char_end := char_start + length' - 1 in
    Ok (<[mesh := (sent, char_start, char_end, txt)]> unary_mentions).

Fixpoint mentions_loop (sents : list Sent) (offs : list Z)
    (anns : list Annotation) (unary_mentions : gmap string Mention)
  : res (gmap string Mention) :=
  match anns with
  | [] => Ok unary_mentions
  | a :: rest =>
      um ← add_mention sents offs a unary_mentions;
      mentions_loop sents offs rest um
  end.

(** [get_CD_mentions_by_MESHID(doc_xml, sents)]. *)
Definition get_CD_mentions_by_MESHID (doc_xml : DocXml) (sents : list Sent)
  : res (gmap string Mention) :=
  offs ← sent_offsets sents;
  mentions_loop sents offs (annotations doc_xml) ∅.

(** [unary_mentions[key]]. *)
Definition mention_at (unary_mentions : gmap string Mention) (key : string)
  : res Mention :=
  match unary_mentions !! key with
  | Some m => Ok m
  | None => Raise (KeyError key)
  end.

(** Lines 63-72: the loop over the relation elements.  The result is
    the list of the pairs yielded, in order, and the exception that
    ended the iteration, if one did.  A [KeyError] of either look-up
    is caught and skips the relation; the [IndexError] of a missing
    infon is not caught. *)
Fixpoint relations_loop (unary_mentions : gmap string Mention)
    (rels : list Relation) : list (Mention * Mention) * option exn :=
  match rels with
  | [] => ([], None)
  | a :: rest =>
      match
        (c ← index (rel_chemical a) 0;
         chemical ← mention_at unary_mentions c;
         d ← index (rel_disease a) 0;
         disease ← mention_at unary_mentions d;
         Ok (chemical, disease))
      with
      | Ok (chemical, disease) =>
          let '(out, e) := relations_loop unary_mentions rest in
          if bool_decide (chemical.1.1.1 = disease.1.1.1)
          then ((chemical, disease) :: out, e)
          else (out, e)
      | Raise (KeyError _) => relations_loop unary_mentions rest
      | Raise e => ([], Some e)
      end
  end.

(** [get_CID_relations(doc_xml, doc)], with [sents] for
    [doc.sentences]: what the generator yields when it is run to its
    end. *)
Definition get_CID_relations (doc_xml : DocXml) (sents : list Sent)
  : list (Mention * Mention) * option exn :=
  match get_CD_mentions_by_MESHID doc_xml sents with
  | Ok unary_mentions => relations_loop unary_mentions (relations doc_xml)
  | Raise e => ([], Some e)
  end.

End Tutorial.

(** ** Notions for the statements about the tutorial helpers *)

(** Sentence offsets in strictly ascending order. *)
Definition ascending (offs : list Z) : Prop :=
  forall i j a b, offs !! i = Some a -> offs !! j = Some b -> (i < j)%nat -> a < b.

(** The annotation is one that [get_CD_mentions_by_MESHID] skips. *)
Definition individual (a : Annotation) : Prop :=
  head (composite_role a) = Some "IndividualMention".

(** The sentence of a mention. *)
Definition mention_sent {Sent} (m : Sent * Z * Z * string) : Sent := m.1.1.1.

(** The pair that a relation element stands for, as the docstring of
    [get_CID_relations] has it: both MESH ids are known and the two
    mentions lie in the same sentence. *)
Definition relation_pair {Sent} `{EqDecision Sent}
    (um : gmap string (Sent * Z * Z * string)) (r : Relation)
  : option ((Sent * Z * Z * string) * (Sent * Z * Z * string)) :=
  c ← head (rel_chemical r);
  chemical ← um !! c;
  d ← head (rel_disease r);
  disease ← um !! d;
  if decide (mention_sent chemical = mention_sent disease)
  then Some (chemical, disease) else None.

(** ** Sample corpus for worked examples *)

Module Sample.

(** Sentences are stood for by their position; sentence [k] starts at
    character [10 * k]. *)
Definition abs_char_offsets (s : nat) : list Z := [10 * Z.of_nat s].

(** Decimal literals without sign. *)
Definition py_int (x : string) : option Z :=
  Z.of_N <$> (N.of_uint <$> NilZero.uint_of_string x).

Definition sents : list nat := [0; 1; 2]%nat.

Definition mention (role : list string) (txt off len mesh : string) : Annotation :=
  {| composite_role := role; ann_text := [txt]; ann_offset := [off];
     ann_length := [len]; ann_type := ["Chemical"]; ann_mesh := [mesh] |}.

(** Two mentions in sentence 1, one of them shadowed by a later
    mention of the same MESH id in sentence 2, and an individual
    mention that is skipped. *)
Definition doc : DocXml :=
  {| annotations :=
       [mention [] "aspirin" "12" "7" "D001241";
        mention [] "ulcer" "14" "5" "D014456";
        mention ["IndividualMention"] "pain" "3" "4" "D010146";
        mention [] "ASA" "20" "3" "D001241"];
     relations :=
       [{| rel_chemical := ["D001241"]; rel_disease := ["D014456"] |};
        {| rel_chemical := ["D001241"]; rel_disease := ["D010146"] |}] |}.

(** A document whose only mention lies before the first sentence of
    [late_sents]. *)
Definition early_doc : DocXml :=
  {| annotations := [mention [] "title" "3" "5" "D000001"]; relations := [] |}.

Definition late_sents : list nat := [1; 2]%nat.

(** A parsed file with a repeated id. *)
Definition read_xml (path : string) : res (list string * list nat) :=
  if bool_decide (path = "corpus.xml")
  then Ok (["d1"; "d2"; "d1"; "d3"], [10; 20; 30]%nat)
  else Raise (IOError path).

Definition xpath_text (xml : list string * list nat) (path : string) : list string :=
  xml.1.

Definition xpath_elems (xml : list string * list nat) (path : string) : list nat :=
  xml.2.

End Sample.

(** * Properties *)

(** ** The error monad *)

Lemma bind_Ok_inv {A B} (c : res A) (f : A -> res B) (b : B) :
  c ≫= f = Ok b -> exists a, c = Ok a /\ f a = Ok b.
Proof. destruct c as [a|e]; simpl; [eauto | discriminate]. Qed.

(** Split a hypothesis [x ← c; k = Ok b] into its two halves. *)
Tactic Notation "bind_inv" hyp(H) :=
  let a := fresh "a" in
  let Ha := fresh "E" in
  apply bind_Ok_inv in H as (a & Ha & H).

Tactic Notation "bind_inv" hyp(H) "as" ident(a) ident(Ha) :=
  apply bind_Ok_inv in H as (a & Ha & H).

(** ** Python built-ins *)

Lemma len_app (a b : string) : Py.len (a +:+ b) = Py.len a + Py.len b.
Proof.
  unfold Py.len. rewrite <- Nat2Z.inj_add. f_equal.
  induction a as [|c a IH]; simpl; [reflexivity | now rewrite IH].
Qed.

Lemma length_range (n : Z) : length (Py.range n) = Z.to_nat n.
Proof. unfold Py.range. now rewrite length_fmap, length_seq. Qed.

(** ** Symbol table *)

Lemma get_all_length (ws : list string) (tb : SymbolTable.t) :
  length (SymbolTable.get_all ws tb).1 = length ws.
Proof.
  revert tb. induction ws as [|w ws IH]; intros tb; simpl; [reflexivity|].
  destruct (SymbolTable.get w tb) as [i tb1].
  specialize (IH tb1). destruct (SymbolTable.get_all ws tb1) as [ids tb2].
  simpl in *. now rewrite IH.
Qed.

Lemma map_table_length (extend : bool) (ws : list string) (tb : SymbolTable.t) :
  length (map_table extend ws tb).1 = length ws.
Proof.
  unfold map_table. destruct extend; simpl.
  - apply get_all_length.
  - unfold SymbolTable.lookup_all. now rewrite length_fmap.
Qed.

(** ** Character n-grams *)

Lemma wrapped_len (w : string) : Py.len ("<" +:+ w +:+ ">") = Py.len w + 2.
Proof. rewrite !len_app. unfold Py.len at 1 3. simpl. lia. Qed.

Lemma char_ngrams_length (gram : Z) (w : string) :
  length (char_ngrams gram w) = Z.to_nat (Z.max 0 (Py.len w + 2 - gram + 1)).
Proof.
  unfold char_ngrams. rewrite length_fmap, length_range, wrapped_len. lia.
Qed.

Lemma char_ngrams_short (gram : Z) (w : string) :
  Py.len w + 2 < gram -> char_ngrams gram w = [].
Proof.
  intros H. apply length_zero_iff_nil. rewrite char_ngrams_length. lia.
Qed.

Lemma char_seq_of_lengths (extend : bool) (gram : Z) (s : list string)
    (cd : SymbolTable.t) :
  Forall2 (fun w ids =>
             length ids = Z.to_nat (Z.max 0 (Py.len w + 2 - gram + 1)))
    s (char_seq_of extend gram s cd).1.
Proof.
  revert cd. induction s as [|w s IH]; intros cd; simpl; [constructor|].
  pose proof (map_table_length extend (char_ngrams gram w) cd) as Hl.
  destruct (map_table extend (char_ngrams gram w) cd) as [ids cd1].
  specialize (IH cd1). destruct (char_seq_of extend gram s cd1) as [seqs cd2].
  simpl in *. constructor; [|exact IH].
  now rewrite Hl, char_ngrams_length.
Qed.

Lemma preprocess_loop_lengths ms (extend : bool) (gram : Z)
    (cands : list Candidate) (wd cd : SymbolTable.t) ws cs wd' cd' :
  preprocess_loop ms extend gram cands wd cd = Ok (ws, cs, wd', cd') ->
  Forall2 (fun c cseq => exists args, candidate_args c = Ok args /\
      Forall2 (fun w ids =>
                 length ids = Z.to_nat (Z.max 0 (Py.len w + 2 - gram + 1)))
        (ms (tokens c) args) cseq) cands cs.
Proof.
  revert wd cd ws cs wd' cd'.
  induction cands as [|c cands IH]; intros wd cd ws cs wd' cd' H; simpl in H.
  - injection H as <- <- <- <-. constructor.
  - bind_inv H.
    destruct (map_table extend (ms (tokens c) a) wd) as [word_ids wd1].
    pose proof (char_seq_of_lengths extend gram (ms (tokens c) a) cd) as Hc.
    destruct (char_seq_of extend gram (ms (tokens c) a) cd) as [char_seq cd1].
    bind_inv H. destruct a0 as [[[ws0 cs0] wd2] cd2]. simpl in H.
    injection H as <- <- <- <-.
    constructor; [exists a; auto | eapply IH; eauto].
Qed.

(** ** Preprocessing *)

Lemma init_dicts_cfg {Weights Float} (self : WCLSTM Weights Float) :
  cfg (init_dicts self) = cfg self.
Proof.
  unfold init_dicts. destruct (word_dict self); simpl;
    destruct (char_dict self); reflexivity.
Qed.

Lemma init_dicts_present {Weights Float} (self : WCLSTM Weights Float) :
  is_Some (word_dict (init_dicts self)) /\ is_Some (char_dict (init_dicts self)).
Proof.
  unfold init_dicts. destruct (word_dict self) eqn:Ew; simpl;
    destruct (char_dict self) eqn:Ec; simpl; rewrite ?Ew, ?Ec; eauto.
Qed.

(** C10: in [_preprocess_data] every marked token [w] contributes
    exactly [max(0, len(w) + 2 - char_gram + 1)] char n-gram IDs, and a
    token whose wrapped form is shorter than [char_gram] contributes the
    empty sub-sequence and hands the char table on untouched, in extend
    mode as in look-up mode. *)
Theorem preprocess_char_ngram_count {Weights Float}
    (ms : list string -> list (Z * Z * Z) -> list string)
    (self : WCLSTM Weights Float) (wl : World Weights Float)
    (cands : list Candidate) (extend : bool) ws cs self' wl' :
  _preprocess_data ms self wl cands extend = Ok (ws, cs, self', wl') ->
  Forall2 (fun c cseq => exists args, candidate_args c = Ok args /\
      Forall2 (fun w ids =>
                 length ids
                 = Z.to_nat (Z.max 0 (Py.len w + 2 - char_gram (cfg self) + 1)))
        (ms (tokens c) args) cseq) cands cs
  /\ (forall w rest (cd : SymbolTable.t),
        Py.len ("<" +:+ w +:+ ">") < char_gram (cfg self) ->
        char_seq_of extend (char_gram (cfg self)) (w :: rest) cd
        = ([] :: (char_seq_of extend (char_gram (cfg self)) rest cd).1,
           (char_seq_of extend (char_gram (cfg self)) rest cd).2)).
Proof.
  intros H. split.
  - unfold _preprocess_data in H. rewrite init_dicts_cfg in H.
    bind_inv H. bind_inv H. bind_inv H.
    destruct a1 as [[[ws0 cs0] wd'] cd']. simpl in H.
    injection H as <- <- <- <-.
    eapply preprocess_loop_lengths; eauto.
  - intros w rest cd Hs. rewrite wrapped_len in Hs. simpl.
    rewrite char_ngrams_short by exact Hs.
    unfold map_table. destruct extend; simpl;
      destruct (char_seq_of _ _ rest cd); reflexivity.
Qed.

Lemma preprocess_char_ngram_count_witness :
  exists ws cs self' wl',
    _preprocess_data Demo.mark_sentence (Demo.fresh 2) Demo.empty_world
      [Demo.greeting] true = Ok (ws, cs, self', wl')
    /\ Forall2 (fun c cseq => exists args, candidate_args c = Ok args /\
         Forall2 (fun w ids =>
                    length ids = Z.to_nat (Z.max 0 (Py.len w + 2 - 3 + 1)))
           (Demo.mark_sentence (tokens c) args) cseq) [Demo.greeting] cs
    /\ char_seq_of true 3 [EmptyString] SymbolTable.new = ([[]], SymbolTable.new).
Proof.
  destruct (_preprocess_data Demo.mark_sentence (Demo.fresh 2) Demo.empty_world
              [Demo.greeting] true) as [[[[ws cs] self'] wl']|e] eqn:E.
  - exists ws, cs, self', wl'. split; [reflexivity|].
    pose proof (preprocess_char_ngram_count _ _ _ _ _ _ _ _ _ E) as [H1 H2].
    split; [exact H1|].
    apply (H2 EmptyString [] SymbolTable.new). reflexivity.
  - vm_compute in E. discriminate E.
Defined.

(** ** Length validation *)

Lemma check_ends_spec {Weights Float} (mx : Z) (ends : list Z) (i0 : nat)
    (wl : World Weights Float) :
  warned (check_ends mx i0 ends wl)
  = warned wl ++ ((fun ie => length_warning ie.1 ie.2 mx) <$> past_max mx i0 ends)
  /\ files (check_ends mx i0 ends wl) = files wl
  /\ dirs (check_ends mx i0 ends wl) = dirs wl.
Proof.
  revert i0 wl. induction ends as [|e ends IH]; intros i0 wl; simpl.
  - unfold past_max. simpl. now rewrite app_nil_r.
  - destruct (IH (S i0) (if e >=? mx then warn (length_warning i0 e mx) wl else wl))
      as (Hw & Hf & Hd).
    rewrite Hw, Hf, Hd. unfold past_max. simpl.
    assert (Himap : imap ((fun i e0 => ((i0 + i)%nat, e0)) ∘ S) ends
                    = imap (fun i e0 => ((S i0 + i)%nat, e0)) ends).
    { apply imap_ext. intros i x _. simpl. f_equal. lia. }
    rewrite Himap. rewrite filter_cons. simpl. rewrite Nat.add_0_r.
    destruct (Z.geb_spec e mx) as [Hge|Hlt].
    + destruct (decide (mx <= e)) as [_|Hn]; [|lia].
      simpl. rewrite <- app_assoc. auto.
    + destruct (decide (mx <= e)) as [Hn|_]; [lia|]. auto.
Qed.

Lemma candidate_args_ok (c : Candidate) :
  spans c <> [] -> exists args, candidate_args c = Ok args.
Proof.
  intros Hne. unfold candidate_args. destruct (spans c) as [|a0 [|a1 rest]] eqn:E.
  - congruence.
  - simpl. eauto.
  - case_bool_decide; simpl; eauto.
Qed.

Lemma preprocess_loop_total ms (extend : bool) (gram : Z)
    (cands : list Candidate) (wd cd : SymbolTable.t) :
  Forall (fun c => spans c <> []) cands ->
  exists ws cs wd' cd',
    preprocess_loop ms extend gram cands wd cd = Ok (ws, cs, wd', cd')
    /\ length ws = length cands /\ length cs = length cands.
Proof.
  intros Hall. revert wd cd.
  induction Hall as [|c cands Hc _ IH]; intros wd cd; simpl.
  - exists [], [], wd, cd. auto.
  - destruct (candidate_args_ok c Hc) as [args ->]. simpl.
    destruct (map_table extend (ms (tokens c) args) wd) as [word_ids wd1].
    destruct (char_seq_of extend gram (ms (tokens c) args) cd) as [char_seq cd1].
    destruct (IH wd1 cd1) as (ws & cs & wd' & cd' & -> & Hw & Hcs). simpl.
    exists (word_ids :: ws), (char_seq :: cs), wd', cd'. simpl. auto.
Qed.

Lemma preprocess_total {Weights Float} ms (self : WCLSTM Weights Float)
    (wl : World Weights Float) (cands : list Candidate) (extend : bool) :
  Forall (fun c => spans c <> []) cands ->
  exists ws cs self',
    _preprocess_data ms self wl cands extend = Ok (ws, cs, self', wl)
    /\ length ws = length cands /\ length cs = length cands.
Proof.
  intros Hall. unfold _preprocess_data.
  destruct (init_dicts_present self) as [[wd Hwd] [cd Hcd]].
  rewrite Hwd, Hcd. simpl.
  destruct (preprocess_loop_total ms extend (char_gram (cfg (init_dicts self)))
              cands wd cd Hall) as (ws & cs & wd' & cd' & -> & Hw & Hc).
  simpl. eauto 10.
Qed.

(** C9, as amended: [_check_max_sentence_length], when it is called on
    the candidates' end offsets, never raises and hands to
    [warnings.warn] exactly one message for every index whose offset
    reaches [mx] (the [max_len] argument when given and non-zero, else
    the configured maximal sentence length), in order, and nothing
    else; [_preprocess_data] does not call it: it emits no warning at
    all and processes every candidate that has an argument, whatever
    the offsets. *)
Theorem check_max_sentence_length_spec {Weights Float}
    (self : WCLSTM Weights Float) (wl : World Weights Float)
    (ends : list Z) (max_len : option Z) :
  let mx := effective_max_len self max_len in
  let wl' := _check_max_sentence_length self wl ends max_len in
  (max_len = None -> mx = max_sentence_length (cfg self))
  /\ warned wl'
     = warned wl ++ ((fun ie => length_warning ie.1 ie.2 mx) <$> past_max mx 0 ends)
  /\ files wl' = files wl /\ dirs wl' = dirs wl
  /\ (forall ms cands extend,
        Forall (fun c => spans c <> []) cands ->
        exists ws cs self',
          _preprocess_data ms self wl cands extend = Ok (ws, cs, self', wl)
          /\ length ws = length cands /\ length cs = length cands).
Proof.
  intros mx wl'. split; [intros ->; reflexivity|].
  destruct (check_ends_spec mx ends 0 wl) as (Hw & Hf & Hd).
  repeat split; try assumption.
  intros ms cands extend Hall. now apply preprocess_total.
Qed.

Lemma check_max_sentence_length_spec_witness :
  let self := Demo.with_cfg (Demo.with_max_sentence_length 3 Demo.default_config)
                (Demo.fresh 2) in
  warned (_check_max_sentence_length self Demo.empty_world [2; 5; 3] None)
  = [length_warning 1 5 3; length_warning 2 3 3]
  /\ exists ws cs self',
       _preprocess_data Demo.mark_sentence self Demo.empty_world
         [Demo.long_cand] true = Ok (ws, cs, self', Demo.empty_world)
       /\ length ws = 1%nat /\ length cs = 1%nat.
Proof.
  intros self.
  destruct (check_max_sentence_length_spec self Demo.empty_world [2; 5; 3] None)
    as (_ & Hw & _ & _ & Hp).
  split.
  - rewrite Hw. reflexivity.
  - apply (Hp Demo.mark_sentence [Demo.long_cand] true).
    repeat constructor. discriminate.
Defined.

(** C9, as stated, fails: preprocessing a candidate whose argument ends
    at word 5 under a maximal sentence length of 3 emits no warning. *)
Lemma preprocess_emits_no_length_warning :
  ~ (forall (self : WCLSTM nat Q) (wl : World nat Q) cands extend ws cs self' wl',
       _preprocess_data Demo.mark_sentence self wl cands extend
       = Ok (ws, cs, self', wl') ->
       forall c, c ∈ cands ->
         (exists sp, sp ∈ spans c /\ sp.2 >= max_sentence_length (cfg self)) ->
         warned wl' <> warned wl).
Proof.
  intros H.
  pose (self := Demo.with_cfg (Demo.with_max_sentence_length 3 Demo.default_config)
                  (Demo.fresh 2)).
  destruct (preprocess_total Demo.mark_sentence self Demo.empty_world
              [Demo.long_cand] true) as (ws & cs & self' & E & _).
  { repeat constructor. discriminate. }
  apply (H _ _ _ _ _ _ _ _ E Demo.long_cand).
  - apply list_elem_of_singleton. reflexivity.
  - exists (5, 5). split; [apply list_elem_of_singleton; reflexivity|].
    simpl. lia.
  - reflexivity.
Qed.

(** ** Seeding of the symbol tables *)

Lemma get_keeps (w w' : string) (tb : SymbolTable.t) :
  is_Some (SymbolTable.d tb !! w') ->
  is_Some (SymbolTable.d (SymbolTable.get w tb).2 !! w').
Proof.
  intros Hs. unfold SymbolTable.get.
  destruct (SymbolTable.d tb !! w) eqn:E; simpl; [exact Hs|].
  destruct (decide (w = w')) as [->|Hne].
  - rewrite lookup_insert_eq. eauto.
  - now rewrite lookup_insert_ne.
Qed.

Lemma get_inserts (w : string) (tb : SymbolTable.t) :
  is_Some (SymbolTable.d (SymbolTable.get w tb).2 !! w).
Proof.
  unfold SymbolTable.get. destruct (SymbolTable.d tb !! w) eqn:E; simpl.
  - rewrite E. eauto.
  - rewrite lookup_insert_eq. eauto.
Qed.

Lemma get_all_keeps (ws : list string) (w' : string) (tb : SymbolTable.t) :
  is_Some (SymbolTable.d tb !! w') ->
  is_Some (SymbolTable.d (SymbolTable.get_all ws tb).2 !! w').
Proof.
  revert tb. induction ws as [|w ws IH]; intros tb Hs; simpl; [exact Hs|].
  pose proof (get_keeps w w' tb Hs) as Hk.
  destruct (SymbolTable.get w tb) as [i tb1]. specialize (IH tb1 Hk).
  destruct (SymbolTable.get_all ws tb1) as [ids tb2]. exact IH.
Qed.

Lemma get_all_inserts (ws : list string) (w : string) (tb : SymbolTable.t) :
  w ∈ ws -> is_Some (SymbolTable.d (SymbolTable.get_all ws tb).2 !! w).
Proof.
  revert tb. induction ws as [|w0 ws IH]; intros tb Hin.
  - apply elem_of_nil in Hin. contradiction.
  - simpl. pose proof (get_inserts w0 tb) as Hi.
    destruct (SymbolTable.get w0 tb) as [i tb1] eqn:E. simpl in Hi.
    apply elem_of_cons in Hin as [->|Hin].
    + pose proof (get_all_keeps ws w0 tb1 Hi) as Hk.
      destruct (SymbolTable.get_all ws tb1) as [ids tb2]. exact Hk.
    + specialize (IH tb1 Hin).
      destruct (SymbolTable.get_all ws tb1) as [ids tb2]. exact IH.
Qed.

(** The first call of [_preprocess_data] puts both char markers into
    the char table, on the first two free IDs. *)
Lemma init_dicts_seeds_char_markers {Weights Float} (self : WCLSTM Weights Float) :
  char_dict self = None ->
  exists tb, char_dict (init_dicts self) = Some tb
    /\ SymbolTable.d tb !! "<" = Some 2%nat /\ SymbolTable.d tb !! ">" = Some 3%nat
    /\ SymbolTable.s tb = 4%nat.
Proof.
  intros Hc. unfold init_dicts.
  destruct (word_dict self); simpl; rewrite Hc; simpl;
    eexists; (split; [reflexivity|]); vm_compute; auto.
Qed.

(** [load_dict] puts both char markers into the char table before it
    opens a file. *)
Lemma load_dict_init_seeds_char_markers {Weights Float} (self : WCLSTM Weights Float) :
  exists tb, char_dict (load_dict_init self) = Some tb
    /\ SymbolTable.contains "<" tb = true /\ SymbolTable.contains ">" tb = true.
Proof.
  unfold load_dict_init. cbn [char_dict set_char_dict].
  eexists. split; [reflexivity|].
  unfold SymbolTable.contains.
  split; apply bool_decide_eq_true; apply get_all_inserts; unfold char_marker;
    set_solver.
Qed.

(** C1 at a failing input: [create_dict(splits, word=True, char=True)]
    with one training sentence and no dev/test sets.  The call
    returns; the word table holds the four argument markers on IDs 2
    to 5, but the char table holds neither ['<'] nor ['>'] (looking
    them up gives the unknown ID): its first free ID went to the first
    character of the corpus, and [char_dict_all] is empty. *)
Theorem create_dict_omits_char_markers :
  match create_dict (Demo.fresh 2) Demo.train_only_splits true true with
  | Ok self' =>
      Some (SymbolTable.lookup_all word_paddings <$> word_dict self',
            SymbolTable.contains "<" <$> char_dict self',
            SymbolTable.contains ">" <$> char_dict self',
            SymbolTable.lookup_all char_marker <$> char_dict self',
            SymbolTable.lookup "h" <$> char_dict self',
            char_dict_all self')
  | Raise _ => None
  end
  = Some (Some [2; 3; 4; 5]%nat, Some false, Some false,
          Some [unknown_symbol; unknown_symbol], Some 2%nat, Some ∅).
Proof. vm_compute. reflexivity. Qed.

(** C7 at two failing inputs.  On an object that already has its word
    tables, [create_dict(splits, word=False, char=True)] with one
    dev/test sentence returns with an empty [char_dict_all]: none of
    the sentence's characters is recorded.  On a fresh object,
    [create_dict(splits, word=True, char=False)] raises on the missing
    [char_dict_all].  With both flags on, words and characters are
    recorded, the word table knows none of the dev/test words and the
    char table is empty. *)
Theorem create_dict_char_flag_not_consulted :
  match create_dict Demo.seeded Demo.dev_only_splits false true with
  | Ok self' => Some (char_dict_all self')
  | Raise _ => None
  end = Some (Some ∅)
  /\ create_dict (Demo.fresh 2) Demo.dev_only_splits true false
     = Raise (AttributeError "char_dict_all")
  /\ match create_dict (Demo.fresh 2) Demo.dev_only_splits true true with
     | Ok self' =>
         Some (word_dict_all self', char_dict_all self',
               SymbolTable.lookup_all (tokens Demo.greeting) <$> word_dict self',
               char_dict self')
     | Raise _ => None
     end
     = Some (Some (list_to_set (tokens Demo.greeting)),
             Some (list_to_set (Py.chars (Py.join " " (tokens Demo.greeting)))),
             Some [unknown_symbol; unknown_symbol],
             Some SymbolTable.new).
Proof. repeat split; vm_compute; reflexivity. Qed.

(** ** Check-point paths *)






Lemma starts_with_slash_app (n x y : string) :
  n <> EmptyString ->
  Py.starts_with_slash (n +:+ x) = Py.starts_with_slash (n +:+ y).
Proof. destruct n; [congruence | reflexivity]. Qed.

Lemma effective_name_nonempty (model_name : option string) :
  effective_name model_name <> EmptyString.
Proof. destruct model_name as [[|c n]|]; simpl; discriminate. Qed.

(** The two weight files are different paths. *)
Lemma word_path_not_char_path (save_dir : string) (model_name : option string) :
  word_model_path save_dir model_name <> char_model_path save_dir model_name.
Proof.
  unfold word_model_path, char_model_path, Py.path_join.
  pose proof (effective_name_nonempty model_name) as Hne.
  rewrite (starts_with_slash_app _ "_word_model" "_char_model" Hne).
  intros H.
  assert (Habs : "_word_model" = "_char_model"); [|discriminate Habs].
  destruct (Py.starts_with_slash _).
  - now apply String.app_inj in H.
  - destruct (Py.empty_or_ends_with_slash _).
    + apply String.app_inj in H. now apply String.app_inj in H.
    + apply String.app_inj in H. apply (String.app_inj "/") in H.
      now apply String.app_inj in H.
Qed.

(** ** Persistence in [only_param] mode *)



(** ** Reading the embedding files *)

Lemma split_go_nonempty (sep : ascii) (cur s : string) :
  Py.split_go sep cur s <> [].
Proof.
  revert cur. induction s as [|a s IH]; intros cur; simpl; [discriminate|].
  destruct (Ascii.eqb a sep); [discriminate | apply IH].
Qed.

Lemma fields_index0 (ln : string) : exists w0, index (fields ln) 0 = Ok w0.
Proof.
  unfold fields, Py.split, index.
  pose proof (split_go_nonempty " " EmptyString (Py.strip ln)) as Hne.
  destruct (Py.split_go " " EmptyString (Py.strip ln)) as [|w0 rest];
    [congruence | simpl; eauto].
Qed.





Lemma load_dict_words_ok {Weights Float} (self self1 : WCLSTM Weights Float)
    (wl : World Weights Float) :
  load_dict_words self wl = Ok self1 ->
  exists l wd, word_dict self = Some wd
               /\ self1 = set_word_dict (Some (SymbolTable.get_all l wd).2) self.
Proof.
  unfold load_dict_words. intros H.
  bind_inv H as ls Els. bind_inv H as l El. bind_inv H as wd Ewd.
  exists l, wd. split.
  - destruct (word_dict self); [simpl in Ewd; congruence | discriminate].
  - cbn [word_dict_all set_word_dict] in H.
    destruct (word_dict_all self); [case_bool_decide; [discriminate|]|];
      congruence.
Qed.

Lemma load_dict_chars_ok {Weights Float} (self self1 : WCLSTM Weights Float)
    (wl : World Weights Float) :
  load_dict_chars self wl = Ok self1 ->
  exists l cd, char_dict self = Some cd
               /\ self1 = set_char_dict (Some (SymbolTable.get_all l cd).2) self.
Proof.
  unfold load_dict_chars. intros H.
  bind_inv H as ls Els. bind_inv H as l El. bind_inv H as cd Ecd.
  exists l, cd. split.
  - destruct (char_dict self); [simpl in Ecd; congruence | discriminate].
  - congruence.
Qed.




(** ** Well-formed symbol tables *)

Lemma new_wf : table_wf SymbolTable.new.
Proof.
  split; simpl; [lia | |]; intros *; rewrite lookup_empty; discriminate.
Qed.

Lemma get_wf (w : string) (tb : SymbolTable.t) :
  table_wf tb -> table_wf (SymbolTable.get w tb).2.
Proof.
  intros [Hs Hr Hi]. unfold SymbolTable.get.
  destruct (SymbolTable.d tb !! w) eqn:E; simpl; [split; assumption|].
  split; simpl.
  - lia.
  - intros w' i. destruct (decide (w = w')) as [->|Hne].
    + rewrite lookup_insert_eq. intros [= <-]. lia.
    + rewrite lookup_insert_ne by assumption. intros H. apply Hr in H. lia.
  - intros w1 w2 i.
    destruct (decide (w = w1)) as [E1|H1], (decide (w = w2)) as [E2|H2];
      subst; rewrite ?lookup_insert_eq, ?lookup_insert_ne by assumption.
    + reflexivity.
    + intros [= <-] H. apply Hr in H. lia.
    + intros H [= <-]. apply Hr in H. lia.
    + apply Hi.
Qed.

Lemma get_all_wf (ws : list string) (tb : SymbolTable.t) :
  table_wf tb -> table_wf (SymbolTable.get_all ws tb).2.
Proof.
  revert tb. induction ws as [|w ws IH]; intros tb Hwf; simpl; [exact Hwf|].
  pose proof (get_wf w tb Hwf) as H1.
  destruct (SymbolTable.get w tb) as [i tb1]. specialize (IH tb1 H1).
  destruct (SymbolTable.get_all ws tb1) as [ids tb2]. exact IH.
Qed.

(** ** What [load_dict] leaves behind *)

Lemma load_dict_tables {Weights Float} (self self1 : WCLSTM Weights Float)
    (wl : World Weights Float) :
  opt_table_wf (word_dict self) -> opt_table_wf (char_dict self) ->
  load_dict self wl = Ok self1 ->
  cfg self1 = cfg self
  /\ exists wd cd, word_dict self1 = Some wd /\ char_dict self1 = Some cd
                   /\ table_wf wd /\ table_wf cd.
Proof.
  intros Hw Hc H. unfold load_dict in H. bind_inv H as self0 E0.
  destruct (load_dict_words_ok _ _ _ E0) as (l & wd & Hwd & ->).
  destruct (load_dict_chars_ok _ _ _ H) as (l' & cd & Hcd & ->).
  split; [reflexivity|].
  unfold load_dict_init in Hwd, Hcd.
  cbn [word_dict char_dict set_char_dict set_word_dict] in Hwd, Hcd.
  assert (Hwf_w : table_wf wd).
  { assert (Ew : (SymbolTable.get_all word_paddings
                    (default SymbolTable.new (word_dict self))).2 = wd)
      by congruence.
    rewrite <- Ew. apply get_all_wf.
    destruct (word_dict self); [exact Hw | apply new_wf]. }
  assert (Hwf_c : table_wf cd).
  { assert (Ec : (SymbolTable.get_all char_marker
                    (default SymbolTable.new (char_dict self))).2 = cd)
      by congruence.
    rewrite <- Ec. apply get_all_wf.
    destruct (char_dict self); [exact Hc | apply new_wf]. }
  eexists _, _. split; [reflexivity|]. split; [reflexivity|].
  split; apply get_all_wf; assumption.
Qed.

(** ** The row-filling pass *)

Lemma parse_floats_length {Float} (pf : string -> option Float)
    (toks : list string) (v : list Float) :
  parse_floats pf toks = Ok v -> length v = length toks.
Proof.
  revert v. induction toks as [|t toks IH]; intros v H; simpl in H.
  - injection H as <-. reflexivity.
  - destruct (pf t); [|discriminate]. bind_inv H as xs Exs. injection H as <-.
    simpl. f_equal. now apply IH.
Qed.

Lemma last_n_line (dim : Z) (w : string) (line : list string) :
  0 < dim -> Z.of_nat (length line) = dim + 1 ->
  Py.last_n dim (<[0%nat := w]> line) = drop 1 line.
Proof.
  intros Hd Hl. unfold Py.last_n, Py.clamp. rewrite length_insert.
  assert (Hneg : (- dim <? 0) = true) by (apply Z.ltb_lt; lia).
  rewrite Hneg.
  replace (Z.to_nat (Z.max 0 (- dim + Z.of_nat (length line)))) with 1%nat by lia.
  destruct line; reflexivity.
Qed.

Lemma has_shape_insert {Float} (emb : matrix Float) (rows cols i : nat)
    (v : list Float) :
  has_shape emb rows cols -> length v = cols -> has_shape (<[i := v]> emb) rows cols.
Proof.
  intros [Hl Hf] Hv. split; [now rewrite length_insert|].
  destruct (decide (i < length emb)%nat) as [Hlt|Hge].
  - apply Forall_insert; assumption.
  - rewrite list_insert_ge by lia. exact Hf.
Qed.

(** One line of an embedding file, as the code treats it, under the
    conditions that hold inside [load_embeddings]. *)
Lemma fill_rows_step {Float} (pf : string -> option Float) (dim : Z)
    (rep : list (string * string)) (tb : SymbolTable.t) (ln : string)
    (emb emb1 : matrix Float) (w0 : string) :
  table_wf tb -> 0 < dim ->
  has_shape emb (SymbolTable.s tb) (Z.to_nat dim) ->
  Z.of_nat (length (fields ln)) = dim + 1 ->
  index (fields ln) 0 = Ok w0 ->
  (if bool_decide (SymbolTable.lookup (apply_replace rep w0) tb ≠ unknown_symbol)
   then
     v ← parse_floats pf (Py.last_n dim (<[0%nat := apply_replace rep w0]> (fields ln)));
     i ← SymbolTable.lookup_strict (apply_replace rep w0) tb;
     set_row emb i v
   else Ok emb) = Ok emb1 ->
  emb1 = overwrite_spec pf rep tb emb ln
  /\ has_shape emb1 (SymbolTable.s tb) (Z.to_nat dim)
  /\ (SymbolTable.lookup (apply_replace rep w0) tb <> SymbolTable.unknown ->
      exists i v,
        SymbolTable.lookup_strict (apply_replace rep w0) tb = Ok i
        /\ parse_floats pf (drop 1 (fields ln)) = Ok v
        /\ (i < SymbolTable.s tb)%nat /\ length v = Z.to_nat dim
        /\ emb1 = <[i := v]> emb).
Proof.
  intros Hwf Hdim Hsh Hcount Hidx H.
  assert (Htok : line_token rep ln = Some (apply_replace rep w0)).
  { unfold line_token, index in *. destruct (fields ln) as [|x l]; simpl in *;
      [discriminate | congruence]. }
  unfold overwrite_spec. rewrite Htok.
  change unknown_symbol with SymbolTable.unknown in H.
  case_bool_decide as Hk.
  - rewrite last_n_line in H by assumption.
    bind_inv H as v Ev. bind_inv H as i Ei.
    rewrite Ev, Ei.
    pose proof (parse_floats_length _ _ _ Ev) as Hv.
    assert (Hvd : length v = Z.to_nat dim).
    { rewrite Hv, length_drop. lia. }
    assert (Hi : (i < SymbolTable.s tb)%nat).
    { unfold SymbolTable.lookup_strict in Ei.
      destruct (SymbolTable.d tb !! apply_replace rep w0) as [j|] eqn:Ej;
        [|discriminate]. injection Ei as <-.
      apply (wf_range _ Hwf) in Ej. lia. }
    unfold set_row in H. destruct Hsh as [Hlen Hrows].
    destruct (emb !! i) as [row|] eqn:Erow;
      [|apply lookup_ge_None in Erow; lia].
    assert (Hrow : length row = Z.to_nat dim).
    { eapply Forall_lookup_1 in Hrows; eauto. }
    rewrite bool_decide_eq_true_2 in H by congruence.
    injection H as <-.
    split; [reflexivity|]. split; [apply has_shape_insert; [split|]; assumption|].
    intros _. exists i, v. auto.
  - injection H as <-. split; [reflexivity|]. split; [assumption|].
    intros Hc. contradiction.
Qed.

Lemma fill_rows_spec {Float} (pf : string -> option Float) (dim : Z) (msg : string)
    (rep : list (string * string)) (tb : SymbolTable.t) (ls : list string)
    (emb emb' : matrix Float) :
  table_wf tb -> 0 < dim ->
  has_shape emb (SymbolTable.s tb) (Z.to_nat dim) ->
  fill_rows pf dim msg rep tb ls emb = Ok emb' ->
  emb' = fold_left (overwrite_spec pf rep tb) ls emb
  /\ has_shape emb' (SymbolTable.s tb) (Z.to_nat dim)
  /\ Forall (fun ln => forall w,
       line_token rep ln = Some w ->
       SymbolTable.lookup w tb <> SymbolTable.unknown ->
       exists i v, SymbolTable.lookup_strict w tb = Ok i
                   /\ parse_floats pf (drop 1 (fields ln)) = Ok v
                   /\ (i < SymbolTable.s tb)%nat /\ length v = Z.to_nat dim) ls.
Proof.
  intros Hwf Hdim. revert emb.
  induction ls as [|ln ls IH]; intros emb Hsh H; simpl in H.
  - injection H as <-. simpl. auto.
  - destruct (Z.eqb_spec (Z.of_nat (length (fields ln))) (dim + 1)) as [Hc|];
      [|discriminate H].
    bind_inv H as w0 E. bind_inv H as emb1 E0.
    destruct (fill_rows_step pf dim rep tb ln emb emb1 w0 Hwf Hdim Hsh Hc E E0)
      as (Heq & Hsh1 & Hex).
    destruct (IH emb1 Hsh1 H) as (Hfold & Hsh' & Hall).
    simpl. rewrite <- Heq. split; [exact Hfold|]. split; [exact Hsh'|].
    constructor; [|exact Hall].
    intros w Hw Hk.
    assert (Hw0 : w = apply_replace rep w0).
    { unfold line_token, index in *. destruct (fields ln); simpl in *;
        [discriminate | congruence]. }
    subst w. destruct (Hex Hk) as (i & v & ? & ? & ? & ? & _). eauto 10.
Qed.

(** A row that no line of the file addresses is the row the pass
    started from. *)
Lemma fold_overwrite_untouched {Float} (pf : string -> option Float)
    (rep : list (string * string)) (tb : SymbolTable.t) (ls : list string)
    (emb : matrix Float) (i : nat) :
  (forall ln w, ln ∈ ls -> line_token rep ln = Some w ->
                SymbolTable.d tb !! w <> Some i) ->
  fold_left (overwrite_spec pf rep tb) ls emb !! i = emb !! i.
Proof.
  revert emb. induction ls as [|ln ls IH]; intros emb Hno; simpl; [reflexivity|].
  rewrite IH by (intros; eapply Hno; [apply elem_of_cons; right|]; eauto).
  unfold overwrite_spec.
  destruct (line_token rep ln) as [w|] eqn:Ew; [|reflexivity].
  case_bool_decide; [|reflexivity].
  unfold SymbolTable.lookup_strict.
  destruct (SymbolTable.d tb !! w) as [j|] eqn:Ej; [|reflexivity].
  destruct (parse_floats pf (drop 1 (fields ln))); [|reflexivity].
  apply list_lookup_insert_ne. intros ->.
  apply (Hno ln w); [apply elem_of_cons; left; reflexivity | assumption | assumption].
Qed.

(** ** [load_embeddings] *)

Lemma random_emb_ok {Float} (uniform : nat -> Q -> Q -> nat -> nat -> matrix Float)
    (k rows : nat) (dim : Z) (emb : matrix Float) :
  0 < dim -> random_emb uniform k rows dim = Ok emb ->
  emb = uniform k (- (1 # 10))%Q (1 # 10)%Q rows (Z.to_nat dim).
Proof.
  intros Hd. unfold random_emb.
  destruct (Z.ltb_spec dim 0); [lia|]. congruence.
Qed.

Lemma absent_token_row {Float} (pf : string -> option Float)
    (rep : list (string * string)) (tb : SymbolTable.t) (ls : list string)
    (emb : matrix Float) (t : string) (i : nat) :
  table_wf tb -> SymbolTable.d tb !! t = Some i ->
  (forall ln, ln ∈ ls -> line_token rep ln <> Some t) ->
  fold_left (overwrite_spec pf rep tb) ls emb !! i = emb !! i.
Proof.
  intros Hwf Ht Habs. apply fold_overwrite_untouched.
  intros ln w Hin Hw Hi.
  assert (w = t) by (eapply (wf_inj _ Hwf); eauto). subst w.
  exact (Habs ln Hin Hw).
Qed.

Section LoadEmbeddings.

Context {Weights Float : Type}.
Variable parse_float : string -> option Float.
Variable uniform : nat -> Q -> Q -> nat -> nat -> matrix Float.

(** What numpy promises about the shape of a draw. *)
Hypothesis uniform_shape :
  forall k lo hi rows cols, has_shape (uniform k lo hi rows cols) rows cols.

(** C6: a successful [load_embeddings] has run [load_dict] to its end
    and keeps the two symbol tables that [load_dict] produced; both
    matrices start as draws from [uniform(-0.1, 0.1)] with one row per
    ID below the table's [s]; the final matrices are those draws with,
    line by line, row [lookup_strict(token)] overwritten with the
    line's parsed vector exactly when [lookup(token)] is not the
    unknown ID (on such a line the strict look-up and the parse have
    succeeded); and the row of a vocabulary token that no line of the
    file carries is still the row of the draw. *)
Theorem load_embeddings_spec (self self' : WCLSTM Weights Float)
    (wl : World Weights Float) :
  opt_table_wf (word_dict self) -> opt_table_wf (char_dict self) ->
  0 < word_emb_dim (cfg self) -> 0 < char_emb_dim (cfg self) ->
  load_embeddings parse_float uniform self wl = Ok self' ->
  exists self1 wd cd wls cls,
    load_dict self wl = Ok self1
    /\ word_dict self1 = Some wd /\ char_dict self1 = Some cd
    /\ word_dict self' = Some wd /\ char_dict self' = Some cd
    /\ open_text wl (word_emb_path (cfg self)) = Ok wls
    /\ open_text wl (char_emb_path (cfg self)) = Ok cls
    /\ let rep := replace (cfg self) in
       let wbody := body_lines (is_fastText (word_emb_path (cfg self))) wls in
       let we0 := uniform 0%nat (- (1 # 10))%Q (1 # 10)%Q (SymbolTable.s wd)
                    (Z.to_nat (word_emb_dim (cfg self))) in
       let ce0 := uniform 1%nat (- (1 # 10))%Q (1 # 10)%Q (SymbolTable.s cd)
                    (Z.to_nat (char_emb_dim (cfg self))) in
       let we := fold_left (overwrite_spec parse_float rep wd) wbody we0 in
       let ce := fold_left (overwrite_spec parse_float rep cd) cls ce0 in
       word_emb self' = Some we /\ char_emb self' = Some ce
       /\ length we0 = SymbolTable.s wd /\ length ce0 = SymbolTable.s cd
       /\ length we = SymbolTable.s wd /\ length ce = SymbolTable.s cd
       /\ Forall (fun ln => forall w,
            line_token rep ln = Some w ->
            SymbolTable.lookup w wd <> SymbolTable.unknown ->
            exists i v, SymbolTable.lookup_strict w wd = Ok i
                        /\ parse_floats parse_float (drop 1 (fields ln)) = Ok v
                        /\ (i < SymbolTable.s wd)%nat
                        /\ length v = Z.to_nat (word_emb_dim (cfg self))) wbody
       /\ Forall (fun ln => forall w,
            line_token rep ln = Some w ->
            SymbolTable.lookup w cd <> SymbolTable.unknown ->
            exists i v, SymbolTable.lookup_strict w cd = Ok i
                        /\ parse_floats parse_float (drop 1 (fields ln)) = Ok v
                        /\ (i < SymbolTable.s cd)%nat
                        /\ length v = Z.to_nat (char_emb_dim (cfg self))) cls
       /\ (forall t i, SymbolTable.d wd !! t = Some i ->
             (forall ln, ln ∈ wbody -> line_token rep ln <> Some t) ->
             we !! i = we0 !! i)
       /\ (forall t i, SymbolTable.d cd !! t = Some i ->
             (forall ln, ln ∈ cls -> line_token rep ln <> Some t) ->
             ce !! i = ce0 !! i).
Proof.
  intros Hw Hc Hwd Hcd H. unfold load_embeddings in H.
  bind_inv H as self1 Hload.
  destruct (load_dict_tables _ _ _ Hw Hc Hload)
    as (Hcfg & wd & cd & Ewd & Ecd & Hwfw & Hwfc).
  rewrite Hcfg, Ewd, Ecd in H. simpl in H.
  bind_inv H as we0 Ewe0. apply random_emb_ok in Ewe0; [|assumption].
  bind_inv H as ce0 Ece0. apply random_emb_ok in Ece0; [|assumption].
  bind_inv H as wls Ewls. bind_inv H as we Ewe.
  bind_inv H as cls Ecls. bind_inv H as ce Ece.
  injection H as <-.
  pose proof (uniform_shape 0%nat (- (1 # 10))%Q (1 # 10)%Q (SymbolTable.s wd)
                (Z.to_nat (word_emb_dim (cfg self)))) as Hshw.
  pose proof (uniform_shape 1%nat (- (1 # 10))%Q (1 # 10)%Q (SymbolTable.s cd)
                (Z.to_nat (char_emb_dim (cfg self)))) as Hshc.
  rewrite <- Ewe0 in Hshw. rewrite <- Ece0 in Hshc.
  destruct (fill_rows_spec _ _ _ _ _ _ _ _ Hwfw Hwd Hshw Ewe) as (Hfw & Hsw & Hallw).
  destruct (fill_rows_spec _ _ _ _ _ _ _ _ Hwfc Hcd Hshc Ece) as (Hfc & Hsc & Hallc).
  exists self1, wd, cd, wls, cls.
  split; [exact Hload|]. split; [exact Ewd|]. split; [exact Ecd|].
  split; [exact Ewd|]. split; [exact Ecd|].
  split; [exact Ewls|]. split; [exact Ecls|].
  cbv zeta. rewrite <- Ewe0, <- Ece0, <- Hfw, <- Hfc.
  cbn [word_emb char_emb set_word_emb set_char_emb].
  split; [reflexivity|]. split; [reflexivity|].
  split; [apply Hshw|]. split; [apply Hshc|].
  split; [apply Hsw|]. split; [apply Hsc|].
  split; [exact Hallw|]. split; [exact Hallc|].
  split; intros t i Ht Habs; subst we ce; eapply absent_token_row; eauto.
Qed.

End LoadEmbeddings.


Lemma demo_uniform_shape (k : nat) (lo hi : Q) (rows cols : nat) :
  has_shape (Demo.uniform k lo hi rows cols) rows cols.
Proof.
  unfold Demo.uniform. split.
  - apply length_replicate.
  - apply Forall_replicate. apply length_replicate.
Qed.

Lemma demo_preprocessed_wf :
  opt_table_wf (word_dict Demo.preprocessed)
  /\ opt_table_wf (char_dict Demo.preprocessed).
Proof.
  assert (Hw : word_dict Demo.preprocessed
    = Some (SymbolTable.get_all
              (word_paddings
               ++ Demo.mark_sentence (tokens Demo.greeting) [(0, 0, 1)])
              SymbolTable.new).2) by (vm_compute; reflexivity).
  assert (Hc : char_dict Demo.preprocessed
    = Some (SymbolTable.get_all
              (char_marker
               ++ concat (char_ngrams 3 <$>
                    Demo.mark_sentence (tokens Demo.greeting) [(0, 0, 1)]))
              SymbolTable.new).2) by (vm_compute; reflexivity).
  rewrite Hw, Hc. split; apply get_all_wf, new_wf.
Qed.

Lemma load_embeddings_spec_witness :
  exists self' we,
    load_embeddings Demo.parse_float Demo.uniform Demo.preprocessed
      (Demo.text_world Demo.word_lines Demo.char_lines) = Ok self'
    /\ word_emb self' = Some we
    /\ SymbolTable.lookup "yo" <$> word_dict self' = Some 7%nat
    /\ we !! 7%nat = Some [(- (1 # 10))%Q; (- (1 # 10))%Q].
Proof.
  destruct (load_embeddings Demo.parse_float Demo.uniform Demo.preprocessed
              (Demo.text_world Demo.word_lines Demo.char_lines))
    as [self'|e] eqn:E; [|vm_compute in E; discriminate E].
  destruct (load_embeddings_spec Demo.parse_float Demo.uniform demo_uniform_shape
              Demo.preprocessed self'
              (Demo.text_world Demo.word_lines Demo.char_lines)
              (proj1 demo_preprocessed_wf) (proj2 demo_preprocessed_wf)
              ltac:(vm_compute; reflexivity) ltac:(vm_compute; reflexivity) E)
    as (self1 & wd & cd & wls & cls & Hload & Ewd1 & _ & Ewd & _ & Ewls & _ & H).
  cbv zeta in H. destruct H as (Ewe & _ & _ & _ & _ & _ & _ & _ & Habs & _).
  assert (Hyo : SymbolTable.d wd !! "yo" = Some 7%nat /\ SymbolTable.s wd = 8%nat).
  { assert (Hc :
      match load_dict Demo.preprocessed
              (Demo.text_world Demo.word_lines Demo.char_lines) with
      | Ok o =>
          match word_dict o with
          | Some t => (SymbolTable.d t !! "yo", SymbolTable.s t)
          | None => (None, 0%nat)
          end
      | Raise _ => (None, 0%nat)
      end = (Some 7%nat, 8%nat)) by (vm_compute; reflexivity).
    rewrite Hload, Ewd1 in Hc. split; congruence. }
  destruct Hyo as [Hyo Hs].
  assert (Hdim : Z.to_nat (word_emb_dim (cfg Demo.preprocessed)) = 2%nat)
    by (vm_compute; reflexivity).
  assert (Hbody :
    body_lines (is_fastText (word_emb_path (cfg Demo.preprocessed))) wls
    = ["hi 0.5 1.0  "; "zebra 1.0 1.0"]).
  { assert (Hp : word_emb_path (cfg Demo.preprocessed) = Some "word.txt")
      by (vm_compute; reflexivity).
    rewrite Hp in Ewls |- *. vm_compute in Ewls. injection Ewls as <-.
    reflexivity. }
  assert (Hrep : replace (cfg Demo.preprocessed) = []) by (vm_compute; reflexivity).
  exists self', (fold_left
    (overwrite_spec Demo.parse_float (replace (cfg Demo.preprocessed)) wd)
    (body_lines (is_fastText (word_emb_path (cfg Demo.preprocessed))) wls)
    (Demo.uniform 0 (- (1 # 10))%Q (1 # 10)%Q (SymbolTable.s wd)
       (Z.to_nat (word_emb_dim (cfg Demo.preprocessed))))).
  split; [reflexivity|]. split; [exact Ewe|].
  split.
  - rewrite Ewd. simpl. unfold SymbolTable.lookup. rewrite Hyo. reflexivity.
  - rewrite (Habs "yo" 7%nat Hyo).
    + rewrite Hs, Hdim. reflexivity.
    + rewrite Hbody, Hrep. intros ln Hin.
      repeat (apply elem_of_cons in Hin as [->|Hin]);
        [vm_compute; discriminate ..|].
      apply elem_of_nil in Hin. contradiction.
Defined.

(** ** The epoch loop *)

Lemma Qlt_bool_true (x y : Q) : Qlt_bool x y = true <-> (x < y)%Q.
Proof.
  unfold Qlt_bool. rewrite negb_true_iff. split.
  - intros H. apply Qnot_le_lt. intros Hle. apply Qle_bool_iff in Hle. congruence.
  - intros H. destruct (Qle_bool y x) eqn:E; [|reflexivity].
    apply Qle_bool_iff in E. exfalso. exact (Qlt_not_le _ _ H E).
Qed.

Lemma Qlt_bool_false (x y : Q) : Qlt_bool x y = false <-> (y <= x)%Q.
Proof.
  unfold Qlt_bool. rewrite negb_false_iff. apply Qle_bool_iff.
Qed.

Lemma with_models_id {Weights Float Opt : Type} (o : Opt) (wm cm : Weights)
    (self : WCLSTM Weights Float) :
  word_model self = Some wm -> char_model self = Some cm ->
  with_models (o, wm, cm) self = self.
Proof. destruct self; simpl; intros -> ->; reflexivity. Qed.

Lemma save_only_param_ok {Weights Float : Type} (self : WCLSTM Weights Float)
    (wl : World Weights Float) (sdir : string) (wm cm : Weights) :
  word_model self = Some wm -> char_model self = Some cm ->
  exists wl',
    save self wl None sdir true = Ok wl'
    /\ files wl' !! word_model_path sdir None = Some (NetFile wm)
    /\ files wl' !! char_model_path sdir None = Some (NetFile cm).
Proof.
  intros Hw Hc. unfold save. simpl. rewrite Hw, Hc. simpl.
  eexists. split; [reflexivity|]. cbn [files write_file]. split.
  - rewrite lookup_insert_ne by (symmetry; apply word_path_not_char_path).
    apply lookup_insert_eq.
  - apply lookup_insert_eq.
Qed.

Section Loop.

Context {Weights Float Opt Dev : Type}.
Variable train_pass :
  Config -> list (list nat) -> list (list (list nat)) -> ndarray ->
  Opt * Weights * Weights -> Opt * Weights * Weights.
Variable dev_score : Dev -> WCLSTM Weights Float -> Q.

Variable env : @LoopEnv Dev.
Variable dev : Dev.
Hypothesis dev_supplied : X_dev env = Some dev.

(** The loop state at the head of the loop. *)
Variable st0 : @LoopState Weights Float Opt.
Variables wm0 cm0 : Weights.
Hypothesis st0_word : word_model (l_self st0) = Some wm0.
Hypothesis st0_char : char_model (l_self st0) = Some cm0.
Hypothesis st0_score : dev_score_opt st0 = 0%Q.
Hypothesis st0_last : last_epoch_opt st0 = None.
Hypothesis st0_run : epochs_run st0 = 0%nat.

Let c : Config := cfg (l_self st0).
Let n : Z := n_epochs c.
Let aft : nat -> Opt * Weights * Weights := after train_pass env st0 wm0 cm0.
Let sc : nat -> Q := score_after train_pass dev_score env dev st0 wm0 cm0.
Let elig : nat -> Prop := eligible env st0.
Let inv : nat -> @LoopState Weights Float Opt -> Prop :=
  loop_inv train_pass dev_score env dev st0 wm0 cm0.
Let wpath : string := word_model_path (save_dir env) None.
Let cpath : string := char_model_path (save_dir env) None.

Lemma loop_inv_start : inv 0 st0.
Proof.
  unfold inv, loop_inv, aft, after, passes, start_of. simpl.
  rewrite with_models_id by assumption.
  rewrite st0_score, st0_last, st0_run.
  repeat split; try reflexivity; [apply Qle_refl | intros; lia].
Qed.

Lemma fit_epoch_inv (k : nat) (st st1 : @LoopState Weights Float Opt) :
  inv k st -> fit_epoch train_pass env st = Ok st1 ->
  l_self st1 = with_models (aft (S k)) (l_self st0)
  /\ l_opt st1 = (aft (S k)).1.1
  /\ epochs_run st1 = S k
  /\ l_world st1 = l_world st
  /\ dev_score_opt st1 = dev_score_opt st
  /\ last_epoch_opt st1 = last_epoch_opt st.
Proof.
  intros (Hself & Hopt & Hrun & _) H. unfold fit_epoch in H.
  rewrite Hself in H. simpl in H. rewrite Hopt in H.
  change (cfg (l_self st0)) with c in H.
  change (after train_pass env st0 wm0 cm0) with aft in H.
  assert (Hstep : aft (S k)
    = train_pass c (X_w_train env) (X_c_train env) (Y_fit env) (aft k))
    by reflexivity.
  destruct (aft k) as [[o w] cm] eqn:Ek. simpl in H.
  destruct (train_pass c (X_w_train env) (X_c_train env) (Y_fit env) (o, w, cm))
    as [[o' w'] cm'] eqn:Et.
  injection H as <-. rewrite Hstep. simpl. rewrite Hrun. repeat split.
Qed.

Lemma checkpoint_inv (k : nat) (st st1 st2 : @LoopState Weights Float Opt) :
  inv k st -> fit_epoch train_pass env st = Ok st1 ->
  is_check env n (Z.of_nat k) = true ->
  checkpoint dev_score env (Z.of_nat k) st1 = Ok st2 ->
  inv (S k) st2.
Proof.
  intros Hinv Hfit Hchk H.
  destruct (fit_epoch_inv k st st1 Hinv Hfit) as (Hself & Hopt & Hrun & Hwl & Hsc & Hlast).
  destruct Hinv as (_ & _ & _ & Hpos & Hbest & Hfile).
  unfold checkpoint in H. rewrite dev_supplied in H.
  rewrite Hself in H. change (cfg (with_models (aft (S k)) (l_self st0))) with c in H.
  change (n_epochs c) with n in H.
  change (dev_score dev (with_models (aft (S k)) (l_self st0)))
    with (sc (S k)) in H.
  destruct (dev_ckpt env && past_delay env n (Z.of_nat k)
            && Qlt_bool (dev_score_opt st1) (sc (S k))) eqn:Econd.
  - apply andb_prop in Econd as [Econd Hlt]. apply andb_prop in Econd as [Hck Hpd].
    apply Qlt_bool_true in Hlt. rewrite Hsc in Hlt.
    destruct (save_only_param_ok (with_models (aft (S k)) (l_self st0))
                (l_world st1) (save_dir env) (aft (S k)).1.2 (aft (S k)).2
                eq_refl eq_refl) as (wl' & Hsave & Hfw & Hfc).
    rewrite Hsave in H. simpl in H. injection H as <-.
    unfold inv, loop_inv. simpl.
    split; [reflexivity|]. split; [exact Hopt|]. split; [exact Hrun|].
    split; [eapply Qle_trans; [exact Hpos | apply Qlt_le_weak; exact Hlt]|].
    split.
    + intros i Hi Hel. destruct (decide (i = k)) as [->|Hne]; [apply Qle_refl|].
      eapply Qle_trans; [apply Hbest; [lia | exact Hel]|].
      apply Qlt_le_weak. exact Hlt.
    + exists k. split; [reflexivity|]. split; [lia|].
      split; [repeat split; assumption|].
      split; [exact Hfw|]. split; [exact Hfc|]. split; [reflexivity|].
      split; [eapply Qle_lt_trans; eauto|].
      unfold is_check in Hchk. apply andb_prop in Hchk as [Hv _]. exact Hv.
  - injection H as <-. unfold inv, loop_inv.
    rewrite Hsc, Hlast, Hwl.
    split; [exact Hself|]. split; [exact Hopt|]. split; [exact Hrun|].
    split; [exact Hpos|]. split.
    + intros i Hi Hel. destruct (decide (i = k)) as [->|Hne].
      * destruct Hel as (_ & Hck & Hpd).
        change (n_epochs (cfg (l_self st0))) with n in Hpd.
        rewrite Hck, Hpd in Econd.
        simpl in Econd. apply Qlt_bool_false in Econd. rewrite Hsc in Econd.
        exact Econd.
      * apply Hbest; [lia | exact Hel].
    + destruct (last_epoch_opt st) as [b|]; [|exact Hfile].
      destruct Hfile as (j & Hb & Hj & Hrest). exists j.
      split; [exact Hb|]. split; [lia | exact Hrest].
Qed.

Lemma epoch_body_inv (k : nat) (st st' : @LoopState Weights Float Opt) (brk : bool) :
  inv k st ->
  epoch_body train_pass dev_score env (Z.of_nat k) st = Ok (st', brk) ->
  inv (S k) st'.
Proof.
  intros Hinv H. unfold epoch_body in H. bind_inv H as st1 Hfit.
  pose proof (fit_epoch_inv k st st1 Hinv Hfit)
    as (Hself & Hopt & Hrun & Hwl & Hsc & Hlast).
  rewrite Hself in H. change (cfg (with_models (aft (S k)) (l_self st0))) with c in H.
  change (n_epochs c) with n in H.
  destruct (is_check env n (Z.of_nat k)) eqn:Hchk.
  - case_bool_decide; [discriminate H|]. bind_inv H as st2 Hcp.
    injection H as <- _. eapply checkpoint_inv; eauto.
  - injection H as <- _. destruct Hinv as (_ & _ & _ & Hpos & Hbest & Hfile).
    unfold inv, loop_inv. rewrite Hsc, Hlast, Hwl.
    split; [exact Hself|]. split; [exact Hopt|]. split; [exact Hrun|].
    split; [exact Hpos|]. split.
    + intros i Hi Hel. destruct (decide (i = k)) as [->|Hne].
      * destruct Hel as (Hc' & _).
        change (n_epochs (cfg (l_self st0))) with n in Hc'. congruence.
      * apply Hbest; [lia | exact Hel].
    + destruct (last_epoch_opt st) as [b|]; [|exact Hfile].
      destruct Hfile as (j & Hb & Hj & Hrest). exists j.
      split; [exact Hb|]. split; [lia | exact Hrest].
Qed.

Lemma run_epochs_inv (m k : nat) (st st' : @LoopState Weights Float Opt) :
  inv k st ->
  run_epochs train_pass dev_score env (Z.of_nat <$> seq k m) st = Ok st' ->
  exists k', (k <= k' <= k + m)%nat /\ inv k' st'.
Proof.
  revert k st. induction m as [|m IH]; intros k st Hinv H; simpl in H.
  - injection H as <-. exists k. split; [lia | exact Hinv].
  - destruct (epoch_body train_pass dev_score env (Z.of_nat k) st)
      as [[st1 brk]|e] eqn:Eb; [|discriminate H].
    pose proof (epoch_body_inv k st st1 brk Hinv Eb) as Hinv1.
    destruct brk.
    + injection H as <-. exists (S k). split; [lia | exact Hinv1].
    + destruct (IH (S k) st1 Hinv1 H) as (k' & Hk' & Hinv').
      exists k'. split; [lia | exact Hinv'].
Qed.

(** After the loop, a recorded best epoch [b] means: the two weight
    files hold the networks as they were aft epoch [b], whose dev
    score is positive and at least that of every other epoch at which
    an improvement could have been recorded; the object itself carries
    the networks of the last epoch trained. *)
Lemma train_loop_best (st : @LoopState Weights Float Opt) (b : Z) :
  train_loop train_pass dev_score env st0 = Ok st ->
  last_epoch_opt st = Some b ->
  exists j, b = Z.of_nat j /\ (j < epochs_run st)%nat
    /\ (Z.of_nat (epochs_run st) <= Z.max 0 n)
    /\ l_self st = with_models (aft (epochs_run st)) (l_self st0)
    /\ files (l_world st) !! wpath = Some (NetFile (aft (S j)).1.2)
    /\ files (l_world st) !! cpath = Some (NetFile (aft (S j)).2)
    /\ dev_score_opt st = sc (S j)
    /\ (0 < dev_score_opt st)%Q
    /\ verbose env = true /\ dev_ckpt env = true
    /\ (forall i, (i < epochs_run st)%nat -> elig i ->
                  (sc (S i) <= sc (S j))%Q).
Proof.
  intros H Hb. unfold train_loop, Py.range in H.
  destruct (run_epochs_inv _ 0 st0 st loop_inv_start H) as (k' & Hk' & Hinv).
  destruct Hinv as (Hself & _ & Hrun & _ & Hbest & Hfile).
  rewrite Hb in Hfile. destruct Hfile as (j & -> & Hj & Hel & Hfw & Hfc & Hsc & Hpos & Hv).
  exists j. rewrite Hrun. split; [reflexivity|]. split; [exact Hj|].
  split; [change (n_epochs (cfg (l_self st0))) with n in Hk'; lia|].
  split; [exact Hself|]. split; [exact Hfw|]. split; [exact Hfc|].
  split; [exact Hsc|]. split; [exact Hpos|]. split; [exact Hv|].
  split; [apply Hel|].
  intros i Hi Heli. pose proof (Hbest i Hi Heli) as Hle.
  rewrite Hsc in Hle. exact Hle.
Qed.

End Loop.

(** ** Early stopping *)

Section EarlyStopping.

Context {Weights Float Opt Dev : Type}.
Variable train_pass :
  Config -> list (list nat) -> list (list (list nat)) -> ndarray ->
  Opt * Weights * Weights -> Opt * Weights * Weights.
Variable dev_score : Dev -> WCLSTM Weights Float -> Q.
Variable env : @LoopEnv Dev.



Variable dev : Dev.
Variable s : Q.
Variable p : nat.
Variable c : Config.

Hypothesis every_epoch_reports : print_freq env = 1.
Hypothesis ckpt_on : dev_ckpt env = true.
Hypothesis no_delay : dev_ckpt_delay env = 0%Q.
Hypothesis dev_supplied : X_dev env = Some dev.
Hypothesis has_examples : X_w_train env <> [].
Hypothesis flat : forall self, dev_score dev self = s.
Hypothesis s_pos : (0 < s)%Q.
Hypothesis patience_p : patience c = Z.of_nat p.








End EarlyStopping.



(** ** Restoring the best check-point *)

Section Train.

Context {Weights Float Opt Dev : Type}.
Variable mark_sentence : list string -> list (Z * Z * Z) -> list string.
Variable parse_float : string -> option Float.
Variable uniform : nat -> Q -> Q -> nat -> nat -> matrix Float.
Variable reshape_marginals : ndarray -> ndarray.
Variable get_train_idxs : ndarray -> bool -> list nat.
Variable CharRNN : nat -> Config -> Weights.
Variable WordRNN : option Z -> nat -> Config -> Weights.
Variable copy_embedding : matrix Float -> Weights -> Weights.
Variable Adam : Weights -> Weights -> Q -> Opt.
Variable train_pass :
  Config -> list (list nat) -> list (list (list nat)) -> ndarray ->
  Opt * Weights * Weights -> Opt * Weights * Weights.
Variable dev_score : Dev -> WCLSTM Weights Float -> Q.

Lemma train_setup_init (self : WCLSTM Weights Float) (wl : World Weights Float)
    (X_train : list Candidate) (Y_train : ndarray) (dev : option Dev) (pf : Z)
    (ckpt : bool) (delay : Q) (sdir : string) (kwargs : Kwargs)
    (env : @LoopEnv Dev) (st0 : @LoopState Weights Float Opt) :
  train_setup mark_sentence parse_float uniform reshape_marginals get_train_idxs
    CharRNN WordRNN copy_embedding Adam
    self wl X_train Y_train dev pf ckpt delay sdir kwargs = Ok (env, st0) ->
  has_models st0 /\ dev_score_opt st0 = 0%Q /\ last_epoch_opt st0 = None
  /\ epochs_run st0 = 0%nat /\ X_dev env = dev /\ save_dir env = sdir
  /\ dev_ckpt env = ckpt /\ print_freq env = pf /\ dev_ckpt_delay env = delay.
Proof.
  intros H. unfold train_setup in H.
  bind_inv H as self1 E1. bind_inv H as Y E2. bind_inv H as XY E3.
  destruct XY as [X Y']. bind_inv H as pre E4.
  destruct pre as [[[Xw Xc] self2] wl1]. bind_inv H as self3 E5.
  bind_inv H as cd E6. bind_inv H as cm E7. bind_inv H as wd E8.
  bind_inv H as wm E9. injection H as <- <-.
  unfold has_models. simpl. repeat split; eauto.
Qed.

(** C4: when [train] was given a dev set and its loop ends with a best
    epoch on record (so check-pointing was on and an improvement was
    recorded), [train] returns, and the object it leaves carries the
    two networks exactly as they were saved at that epoch: the
    networks after [b + 1] passes, which is what the two weight files
    hold, and whose dev score is at least that of every epoch at which
    an improvement could have been recorded.  Before the reload the
    object carried the networks of the last epoch trained; all other
    attributes are as the loop left them. *)
Theorem train_restores_best_checkpoint
    (self : WCLSTM Weights Float) (wl : World Weights Float)
    (X_train : list Candidate) (Y_train : ndarray) (dev : Dev) (pf : Z)
    (ckpt : bool) (delay : Q) (sdir : string) (kwargs : Kwargs)
    (env : @LoopEnv Dev) (st0 st : @LoopState Weights Float Opt) (b : Z) :
  train_setup mark_sentence parse_float uniform reshape_marginals get_train_idxs
    CharRNN WordRNN copy_embedding Adam
    self wl X_train Y_train (Some dev) pf ckpt delay sdir kwargs = Ok (env, st0) ->
  train_loop train_pass dev_score env st0 = Ok st ->
  last_epoch_opt st = Some b ->
  exists self' j wm0 cm0,
    train mark_sentence parse_float uniform reshape_marginals get_train_idxs
      CharRNN WordRNN copy_embedding Adam train_pass dev_score
      self wl X_train Y_train (Some dev) pf ckpt delay sdir kwargs
    = Ok (self', l_world st)
    /\ b = Z.of_nat j /\ (j < epochs_run st)%nat /\ ckpt = true
    /\ word_model (l_self st0) = Some wm0 /\ char_model (l_self st0) = Some cm0
    /\ let aft := after train_pass env st0 wm0 cm0 in
       let sc := score_after train_pass dev_score env dev st0 wm0 cm0 in
       word_model self' = Some (aft (S j)).1.2
       /\ char_model self' = Some (aft (S j)).2
       /\ files (l_world st) !! word_model_path sdir None
          = Some (NetFile (aft (S j)).1.2)
       /\ files (l_world st) !! char_model_path sdir None
          = Some (NetFile (aft (S j)).2)
       /\ self' = with_models (aft (S j)) (l_self st0)
       /\ l_self st = with_models (aft (epochs_run st)) (l_self st0)
       /\ (forall i, (i < epochs_run st)%nat -> eligible env st0 i ->
                     (sc (S i) <= sc (S j))%Q).
Proof.
  intros Hsetup Hloop Hb.
  destruct (train_setup_init _ _ _ _ _ _ _ _ _ _ _ _ Hsetup)
    as ([[wm0 Hw0] [cm0 Hc0]] & Hsc0 & Hl0 & Hr0 & Hdev & Hdir & Hck & _).
  destruct (train_loop_best train_pass dev_score env dev Hdev st0 wm0 cm0
              Hw0 Hc0 Hsc0 Hl0 Hr0 st b Hloop Hb)
    as (j & Hj & Hlt & _ & Hself & Hfw & Hfc & Hsc & Hpos & Hv & Hckpt & Hbest).
  rewrite Hdir in Hfw, Hfc.
  exists (with_models (after train_pass env st0 wm0 cm0 (S j)) (l_self st0)),
    j, wm0, cm0.
  split.
  - unfold train. rewrite Hsetup. simpl. rewrite Hloop. simpl.
    unfold restore_best. rewrite Hckpt, Hdev, Hv.
    replace (Qlt_bool 0 (dev_score_opt st)) with true
      by (symmetry; apply Qlt_bool_true; exact Hpos).
    simpl. unfold load, read_net. simpl. rewrite Hdir, Hfw. simpl.
    rewrite Hfc. simpl. rewrite Hself. reflexivity.
  - split; [exact Hj|]. split; [exact Hlt|]. split; [congruence|].
    split; [exact Hw0|]. split; [exact Hc0|]. cbv zeta.
    split; [reflexivity|]. split; [reflexivity|].
    split; [exact Hfw|]. split; [exact Hfc|]. split; [reflexivity|].
    split; [exact Hself|]. exact Hbest.
Qed.

End Train.

Lemma train_restores_best_checkpoint_witness :
  exists self',
    Demo.train (Demo.fresh 2) Demo.empty_world [Demo.greeting] (Arr1 [1%Q])
      (Some tt) 1 true 0%Q "checkpoints" (Demo.with_epochs_patience 7 2)
    = Ok (self', l_world Demo.scenario_end)
    /\ word_model self' = Some 2%nat /\ char_model self' = Some 2%nat
    /\ word_model (l_self Demo.scenario_end) = Some 5%nat.
Proof.
  destruct (train_restores_best_checkpoint Demo.mark_sentence Demo.parse_float
              Demo.uniform Demo.reshape_marginals Demo.get_train_idxs Demo.CharRNN
              Demo.WordRNN Demo.copy_embedding Demo.Adam Demo.train_pass
              Demo.flat_score (Demo.fresh 2) Demo.empty_world [Demo.greeting]
              (Arr1 [1%Q]) tt 1 true 0%Q "checkpoints"
              (Demo.with_epochs_patience 7 2)
              Demo.scenario_env Demo.scenario_start Demo.scenario_end 1)
    as (self' & j & wm0 & cm0 & Htrain & Hj & _ & _ & Hw0 & Hc0 & H).
  - vm_compute. reflexivity.
  - vm_compute. reflexivity.
  - vm_compute. reflexivity.
  - cbv zeta in H. destruct H as (Hw & Hc & _).
    assert (j = 1%nat) by lia. subst j.
    assert (wm0 = 0%nat) by (vm_compute in Hw0; congruence).
    assert (cm0 = 0%nat) by (vm_compute in Hc0; congruence).
    subst wm0 cm0.
    exists self'. split; [exact Htrain|].
    split; [rewrite Hw; vm_compute; reflexivity|].
    split; [rewrite Hc; vm_compute; reflexivity|].
    vm_compute. reflexivity.
Defined.

(** ** Validation of the training marginals *)

(** The checks that [train] does make: a negative entry is refused. *)
Lemma check_marginals_rejects_negative {Weights Float}
    (reshape_marginals : ndarray -> ndarray) (self : WCLSTM Weights Float)
    (Y_train : ndarray) :
  cardinality self = 2 -> all_nonneg (reshape_marginals Y_train) = false ->
  exists e, check_marginals reshape_marginals self Y_train = Raise e.
Proof.
  intros Hc Hneg. unfold check_marginals. rewrite Hc.
  case_bool_decide; [destruct Y_train; simpl; eauto|].
  simpl. rewrite Hneg. eauto.
Qed.

(** C2 at two failing inputs.  For a three-class model the single row
    [[0.5, 0.25, 0.0]], which sums to 0.75, passes all three checks;
    for a binary model the one-dimensional target [[2.0]], which lies
    outside [0,1], passes them too.  ([reshape_marginals] is only
    required to hand these two arrays back as they are.) *)
Theorem check_marginals_accepts_malformed {Weights Float}
    (reshape_marginals : ndarray -> ndarray)
    (self3 self2 : WCLSTM Weights Float) :
  let Y3 := Arr2 3 [[(1 # 2)%Q; (1 # 4)%Q; 0%Q]] in
  let Y1 := Arr1 [2%Q] in
  cardinality self3 = 3 -> cardinality self2 = 2 ->
  reshape_marginals Y3 = Y3 -> reshape_marginals Y1 = Y1 ->
  check_marginals reshape_marginals self3 Y3 = Ok Y3
  /\ check_marginals reshape_marginals self2 Y1 = Ok Y1.
Proof.
  intros Y3 Y1 H3 H2 R3 R1. unfold check_marginals.
  rewrite H3, H2, R3, R1. split; reflexivity.
Qed.

Lemma check_marginals_accepts_malformed_witness :
  check_marginals Demo.reshape_marginals (Demo.fresh 3)
    (Arr2 3 [[(1 # 2)%Q; (1 # 4)%Q; 0%Q]])
  = Ok (Arr2 3 [[(1 # 2)%Q; (1 # 4)%Q; 0%Q]])
  /\ check_marginals Demo.reshape_marginals (Demo.fresh 2) (Arr1 [2%Q])
     = Ok (Arr1 [2%Q]).
Proof.
  apply (check_marginals_accepts_malformed Demo.reshape_marginals
           (Demo.fresh 3) (Demo.fresh 2)); reflexivity.
Defined.

(** On both targets the whole of [train] goes through: the example is
    kept, the networks are built and one gradient pass is made. *)
Lemma train_runs_on_malformed_marginals :
  match Demo.train (Demo.fresh 3) Demo.empty_world [Demo.greeting]
          (Arr2 3 [[(1 # 2)%Q; (1 # 4)%Q; 0%Q]])
          None 5 true (3 # 4)%Q "checkpoints" (Demo.with_epochs_patience 1 100)
  with
  | Ok (self', _) => (word_model self', char_model self')
  | Raise _ => (None, None)
  end = (Some 1%nat, Some 1%nat)
  /\ match Demo.train (Demo.fresh 2) Demo.empty_world [Demo.greeting]
             (Arr1 [2%Q])
             None 5 true (3 # 4)%Q "checkpoints" (Demo.with_epochs_patience 1 100)
     with
     | Ok (self', _) => (word_model self', char_model self')
     | Raise _ => (None, None)
     end = (Some 1%nat, Some 1%nat).
Proof. split; vm_compute; reflexivity. Qed.

(** * Further properties of the class *)

(** ** Growth of a symbol table *)

Lemma get_subseteq (w : string) (tb : SymbolTable.t) :
  SymbolTable.d tb ⊆ SymbolTable.d (SymbolTable.get w tb).2.
Proof.
  unfold SymbolTable.get. destruct (SymbolTable.d tb !! w) eqn:E; simpl;
    [reflexivity | now apply insert_subseteq].
Qed.

Lemma get_returns (w : string) (tb : SymbolTable.t) :
  SymbolTable.d (SymbolTable.get w tb).2 !! w = Some (SymbolTable.get w tb).1.
Proof.
  unfold SymbolTable.get. destruct (SymbolTable.d tb !! w) eqn:E; simpl;
    [exact E | apply lookup_insert_eq].
Qed.

Lemma get_all_subseteq (ws : list string) (tb : SymbolTable.t) :
  SymbolTable.d tb ⊆ SymbolTable.d (SymbolTable.get_all ws tb).2.
Proof.
  revert tb. induction ws as [|w ws IH]; intros tb; simpl; [reflexivity|].
  pose proof (get_subseteq w tb) as H1.
  destruct (SymbolTable.get w tb) as [i tb1]. specialize (IH tb1).
  destruct (SymbolTable.get_all ws tb1) as [ids tb2]. simpl in *.
  etrans; eassumption.
Qed.

(** The IDs that [get] handed out are the IDs that [lookup] finds in
    the table that resulted, and in every table grown from it. *)
Lemma get_all_then_lookup_all (ws : list string) (tb tb' : SymbolTable.t) :
  SymbolTable.d (SymbolTable.get_all ws tb).2 ⊆ SymbolTable.d tb' ->
  SymbolTable.lookup_all ws tb' = (SymbolTable.get_all ws tb).1.
Proof.
  revert tb. induction ws as [|w ws IH]; intros tb Hsub; simpl in *; [reflexivity|].
  pose proof (get_returns w tb) as Hr.
  destruct (SymbolTable.get w tb) as [i tb1]. specialize (IH tb1).
  pose proof (get_all_subseteq ws tb1) as H2.
  destruct (SymbolTable.get_all ws tb1) as [ids tb2]. simpl in *.
  unfold SymbolTable.lookup_all in *. simpl. f_equal; [|exact (IH Hsub)].
  unfold SymbolTable.lookup.
  rewrite (lookup_weaken _ _ _ _ Hr (transitivity H2 Hsub)). reflexivity.
Qed.

Lemma char_seq_of_then_lookup (gram : Z) (s : list string)
    (cd cd' : SymbolTable.t) (seqs : list (list nat)) :
  char_seq_of true gram s cd = (seqs, cd') ->
  SymbolTable.d cd ⊆ SymbolTable.d cd'
  /\ forall cd2, SymbolTable.d cd' ⊆ SymbolTable.d cd2 ->
                 char_seq_of false gram s cd2 = (seqs, cd2).
Proof.
  revert cd cd' seqs. induction s as [|w s IH]; intros cd cd' seqs H; simpl in H.
  - injection H as <- <-. split; [reflexivity|]. reflexivity.
  - pose proof (get_all_subseteq (char_ngrams gram w) cd) as H1.
    pose proof (get_all_then_lookup_all (char_ngrams gram w) cd) as Hl.
    destruct (SymbolTable.get_all (char_ngrams gram w) cd) as [ids cd1].
    destruct (char_seq_of true gram s cd1) as [seqs1 cd2] eqn:E.
    injection H as <- <-. simpl in *.
    destruct (IH _ _ _ E) as [H2 Hk].
    split; [etrans; eassumption|].
    intros cd3 Hsub. simpl. rewrite (Hk cd3 Hsub).
    rewrite (Hl cd3) by (etrans; eassumption). reflexivity.
Qed.

Lemma preprocess_loop_then_lookup ms (gram : Z) (cands : list Candidate)
    (wd cd wd' cd' : SymbolTable.t) ws cs :
  preprocess_loop ms true gram cands wd cd = Ok (ws, cs, wd', cd') ->
  SymbolTable.d wd ⊆ SymbolTable.d wd' /\ SymbolTable.d cd ⊆ SymbolTable.d cd'
  /\ forall wd2 cd2,
       SymbolTable.d wd' ⊆ SymbolTable.d wd2 ->
       SymbolTable.d cd' ⊆ SymbolTable.d cd2 ->
       preprocess_loop ms false gram cands wd2 cd2 = Ok (ws, cs, wd2, cd2).
Proof.
  revert wd cd wd' cd' ws cs.
  induction cands as [|c cands IH]; intros wd cd wd' cd' ws cs H; simpl in H.
  - injection H as <- <- <- <-. repeat split; reflexivity.
  - bind_inv H as args Ea. simpl in H.
    pose proof (get_all_subseteq (ms (tokens c) args) wd) as H1.
    pose proof (get_all_then_lookup_all (ms (tokens c) args) wd) as Hl.
    destruct (SymbolTable.get_all (ms (tokens c) args) wd) as [word_ids wd1].
    destruct (char_seq_of true gram (ms (tokens c) args) cd)
      as [char_seq cd1] eqn:Ec.
    destruct (char_seq_of_then_lookup _ _ _ _ _ Ec) as [H2 Hk].
    bind_inv H as r Er. destruct r as [[[ws0 cs0] wd2] cd2]. simpl in H.
    injection H as <- <- <- <-. simpl in *.
    destruct (IH _ _ _ _ _ _ Er) as (H3 & H4 & Hrest).
    split; [etrans; eassumption|]. split; [etrans; eassumption|].
    intros wd3 cd3 Hw Hc. simpl. rewrite Ea. simpl.
    rewrite (Hl wd3) by (etrans; eassumption).
    rewrite (Hk cd3) by (etrans; eassumption).
    rewrite (Hrest wd3 cd3 Hw Hc). reflexivity.
Qed.

(** Setting both tables to what they already are changes nothing. *)
Lemma set_dicts_same {Weights Float} (self : WCLSTM Weights Float)
    (wd cd : SymbolTable.t) :
  word_dict self = Some wd -> char_dict self = Some cd ->
  set_char_dict (Some cd) (set_word_dict (Some wd) self) = self.
Proof. destruct self; simpl; intros -> ->; reflexivity. Qed.

Lemma init_dicts_same {Weights Float} (self : WCLSTM Weights Float) :
  is_Some (word_dict self) -> is_Some (char_dict self) -> init_dicts self = self.
Proof. intros [wd Hw] [cd Hc]. unfold init_dicts. now rewrite Hw, Hc. Qed.

(** X1: the IDs computed for the training candidates in extend mode
    are found again in look-up mode: preprocessing the same candidates
    once more with [extend=False] returns the same word and char ID
    sequences and leaves the object as it is. *)
Theorem preprocess_extend_then_lookup {Weights Float}
    (ms : list string -> list (Z * Z * Z) -> list string)
    (self self' : WCLSTM Weights Float) (wl wl' wl2 : World Weights Float)
    (cands : list Candidate) ws cs :
  _preprocess_data ms self wl cands true = Ok (ws, cs, self', wl') ->
  _preprocess_data ms self' wl2 cands false = Ok (ws, cs, self', wl2).
Proof.
  intros H. unfold _preprocess_data in H.
  bind_inv H as wd Ewd. bind_inv H as cd Ecd. bind_inv H as r Er.
  destruct r as [[[ws0 cs0] wd'] cd']. simpl in H.
  assert (Hself : self' = set_char_dict (Some cd')
                            (set_word_dict (Some wd') (init_dicts self)))
    by congruence.
  assert (Hws : ws = ws0) by congruence. assert (Hcs : cs = cs0) by congruence.
  subst ws cs. clear H.
  destruct (preprocess_loop_then_lookup _ _ _ _ _ _ _ _ _ Er) as (_ & _ & Hk).
  unfold _preprocess_data.
  assert (Hw : word_dict self' = Some wd') by (subst self'; reflexivity).
  assert (Hc : char_dict self' = Some cd') by (subst self'; reflexivity).
  assert (Hg : char_gram (cfg self') = char_gram (cfg (init_dicts self)))
    by (subst self'; reflexivity).
  rewrite (init_dicts_same self') by (rewrite ?Hw, ?Hc; eauto).
  rewrite Hw, Hc. simpl. rewrite Hg.
  rewrite (Hk wd' cd') by reflexivity. simpl.
  rewrite (set_dicts_same self' wd' cd' Hw Hc). reflexivity.
Qed.

Lemma preprocess_extend_then_lookup_witness :
  exists ws cs self' wl',
    _preprocess_data Demo.mark_sentence (Demo.fresh 2) Demo.empty_world
      [Demo.greeting; Demo.long_cand] true = Ok (ws, cs, self', wl')
    /\ _preprocess_data Demo.mark_sentence self' Demo.empty_world
         [Demo.greeting; Demo.long_cand] false
       = Ok (ws, cs, self', Demo.empty_world).
Proof.
  destruct (_preprocess_data Demo.mark_sentence (Demo.fresh 2) Demo.empty_world
              [Demo.greeting; Demo.long_cand] true)
    as [[[[ws cs] self'] wl']|e] eqn:E; [|vm_compute in E; discriminate E].
  exists ws, cs, self', wl'. split; [reflexivity|].
  exact (preprocess_extend_then_lookup _ _ _ _ _ Demo.empty_world _ _ _ E).
Defined.

(** ** Look-up mode *)

Lemma char_seq_of_lookup (gram : Z) (s : list string) (cd : SymbolTable.t) :
  char_seq_of false gram s cd
  = ((fun w => SymbolTable.lookup_all (char_ngrams gram w) cd) <$> s, cd).
Proof.
  induction s as [|w s IH]; simpl; [reflexivity|]. now rewrite IH.
Qed.

Lemma preprocess_loop_lookup ms (gram : Z) (cands : list Candidate)
    (wd cd wd' cd' : SymbolTable.t) ws cs :
  preprocess_loop ms false gram cands wd cd = Ok (ws, cs, wd', cd') ->
  wd' = wd /\ cd' = cd
  /\ Forall2 (fun c ids => exists args, candidate_args c = Ok args
        /\ ids = SymbolTable.lookup_all (ms (tokens c) args) wd) cands ws
  /\ Forall2 (fun c seqs => exists args, candidate_args c = Ok args
        /\ seqs = (fun w => SymbolTable.lookup_all (char_ngrams gram w) cd)
                    <$> ms (tokens c) args) cands cs.
Proof.
  revert ws cs. induction cands as [|c cands IH]; intros ws cs H; simpl in H.
  - injection H as <- <- <- <-. repeat split; constructor.
  - bind_inv H as args Ea. simpl in H. rewrite char_seq_of_lookup in H.
    bind_inv H as r Er. destruct r as [[[ws0 cs0] wd2] cd2]. simpl in H.
    injection H as <- <- <- <-.
    destruct (IH _ _ Er) as (-> & -> & Hw & Hc).
    repeat split; constructor; eauto.
Qed.

(** X2: in look-up mode the vocabulary is frozen.  On an object that
    has both tables, [_preprocess_data(X, extend=False)] (the call that
    [_marginals_batch] makes) returns the object and the environment
    untouched; each word ID is the table's [lookup] of the marked token
    and each char ID the [lookup] of the n-gram, so a token the table
    does not hold comes out as the unknown symbol 1. *)
Theorem preprocess_lookup_frozen {Weights Float}
    (ms : list string -> list (Z * Z * Z) -> list string)
    (self self' : WCLSTM Weights Float) (wl wl' : World Weights Float)
    (cands : list Candidate) ws cs (wd cd : SymbolTable.t) :
  word_dict self = Some wd -> char_dict self = Some cd ->
  _preprocess_data ms self wl cands false = Ok (ws, cs, self', wl') ->
  self' = self /\ wl' = wl
  /\ Forall2 (fun c ids => exists args, candidate_args c = Ok args
        /\ ids = (fun w => default unknown_symbol (SymbolTable.d wd !! w))
                   <$> ms (tokens c) args) cands ws
  /\ Forall2 (fun c seqs => exists args, candidate_args c = Ok args
        /\ seqs = (fun w => (fun g => default unknown_symbol (SymbolTable.d cd !! g))
                              <$> char_ngrams (char_gram (cfg self)) w)
                    <$> ms (tokens c) args) cands cs.
Proof.
  intros Hw Hc H. unfold _preprocess_data in H.
  rewrite (init_dicts_same self) in H by (rewrite ?Hw, ?Hc; eauto).
  rewrite Hw, Hc in H. simpl in H.
  bind_inv H as r Er. destruct r as [[[ws0 cs0] wd'] cd']. simpl in H.
  destruct (preprocess_loop_lookup _ _ _ _ _ _ _ _ _ Er) as (-> & -> & H1 & H2).
  rewrite (set_dicts_same self wd cd Hw Hc) in H.
  assert (ws = ws0) by congruence. assert (cs = cs0) by congruence.
  assert (self' = self) by congruence. assert (wl' = wl) by congruence.
  subst. auto.
Qed.

Lemma preprocess_lookup_frozen_witness :
  exists ws cs,
    _preprocess_data Demo.mark_sentence Demo.preprocessed Demo.empty_world
      [Demo.long_cand] false = Ok (ws, cs, Demo.preprocessed, Demo.empty_world)
    /\ ws = [[1; 1; 1; 1; 1; 2; 1; 3]%nat].
Proof.
  destruct (_preprocess_data Demo.mark_sentence Demo.preprocessed Demo.empty_world
              [Demo.long_cand] false)
    as [[[[ws cs] self'] wl']|e] eqn:E; [|vm_compute in E; discriminate E].
  destruct (word_dict Demo.preprocessed) as [wd|] eqn:Ew;
    [|vm_compute in Ew; discriminate Ew].
  destruct (char_dict Demo.preprocessed) as [cd|] eqn:Ec;
    [|vm_compute in Ec; discriminate Ec].
  destruct (preprocess_lookup_frozen _ _ _ _ _ _ _ _ wd cd Ew Ec E)
    as (-> & -> & _ & _).
  exists ws, cs. split; [reflexivity|].
  vm_compute in E. congruence.
Defined.

(** ** IDs stay inside the table *)

Lemma get_range (w : string) (tb : SymbolTable.t) :
  table_wf tb ->
  (2 <= (SymbolTable.get w tb).1 < SymbolTable.s (SymbolTable.get w tb).2)%nat
  /\ (SymbolTable.s tb <= SymbolTable.s (SymbolTable.get w tb).2)%nat.
Proof.
  intros [Hs Hr Hi]. unfold SymbolTable.get.
  destruct (SymbolTable.d tb !! w) eqn:E; simpl; [|lia].
  apply Hr in E. lia.
Qed.

Lemma get_all_range (ws : list string) (tb : SymbolTable.t) :
  table_wf tb ->
  Forall (fun i => 2 <= i < SymbolTable.s (SymbolTable.get_all ws tb).2)%nat
    (SymbolTable.get_all ws tb).1
  /\ (SymbolTable.s tb <= SymbolTable.s (SymbolTable.get_all ws tb).2)%nat.
Proof.
  revert tb. induction ws as [|w ws IH]; intros tb Hwf; simpl; [split; [constructor | lia]|].
  pose proof (get_range w tb Hwf) as [H1 H2]. pose proof (get_wf w tb Hwf) as Hwf1.
  destruct (SymbolTable.get w tb) as [i tb1]. destruct (IH tb1 Hwf1) as [H3 H4].
  destruct (SymbolTable.get_all ws tb1) as [ids tb2]. simpl in *.
  split; [constructor; [lia | exact H3] | lia].
Qed.

Lemma lookup_range (w : string) (tb : SymbolTable.t) :
  table_wf tb -> (1 <= SymbolTable.lookup w tb < SymbolTable.s tb)%nat.
Proof.
  intros [Hs Hr Hi]. unfold SymbolTable.lookup, SymbolTable.unknown.
  destruct (SymbolTable.d tb !! w) eqn:E; simpl; [apply Hr in E|]; lia.
Qed.

Lemma map_table_range (extend : bool) (ws : list string) (tb : SymbolTable.t) :
  table_wf tb ->
  table_wf (map_table extend ws tb).2
  /\ (SymbolTable.s tb <= SymbolTable.s (map_table extend ws tb).2)%nat
  /\ Forall (fun i => least_id extend <= i < SymbolTable.s (map_table extend ws tb).2)%nat
       (map_table extend ws tb).1.
Proof.
  intros Hwf. unfold map_table. destruct extend; simpl.
  - destruct (get_all_range ws tb Hwf) as [H1 H2].
    split; [now apply get_all_wf|]. split; assumption.
  - split; [assumption|]. split; [lia|].
    unfold SymbolTable.lookup_all. apply Forall_fmap, Forall_forall.
    intros w _. simpl. apply lookup_range, Hwf.
Qed.

Lemma Forall_lt_mono (lo hi hi' : nat) (l : list nat) :
  (hi <= hi')%nat -> Forall (fun i => lo <= i < hi)%nat l ->
  Forall (fun i => lo <= i < hi')%nat l.
Proof. intros Hle H. eapply Forall_impl; [exact H|]. intros i. simpl. lia. Qed.

Lemma char_seq_of_range (extend : bool) (gram : Z) (s : list string)
    (cd : SymbolTable.t) :
  table_wf cd ->
  table_wf (char_seq_of extend gram s cd).2
  /\ (SymbolTable.s cd <= SymbolTable.s (char_seq_of extend gram s cd).2)%nat
  /\ Forall (Forall (fun i => least_id extend <= i
                              < SymbolTable.s (char_seq_of extend gram s cd).2)%nat)
       (char_seq_of extend gram s cd).1.
Proof.
  revert cd. induction s as [|w s IH]; intros cd Hwf; simpl.
  - split; [assumption|]. split; [lia | constructor].
  - destruct (map_table_range extend (char_ngrams gram w) cd Hwf) as (H1 & H2 & H3).
    destruct (map_table extend (char_ngrams gram w) cd) as [ids cd1].
    destruct (IH cd1 H1) as (H4 & H5 & H6).
    destruct (char_seq_of extend gram s cd1) as [seqs cd2]. simpl in *.
    split; [assumption|]. split; [lia|].
    constructor; [eapply Forall_lt_mono; eassumption | exact H6].
Qed.

Lemma preprocess_loop_range ms (extend : bool) (gram : Z) (cands : list Candidate)
    (wd cd wd' cd' : SymbolTable.t) ws cs :
  table_wf wd -> table_wf cd ->
  preprocess_loop ms extend gram cands wd cd = Ok (ws, cs, wd', cd') ->
  table_wf wd' /\ table_wf cd'
  /\ (SymbolTable.s wd <= SymbolTable.s wd')%nat
  /\ (SymbolTable.s cd <= SymbolTable.s cd')%nat
  /\ Forall (Forall (fun i => least_id extend <= i < SymbolTable.s wd')%nat) ws
  /\ Forall (Forall (Forall (fun i => least_id extend <= i < SymbolTable.s cd')%nat)) cs.
Proof.
  revert wd cd ws cs. induction cands as [|c cands IH];
    intros wd cd ws cs Hw Hc H; simpl in H.
  - injection H as <- <- <- <-.
    split; [assumption|]. split; [assumption|]. split; [lia|]. split; [lia|].
    split; constructor.
  - bind_inv H as args Ea. simpl in H.
    destruct (map_table_range extend (ms (tokens c) args) wd Hw) as (H1 & H2 & H3).
    destruct (map_table extend (ms (tokens c) args) wd) as [word_ids wd1].
    destruct (char_seq_of_range extend gram (ms (tokens c) args) cd Hc)
      as (H4 & H5 & H6).
    destruct (char_seq_of extend gram (ms (tokens c) args) cd) as [char_seq cd1].
    bind_inv H as r Er. destruct r as [[[ws0 cs0] wd2] cd2]. simpl in H.
    injection H as <- <- <- <-. simpl in *.
    destruct (IH _ _ _ _ H1 H4 Er) as (G1 & G2 & G3 & G4 & G5 & G6).
    split; [assumption|]. split; [assumption|].
    split; [lia|]. split; [lia|]. split.
    + constructor; [eapply Forall_lt_mono; eassumption | exact G5].
    + constructor; [|exact G6].
      eapply Forall_impl; [exact H6|]. intros l Hl.
      eapply Forall_lt_mono; eassumption.
Qed.

Lemma init_dicts_wf {Weights Float} (self : WCLSTM Weights Float) :
  opt_table_wf (word_dict self) -> opt_table_wf (char_dict self) ->
  opt_table_wf (word_dict (init_dicts self))
  /\ opt_table_wf (char_dict (init_dicts self)).
Proof.
  intros Hw Hc. unfold init_dicts.
  destruct (word_dict self) eqn:Ew;
    cbn [word_dict char_dict set_word_dict set_char_dict];
    destruct (char_dict self) eqn:Ec;
    cbn [word_dict char_dict set_word_dict set_char_dict opt_table_wf];
    rewrite ?Ew, ?Ec; cbn [opt_table_wf]; split;
    try assumption; try exact I; apply get_all_wf, new_wf.
Qed.

(** X3: every ID that [_preprocess_data] returns addresses a row of an
    embedding matrix sized by the table it leaves behind.  Starting
    from well-formed tables (or none), both tables of the resulting
    object are well-formed; in extend mode every word ID lies in
    [[2, word_dict.s)] and every char ID in [[2, char_dict.s)]; in
    look-up mode the lower bound is the unknown symbol 1.  No ID is
    ever the padding ID 0. *)
Theorem preprocess_ids_in_range {Weights Float}
    (ms : list string -> list (Z * Z * Z) -> list string)
    (self self' : WCLSTM Weights Float) (wl wl' : World Weights Float)
    (cands : list Candidate) (extend : bool) ws cs :
  opt_table_wf (word_dict self) -> opt_table_wf (char_dict self) ->
  _preprocess_data ms self wl cands extend = Ok (ws, cs, self', wl') ->
  exists wd' cd',
    word_dict self' = Some wd' /\ char_dict self' = Some cd'
    /\ table_wf wd' /\ table_wf cd'
    /\ Forall (Forall (fun i => least_id extend <= i < SymbolTable.s wd')%nat) ws
    /\ Forall (Forall (Forall (fun i => least_id extend <= i < SymbolTable.s cd')%nat)) cs.
Proof.
  intros Hw Hc H. unfold _preprocess_data in H.
  destruct (init_dicts_wf self Hw Hc) as [Hw1 Hc1].
  bind_inv H as wd Ewd. bind_inv H as cd Ecd. bind_inv H as r Er.
  destruct r as [[[ws0 cs0] wd'] cd']. simpl in H.
  destruct (word_dict (init_dicts self)) as [wd0|]; [|discriminate Ewd].
  destruct (char_dict (init_dicts self)) as [cd0|]; [|discriminate Ecd].
  simpl in Ewd, Ecd, Hw1, Hc1.
  assert (wd0 = wd) by congruence. assert (cd0 = cd) by congruence. subst wd0 cd0.
  destruct (preprocess_loop_range _ _ _ _ _ _ _ _ _ _ Hw1 Hc1 Er)
    as (G1 & G2 & _ & _ & G5 & G6).
  assert (ws = ws0) by congruence. assert (cs = cs0) by congruence.
  assert (Hs : self' = set_char_dict (Some cd') (set_word_dict (Some wd') (init_dicts self)))
    by congruence.
  subst. exists wd', cd'. split; [reflexivity|]. split; [reflexivity|]. auto.
Qed.

Lemma preprocess_ids_in_range_witness :
  exists ws cs self' wl' wd' cd',
    _preprocess_data Demo.mark_sentence (Demo.fresh 2) Demo.empty_world
      [Demo.greeting] true = Ok (ws, cs, self', wl')
    /\ word_dict self' = Some wd' /\ char_dict self' = Some cd'
    /\ Forall (Forall (fun i => 2 <= i < SymbolTable.s wd')%nat) ws
    /\ Forall (Forall (Forall (fun i => 2 <= i < SymbolTable.s cd')%nat)) cs.
Proof.
  destruct (_preprocess_data Demo.mark_sentence (Demo.fresh 2) Demo.empty_world
              [Demo.greeting] true)
    as [[[[ws cs] self'] wl']|e] eqn:E; [|vm_compute in E; discriminate E].
  destruct (preprocess_ids_in_range Demo.mark_sentence (Demo.fresh 2) self'
              Demo.empty_world wl' [Demo.greeting] true ws cs I I E)
    as (wd' & cd' & Hw & Hc & _ & _ & H1 & H2).
  exists ws, cs, self', wl', wd', cd'. auto.
Defined.

(** ** The vocabulary that [create_dict] builds *)

Lemma get_all_app (a b : list string) (tb : SymbolTable.t) :
  (SymbolTable.get_all (a ++ b) tb).2
  = (SymbolTable.get_all b (SymbolTable.get_all a tb).2).2.
Proof.
  revert tb. induction a as [|w a IH]; intros tb; simpl; [reflexivity|].
  destruct (SymbolTable.get w tb) as [i tb1]. specialize (IH tb1).
  destruct (SymbolTable.get_all (a ++ b) tb1) as [ids tb2].
  destruct (SymbolTable.get_all a tb1) as [ids' tb3]. simpl in *. exact IH.
Qed.

Lemma get_dom (w : string) (tb : SymbolTable.t) :
  dom (SymbolTable.d (SymbolTable.get w tb).2) = dom (SymbolTable.d tb) ∪ {[w]}.
Proof.
  unfold SymbolTable.get. destruct (SymbolTable.d tb !! w) eqn:E; simpl.
  - assert (Hw : w ∈ dom (SymbolTable.d tb)) by (apply elem_of_dom; eauto).
    apply set_eq. intros x. rewrite elem_of_union, elem_of_singleton.
    split; [auto | intros [?| ->]; auto].
  - rewrite dom_insert_L. apply (comm_L (∪)).
Qed.

Lemma get_all_dom (ws : list string) (tb : SymbolTable.t) :
  dom (SymbolTable.d (SymbolTable.get_all ws tb).2)
  = dom (SymbolTable.d tb) ∪ list_to_set ws.
Proof.
  revert tb. induction ws as [|w ws IH]; intros tb; simpl;
    [now rewrite (right_id_L ∅ (∪))|].
  pose proof (get_dom w tb) as H1.
  destruct (SymbolTable.get w tb) as [i tb1]. specialize (IH tb1).
  destruct (SymbolTable.get_all ws tb1) as [ids tb2]. simpl in *.
  rewrite IH, H1. now rewrite (assoc_L (∪)).
Qed.

Lemma create_dict_train_both {Weights Float} (cands : list Candidate)
    (self : WCLSTM Weights Float) (wd cd : SymbolTable.t) :
  word_dict self = Some wd -> char_dict self = Some cd ->
  create_dict_train true true cands self
  = Ok (set_char_dict
          (Some (SymbolTable.get_all (concat (chars_of <$> cands)) cd).2)
          (set_word_dict
             (Some (SymbolTable.get_all (concat (tokens <$> cands)) wd).2) self)).
Proof.
  revert self wd cd. induction cands as [|c cands IH]; intros self wd cd Hw Hc.
  - simpl. now rewrite (set_dicts_same self wd cd Hw Hc).
  - cbn [create_dict_train]. rewrite Hw.
    cbn [getattr mbind res_bind char_dict set_word_dict]. rewrite Hc.
    cbn [getattr mbind res_bind].
    erewrite IH by reflexivity.
    cbn [fmap list_fmap concat]. fold (chars_of c).
    rewrite !get_all_app. reflexivity.
Qed.

Lemma create_dict_test_set_both {Weights Float} (cands : list Candidate)
    (self : WCLSTM Weights Float) (wa ca : gset string) :
  word_dict_all self = Some wa -> char_dict_all self = Some ca ->
  create_dict_test_set true true cands self
  = Ok (set_char_dict_all
          (Some (ca ∪ list_to_set (concat (chars_of <$> cands))))
          (set_word_dict_all
             (Some (wa ∪ list_to_set (concat (tokens <$> cands)))) self)).
Proof.
  revert self wa ca. induction cands as [|c cands IH]; intros self wa ca Hw Hc.
  - simpl. rewrite !(right_id_L ∅ (∪)). destruct self; simpl in *; now subst.
  - cbn [create_dict_test_set]. unfold create_dict_test_cand. rewrite Hw.
    cbn [getattr mbind res_bind char_dict_all set_word_dict_all]. rewrite Hc.
    cbn [getattr mbind res_bind].
    erewrite IH by reflexivity. unfold update_keys.
    cbn [fmap list_fmap concat]. fold (chars_of c).
    rewrite !list_to_set_app_L, !(assoc_L (∪)). reflexivity.
Qed.

Lemma create_dict_test_both {Weights Float} (sets : list (list Candidate))
    (self : WCLSTM Weights Float) (wa ca : gset string) :
  word_dict_all self = Some wa -> char_dict_all self = Some ca ->
  create_dict_test true true sets self
  = Ok (set_char_dict_all
          (Some (ca ∪ list_to_set (concat (chars_of <$> concat sets))))
          (set_word_dict_all
             (Some (wa ∪ list_to_set (concat (tokens <$> concat sets)))) self)).
Proof.
  revert self wa ca. induction sets as [|cs sets IH]; intros self wa ca Hw Hc.
  - simpl. rewrite !(right_id_L ∅ (∪)). destruct self; simpl in *; now subst.
  - cbn [create_dict_test].
    rewrite (create_dict_test_set_both cs self wa ca Hw Hc).
    cbn [mbind res_bind]. erewrite IH by reflexivity.
    cbn [concat]. rewrite !fmap_app, !concat_app, !list_to_set_app_L, !(assoc_L (∪)).
    reflexivity.
Qed.

Lemma create_dict_both_ok {Weights Float} (self : WCLSTM Weights Float)
    (splits : Splits) :
  exists self' wd cd,
    create_dict self splits true true = Ok self'
    /\ word_dict self' = Some wd /\ char_dict self' = Some cd
    /\ table_wf wd /\ table_wf cd
    /\ dom (SymbolTable.d wd)
       = list_to_set (word_paddings ++ concat (tokens <$> split_train splits))
    /\ dom (SymbolTable.d cd)
       = list_to_set (concat (chars_of <$> split_train splits))
    /\ word_dict_all self'
       = Some (list_to_set (concat (tokens <$> concat (split_test splits))))
    /\ char_dict_all self'
       = Some (list_to_set (concat (chars_of <$> concat (split_test splits))))
    /\ cardinality self' = cardinality self /\ model_kwargs self' = model_kwargs self
    /\ cfg self' = cfg self
    /\ word_emb self' = word_emb self /\ char_emb self' = char_emb self
    /\ word_model self' = word_model self /\ char_model self' = char_model self.
Proof.
  unfold create_dict.
  erewrite create_dict_train_both by reflexivity. cbn [mbind res_bind].
  erewrite create_dict_test_both by reflexivity. cbn [mbind res_bind].
  cbn [word_dict word_dict_all set_char_dict set_word_dict set_char_dict_all
       set_word_dict_all getattr mbind res_bind].
  eexists _, _, _. split; [reflexivity|].
  split; [reflexivity|]. split; [reflexivity|].
  split; [apply get_all_wf, get_all_wf, new_wf|].
  split; [apply get_all_wf, new_wf|].
  split.
  { rewrite !get_all_dom. cbn [SymbolTable.d SymbolTable.new].
    rewrite dom_empty_L, list_to_set_app_L. now rewrite (left_id_L ∅ (∪)). }
  split.
  { rewrite get_all_dom. cbn [SymbolTable.d SymbolTable.new].
    rewrite dom_empty_L. now rewrite (left_id_L ∅ (∪)). }
  cbn. rewrite !(left_id_L ∅ (∪)). repeat split; reflexivity.
Qed.

(** X4: [create_dict(splits)] with both flags on (the call that
    [_init_kwargs] makes for [init_pretrained]) always returns, and
    what it leaves behind depends on the splits alone: any earlier
    vocabulary is discarded.  The word table knows exactly the four
    argument markers and the training tokens, the char table exactly
    the characters of the training sentences joined by blanks (and so
    neither char marker unless the corpus has it); [word_dict_all] and
    [char_dict_all] are exactly the tokens and characters of the
    dev/test candidates, none of which receives an ID by this call;
    both tables are well-formed and the other attributes are
    untouched. *)
Theorem create_dict_both_flags {Weights Float} (self : WCLSTM Weights Float)
    (splits : Splits) :
  exists self' wd cd,
    create_dict self splits true true = Ok self'
    /\ word_dict self' = Some wd /\ char_dict self' = Some cd
    /\ table_wf wd /\ table_wf cd
    /\ dom (SymbolTable.d wd)
       = list_to_set (word_paddings ++ concat (tokens <$> split_train splits))
    /\ dom (SymbolTable.d cd)
       = list_to_set (concat (chars_of <$> split_train splits))
    /\ word_dict_all self'
       = Some (list_to_set (concat (tokens <$> concat (split_test splits))))
    /\ char_dict_all self'
       = Some (list_to_set (concat (chars_of <$> concat (split_test splits))))
    /\ cardinality self' = cardinality self /\ model_kwargs self' = model_kwargs self
    /\ cfg self' = cfg self
    /\ word_emb self' = word_emb self /\ char_emb self' = char_emb self
    /\ word_model self' = word_model self /\ char_model self' = char_model self.
Proof. apply create_dict_both_ok. Qed.

(** ** The vocabulary that [load_dict] adds *)

Lemma collect_tokens_spec (dim : Z) (msg : string) (rep : list (string * string))
    (dall : option (gset string)) (ls l : list string) :
  collect_tokens dim msg rep dall ls = Ok l ->
  forall w, w ∈ l <-> in_dict_all w dall = true
                      /\ exists ln, ln ∈ ls /\ line_token rep ln = Some w.
Proof.
  revert l. induction ls as [|ln ls IH]; intros l H w; simpl in H.
  - injection H as <-. split.
    + intros Hin. apply elem_of_nil in Hin. contradiction.
    + intros (_ & ln & Hin & _). apply elem_of_nil in Hin. contradiction.
  - destruct (Z.of_nat (length (fields ln)) =? dim + 1); [|discriminate H].
    bind_inv H as w0 E0. bind_inv H as l0 El. injection H as <-.
    assert (Ht : line_token rep ln = Some (apply_replace rep w0)).
    { unfold line_token, index in *. destruct (fields ln); simpl in *;
        [discriminate | congruence]. }
    specialize (IH l0 El w).
    destruct (in_dict_all (apply_replace rep w0) dall) eqn:Ein.
    + rewrite elem_of_cons, IH. split.
      * intros [->|(Hd & ln' & Hin & Hl)].
        -- split; [exact Ein|]. exists ln. split; [left|]; auto.
        -- split; [exact Hd|]. exists ln'. split; [right|]; auto.
      * intros (Hd & ln' & Hin & Hl). apply elem_of_cons in Hin as [->|Hin].
        -- left. congruence.
        -- right. eauto.
    + rewrite IH. split.
      * intros (Hd & ln' & Hin & Hl). split; [exact Hd|].
        exists ln'. split; [right|]; auto.
      * intros (Hd & ln' & Hin & Hl). apply elem_of_cons in Hin as [->|Hin].
        -- congruence.
        -- eauto.
Qed.

Lemma collect_tokens_total (dim : Z) (msg : string) (rep : list (string * string))
    (dall : option (gset string)) (ls : list string) :
  Forall (fun ln => Z.of_nat (length (fields ln)) = dim + 1) ls ->
  exists l, collect_tokens dim msg rep dall ls = Ok l.
Proof.
  induction 1 as [|ln ls Hc _ [l IH]]; simpl; [eauto|].
  apply Z.eqb_eq in Hc. rewrite Hc.
  destruct (fields_index0 ln) as [w0 ->]. simpl. rewrite IH. simpl. eauto.
Qed.

Lemma is_Some_dom (tb : SymbolTable.t) (w : string) :
  is_Some (SymbolTable.d tb !! w) <-> w ∈ dom (SymbolTable.d tb).
Proof. symmetry. apply elem_of_dom. Qed.

(** X5: [load_dict] only ever adds to the vocabulary, and only what
    the dev/test vocabulary asks for.  After a successful call every
    token that had an ID keeps it; a token has a word ID exactly when it
    had one before, or is an argument marker, or heads a line of the
    word-embedding file (after placeholder substitution) and belongs to
    [word_dict_all]; likewise for the char table with the two char
    markers, the char file and [char_dict_all].  Without a dev/test
    vocabulary (no [create_dict] before) nothing is read into the
    tables.  All other attributes are as they were. *)
Theorem load_dict_vocabulary {Weights Float} (self self1 : WCLSTM Weights Float)
    (wl : World Weights Float) :
  load_dict self wl = Ok self1 ->
  exists wd1 cd1 wls cls,
    word_dict self1 = Some wd1 /\ char_dict self1 = Some cd1
    /\ open_text wl (word_emb_path (cfg self)) = Ok wls
    /\ open_text wl (char_emb_path (cfg self)) = Ok cls
    /\ (forall wd w i, word_dict self = Some wd ->
          SymbolTable.d wd !! w = Some i -> SymbolTable.d wd1 !! w = Some i)
    /\ (forall cd g i, char_dict self = Some cd ->
          SymbolTable.d cd !! g = Some i -> SymbolTable.d cd1 !! g = Some i)
    /\ (forall w, is_Some (SymbolTable.d wd1 !! w) <->
          (exists wd, word_dict self = Some wd /\ is_Some (SymbolTable.d wd !! w))
          \/ w ∈ word_paddings
          \/ (in_dict_all w (word_dict_all self) = true
              /\ exists ln,
                   ln ∈ body_lines (is_fastText (word_emb_path (cfg self))) wls
                   /\ line_token (replace (cfg self)) ln = Some w))
    /\ (forall g, is_Some (SymbolTable.d cd1 !! g) <->
          (exists cd, char_dict self = Some cd /\ is_Some (SymbolTable.d cd !! g))
          \/ g ∈ char_marker
          \/ (in_dict_all g (char_dict_all self) = true
              /\ exists ln, ln ∈ cls /\ line_token (replace (cfg self)) ln = Some g))
    /\ word_dict_all self1 = word_dict_all self
    /\ char_dict_all self1 = char_dict_all self
    /\ cfg self1 = cfg self /\ cardinality self1 = cardinality self
    /\ model_kwargs self1 = model_kwargs self
    /\ word_emb self1 = word_emb self /\ char_emb self1 = char_emb self
    /\ word_model self1 = word_model self /\ char_model self1 = char_model self.
Proof.
  intros H. unfold load_dict in H. bind_inv H as self0 E0.
  unfold load_dict_words in E0.
  bind_inv E0 as wls Ewls. bind_inv E0 as l El. bind_inv E0 as wd0 Ewd0.
  cbn [cfg load_dict_init set_char_dict set_word_dict word_dict_all word_dict]
    in Ewls, El, Ewd0, E0.
  assert (Hself0 : self0 = set_word_dict (Some (SymbolTable.get_all l wd0).2)
                             (load_dict_init self)).
  { destruct (word_dict_all self); [case_bool_decide; [discriminate|]|]; congruence. }
  clear E0.
  assert (Hwd0 : wd0 = (SymbolTable.get_all word_paddings
                          (default SymbolTable.new (word_dict self))).2)
    by (cbn [getattr] in Ewd0; congruence).
  unfold load_dict_chars in H.
  bind_inv H as cls Ecls. bind_inv H as l' El'. bind_inv H as cd0 Ecd0.
  rewrite Hself0 in Ecls, El', Ecd0.
  cbn [cfg load_dict_init set_char_dict set_word_dict char_dict_all char_dict]
    in Ecls, El', Ecd0.
  assert (Hcd0 : cd0 = (SymbolTable.get_all char_marker
                          (default SymbolTable.new (char_dict self))).2)
    by (cbn [getattr] in Ecd0; congruence).
  assert (Hself1 : self1 = set_char_dict (Some (SymbolTable.get_all l' cd0).2) self0)
    by congruence.
  clear H Ewd0 Ecd0.
  exists (SymbolTable.get_all l wd0).2, (SymbolTable.get_all l' cd0).2, wls, cls.
  split; [subst; reflexivity|]. split; [subst; reflexivity|].
  split; [exact Ewls|]. split; [exact Ecls|].
  split.
  { intros wd w i Hw Hi. eapply lookup_weaken; [exact Hi|].
    etrans; [|apply get_all_subseteq]. rewrite Hwd0, Hw.
    apply (get_all_subseteq word_paddings wd). }
  split.
  { intros cd g i Hc Hi. eapply lookup_weaken; [exact Hi|].
    etrans; [|apply get_all_subseteq]. rewrite Hcd0, Hc.
    apply (get_all_subseteq char_marker cd). }
  split.
  { intros w. rewrite is_Some_dom, get_all_dom, Hwd0, get_all_dom.
    rewrite !elem_of_union, !elem_of_list_to_set.
    rewrite (collect_tokens_spec _ _ _ _ _ _ El w).
    destruct (word_dict self) as [wd|]; cbn [from_option id SymbolTable.new SymbolTable.d].
    - rewrite <- is_Some_dom. split.
      + intros [[?|?]|?]; eauto.
      + intros [(wd' & [= <-] & ?)|[?|?]]; auto.
    - rewrite dom_empty_L. split.
      + intros [[Hx|?]|?]; [apply elem_of_empty in Hx; contradiction | auto | auto].
      + intros [(wd' & [=] & ?)|[?|?]]; auto. }
  split.
  { intros g. rewrite is_Some_dom, get_all_dom, Hcd0, get_all_dom.
    rewrite !elem_of_union, !elem_of_list_to_set.
    rewrite (collect_tokens_spec _ _ _ _ _ _ El' g).
    destruct (char_dict self) as [cd|]; cbn [from_option id SymbolTable.new SymbolTable.d].
    - rewrite <- is_Some_dom. split.
      + intros [[?|?]|?]; eauto.
      + intros [(cd' & [= <-] & ?)|[?|?]]; auto.
    - rewrite dom_empty_L. split.
      + intros [[Hx|?]|?]; [apply elem_of_empty in Hx; contradiction | auto | auto].
      + intros [(cd' & [=] & ?)|[?|?]]; auto. }
  subst self1 self0. repeat split; reflexivity.
Qed.

Lemma load_dict_vocabulary_witness :
  exists self1 wd1,
    load_dict Demo.preprocessed (Demo.text_world Demo.word_lines Demo.char_lines)
    = Ok self1
    /\ word_dict self1 = Some wd1
    /\ SymbolTable.d wd1 !! "hi" = Some 6%nat
    /\ SymbolTable.d wd1 !! "zebra" = None.
Proof.
  destruct (load_dict Demo.preprocessed
              (Demo.text_world Demo.word_lines Demo.char_lines))
    as [self1|e] eqn:E; [|vm_compute in E; discriminate E].
  destruct (load_dict_vocabulary _ _ _ E)
    as (wd1 & cd1 & wls & cls & Hw & _ & Ewls & _ & Hkeep & _ & Hiff & _).
  exists self1, wd1. split; [reflexivity|]. split; [exact Hw|].
  destruct (word_dict Demo.preprocessed) as [wd|] eqn:Ewd;
    [|vm_compute in Ewd; discriminate Ewd].
  split.
  - apply (Hkeep wd "hi" 6%nat eq_refl).
    vm_compute in Ewd. injection Ewd as <-. vm_compute. reflexivity.
  - apply eq_None_not_Some. rewrite (Hiff "zebra").
    intros [(wd' & [= <-] & Hs)|[Hp|(Hd & _)]].
    + vm_compute in Ewd. injection Ewd as <-. vm_compute in Hs.
      destruct Hs as [x Hx]. discriminate Hx.
    + vm_compute in Hp. repeat (apply elem_of_cons in Hp as [Hp|Hp]; [discriminate Hp|]).
      apply elem_of_nil in Hp. contradiction.
    + vm_compute in Hd. discriminate Hd.
Defined.

(** X6: a dev/test vocabulary that is empty makes [load_dict] fail.
    When [word_dict_all] exists but holds no token (as after
    [create_dict] on splits without dev/test candidates) and the word
    file is readable with the right number of fields on every line,
    [load_dict] raises [ZeroDivisionError] at its coverage report
    ([n / float(N) * 100] with [N = len(word_dict_all) = 0]), and so
    does [load_embeddings]. *)
Theorem load_dict_empty_dev_vocabulary {Weights Float}
    (parse_float : string -> option Float)
    (uniform : nat -> Q -> Q -> nat -> nat -> matrix Float)
    (self : WCLSTM Weights Float) (wl : World Weights Float) (wls : list string) :
  word_dict_all self = Some ∅ ->
  open_text wl (word_emb_path (cfg self)) = Ok wls ->
  Forall (fun ln => Z.of_nat (length (fields ln)) = word_emb_dim (cfg self) + 1)
    (body_lines (is_fastText (word_emb_path (cfg self))) wls) ->
  load_dict self wl = Raise ZeroDivisionError
  /\ load_embeddings parse_float uniform self wl = Raise ZeroDivisionError.
Proof.
  intros Ha Hopen Hall.
  assert (H : load_dict self wl = Raise ZeroDivisionError).
  { unfold load_dict, load_dict_words.
    cbn [cfg load_dict_init set_char_dict set_word_dict word_dict_all word_dict].
    rewrite Hopen. cbn [mbind res_bind].
    destruct (collect_tokens_total _ word_dim_msg (replace (cfg self))
                (word_dict_all self) _ Hall) as [l ->].
    cbn [mbind res_bind getattr]. rewrite Ha.
    rewrite bool_decide_eq_true_2 by apply size_empty. reflexivity. }
  split; [exact H|]. unfold load_embeddings. rewrite H. reflexivity.
Qed.

Lemma load_dict_empty_dev_vocabulary_witness :
  let self := Demo.with_cfg Demo.emb_config Demo.seeded in
  let wl := Demo.text_world Demo.word_lines Demo.char_lines in
  load_dict self wl = Raise ZeroDivisionError
  /\ load_embeddings Demo.parse_float Demo.uniform self wl = Raise ZeroDivisionError.
Proof.
  intros self wl.
  apply (load_dict_empty_dev_vocabulary Demo.parse_float Demo.uniform self wl
           Demo.word_lines).
  - vm_compute. reflexivity.
  - vm_compute. reflexivity.
  - vm_compute. repeat constructor.
Defined.

(** ** Keyword arguments *)


Lemma init_kwargs_result {Weights Float} (self : WCLSTM Weights Float)
    (kwargs : Kwargs) :
  let c := config_of_kwargs kwargs in
  (load_emb c = true -> word_emb_path c = None \/ char_emb_path c = None ->
   _init_kwargs self kwargs = Raise (AssertionError EmptyString))
  /\ ((load_emb c = true ->
       is_Some (word_emb_path c) /\ is_Some (char_emb_path c)) ->
      exists self', _init_kwargs self kwargs = Ok self')
  /\ (forall self', _init_kwargs self kwargs = Ok self' ->
        model_kwargs self' = Some (del_init_pretrained kwargs)
        /\ cfg self' = c
        /\ (k_init_pretrained kwargs = None ->
            word_dict self' = word_dict self /\ char_dict self' = char_dict self
            /\ word_dict_all self' = word_dict_all self
            /\ char_dict_all self' = char_dict_all self)
        /\ cardinality self' = cardinality self
        /\ word_emb self' = word_emb self /\ char_emb self' = char_emb self
        /\ word_model self' = word_model self /\ char_model self' = char_model self
        /\ _init_kwargs self' (del_init_pretrained kwargs) = Ok self').
Proof.
  intros c.
  assert (Hfirst : exists self1,
    match k_init_pretrained kwargs with
    | Some splits => create_dict (set_kwargs kwargs (cfg self) self) splits true true
    | None => Ok (set_kwargs kwargs (cfg self) self)
    end = Ok self1
    /\ cardinality self1 = cardinality self
    /\ word_emb self1 = word_emb self /\ char_emb self1 = char_emb self
    /\ word_model self1 = word_model self /\ char_model self1 = char_model self
    /\ (k_init_pretrained kwargs = None ->
        self1 = set_kwargs kwargs (cfg self) self)).
  { destruct (k_init_pretrained kwargs) as [splits|].
    - destruct (create_dict_both_ok (set_kwargs kwargs (cfg self) self) splits)
        as (s1 & wd & cd & Hs1 & _ & _ & _ & _ & _ & _ & _ & _
            & H1 & _ & _ & H2 & H3 & H4 & H5).
      exists s1. split; [exact Hs1|]. repeat split; try assumption. discriminate.
    - eexists. split; [reflexivity|]. repeat split. }
  destruct Hfirst as (self1 & Hs1 & Hcard & Hwe & Hce & Hwm & Hcm & Hnone).
  unfold _init_kwargs. rewrite Hs1. cbn [mbind res_bind]. fold c.
  split; [|split].
  - intros Hl [Hp|Hp]; rewrite Hl, Hp; [reflexivity|].
    destruct (word_emb_path c); reflexivity.
  - intros Hp. destruct (load_emb c); [|eauto].
    destruct (Hp eq_refl) as [[wp ->] [cp ->]]. eauto.
  - intros self' H.
    assert (Hself : self' = set_kwargs (del_init_pretrained kwargs) c self1).
    { destruct (load_emb c); [|congruence].
      destruct (word_emb_path c); [|discriminate H].
      destruct (char_emb_path c); [|discriminate H]. congruence. }
    split; [subst self'; reflexivity|]. split; [subst self'; reflexivity|].
    split.
    { intros Hk. rewrite (Hnone Hk) in Hself. subst self'. repeat split. }
    split; [subst self'; exact Hcard|].
    split; [subst self'; exact Hwe|]. split; [subst self'; exact Hce|].
    split; [subst self'; exact Hwm|]. split; [subst self'; exact Hcm|].
    cbn [del_init_pretrained k_init_pretrained mbind res_bind].
    change (config_of_kwargs (del_init_pretrained kwargs)) with c.
    destruct (load_emb c).
    + destruct (word_emb_path c); [|discriminate H].
      destruct (char_emb_path c); [|discriminate H].
      subst self'. reflexivity.
    + subst self'. reflexivity.
Qed.

(** X7: [_init_kwargs].  With [load_emb] on and one of the two
    embedding paths missing the call raises its assertion error;
    otherwise it returns.  Whenever it returns, the attributes are the
    keyword arguments with the documented defaults, [model_kwargs] is
    the argument dict without [init_pretrained], the vocabulary is
    touched only if [init_pretrained] was given, embeddings and
    networks are left alone, and applying the stored [model_kwargs]
    again (as a full [load] does) changes nothing. *)
Theorem init_kwargs_spec {Weights Float} (self : WCLSTM Weights Float)
    (kwargs : Kwargs) :
  let c := config_of_kwargs kwargs in
  (load_emb c = true -> word_emb_path c = None \/ char_emb_path c = None ->
   _init_kwargs self kwargs = Raise (AssertionError EmptyString))
  /\ ((load_emb c = true ->
       is_Some (word_emb_path c) /\ is_Some (char_emb_path c)) ->
      exists self', _init_kwargs self kwargs = Ok self')
  /\ (forall self', _init_kwargs self kwargs = Ok self' ->
        model_kwargs self' = Some (del_init_pretrained kwargs)
        /\ cfg self' = c
        /\ (k_init_pretrained kwargs = None ->
            word_dict self' = word_dict self /\ char_dict self' = char_dict self
            /\ word_dict_all self' = word_dict_all self
            /\ char_dict_all self' = char_dict_all self)
        /\ cardinality self' = cardinality self
        /\ word_emb self' = word_emb self /\ char_emb self' = char_emb self
        /\ word_model self' = word_model self /\ char_model self' = char_model self
        /\ _init_kwargs self' (del_init_pretrained kwargs) = Ok self').
Proof. apply init_kwargs_result. Qed.

Lemma init_kwargs_spec_witness :
  _init_kwargs (Demo.fresh 2)
    (Demo.with_epochs_patience 7 2) = Ok
      (set_kwargs (Demo.with_epochs_patience 7 2)
         (config_of_kwargs (Demo.with_epochs_patience 7 2)) (Demo.fresh 2))
  /\ exists self',
       _init_kwargs (Demo.fresh 2) Demo.emb_kwargs = Ok self'
       /\ cfg self' = Demo.emb_config
       /\ _init_kwargs self' (del_init_pretrained Demo.emb_kwargs) = Ok self'.
Proof.
  split; [reflexivity|].
  destruct (proj1 (proj2 (init_kwargs_spec (Demo.fresh 2) Demo.emb_kwargs)))
    as [self' Hs].
  - intros _. split; vm_compute; eauto.
  - exists self'. split; [exact Hs|].
    destruct (proj2 (proj2 (init_kwargs_spec (Demo.fresh 2) Demo.emb_kwargs))
                self' Hs) as (_ & Hc & _ & _ & _ & _ & _ & _ & Hi).
    split; [exact Hc | exact Hi].
Defined.

(** ** Full check-points *)



Lemma ensure_dir_files {Weights Float} (wl : World Weights Float) (p : string) :
  files (if path_exists p wl then wl else makedirs p wl) = files wl
  /\ warned (if path_exists p wl then wl else makedirs p wl) = warned wl
  /\ path_exists p (if path_exists p wl then wl else makedirs p wl) = true.
Proof.
  destruct (path_exists p wl) eqn:E; [auto|].
  split; [reflexivity|]. split; [reflexivity|].
  unfold path_exists, makedirs. cbn [dirs files].
  rewrite bool_decide_eq_true_2; [reflexivity|].
  apply elem_of_union_l, elem_of_singleton. reflexivity.
Qed.







(** X10: [load] never succeeds on a partial check-point.  If the call
    returns, both weight files exist and hold the networks now in
    [word_model] and [char_model]; with [only_param=False] the two
    pickles exist as well, the attributes are the pickled keyword
    arguments with their defaults, both tables are the pickled ones
    and, with [load_emb] on, the matrices are the pickled ones.  A
    missing weight file is an [IOError] on its path. *)
Theorem load_needs_every_file {Weights Float}
    (self self' : WCLSTM Weights Float) (wl : World Weights Float)
    (model_name : option string) (save_dir : string) (only_param : bool) :
  (load self wl model_name save_dir only_param = Ok self' ->
   (exists wm cm,
      files wl !! word_model_path save_dir model_name = Some (NetFile wm)
      /\ files wl !! char_model_path save_dir model_name = Some (NetFile cm)
      /\ word_model self' = Some wm /\ char_model self' = Some cm)
   /\ (only_param = false ->
       exists k cd wd embs,
         files wl !! kwargs_path save_dir model_name = Some (KwargsPickle k)
         /\ files wl !! dicts_path save_dir model_name = Some (DictsPickle cd wd embs)
         /\ model_kwargs self' = Some (del_init_pretrained k)
         /\ cfg self' = config_of_kwargs k
         /\ word_dict self' = Some wd /\ char_dict self' = Some cd
         /\ (load_emb (config_of_kwargs k) = true ->
             exists ce we, embs = Some (ce, we)
                           /\ word_emb self' = Some we /\ char_emb self' = Some ce)))
  /\ (only_param = true ->
      files wl !! word_model_path save_dir model_name = None ->
      load self wl model_name save_dir only_param
      = Raise (IOError (word_model_path save_dir model_name)))
  /\ (only_param = false ->
      files wl !! kwargs_path save_dir model_name = None ->
      load self wl model_name save_dir only_param
      = Raise (IOError (kwargs_path save_dir model_name))).
Proof.
  split; [|split].
  - intros H. unfold load in H. bind_inv H as self1 E1. bind_inv H as wm Ewm.
    bind_inv H as cm Ecm.
    assert (Hs : self' = set_char_model (Some cm) (set_word_model (Some wm) self1))
      by congruence.
    clear H. unfold read_net in Ewm, Ecm.
    destruct (files wl !! word_model_path save_dir model_name) as [[| | |w]|] eqn:Fw;
      try discriminate Ewm.
    destruct (files wl !! char_model_path save_dir model_name) as [[| | |w']|] eqn:Fc;
      try discriminate Ecm.
    assert (w = wm) by congruence. assert (w' = cm) by congruence. subst w w'.
    split; [exists wm, cm; subst self'; auto|].
    intros ->. unfold load_config, read_kwargs in E1.
    destruct (files wl !! kwargs_path save_dir model_name) as [[|k| |]|] eqn:Fk;
      try discriminate E1.
    cbn [mbind res_bind] in E1. bind_inv E1 as self0 E0.
    destruct (proj2 (proj2 (init_kwargs_result self k)) self0 E0)
      as (Hmk & Hcfg & _).
    destruct (files wl !! dicts_path save_dir model_name) as [[| |cd wd embs|]|] eqn:Fd;
      try discriminate E1.
    exists k, cd, wd, embs. split; [reflexivity|]. split; [reflexivity|].
    rewrite Hcfg in E1.
    destruct (load_emb (config_of_kwargs k)) eqn:El.
    + destruct embs as [[ce we]|]; [|discriminate E1].
      assert (Hs1 : self1 = set_word_emb (Some we) (set_char_emb (Some ce)
                      (set_word_dict (Some wd) (set_char_dict (Some cd) self0))))
        by congruence.
      subst self' self1. cbn. repeat split; try assumption. eauto.
    + assert (Hs1 : self1 = set_word_dict (Some wd) (set_char_dict (Some cd) self0))
        by congruence.
      subst self' self1. cbn. repeat split; try assumption. discriminate.
  - intros -> Hnone. unfold load, read_net. cbn [mbind res_bind].
    rewrite Hnone. reflexivity.
  - intros -> Hnone. unfold load, load_config, read_kwargs.
    rewrite Hnone. reflexivity.
Qed.

Lemma load_needs_every_file_witness :
  load (Demo.fresh 2) Demo.empty_world None "checkpoints" true
  = Raise (IOError "checkpoints/WCLSTM/WCLSTM_word_model")
  /\ load (Demo.fresh 2) Demo.empty_world None "checkpoints" false
     = Raise (IOError "checkpoints/WCLSTM/model_kwargs.pkl").
Proof.
  split.
  - apply (proj1 (proj2 (load_needs_every_file (Demo.fresh 2) (Demo.fresh 2)
                           Demo.empty_world None "checkpoints" true)));
      reflexivity.
  - apply (proj2 (proj2 (load_needs_every_file (Demo.fresh 2) (Demo.fresh 2)
                           Demo.empty_world None "checkpoints" false)));
      reflexivity.
Defined.

(** ** Training without check-points *)

Section PlainLoop.

Context {Weights Float Opt Dev : Type}.
Variable train_pass :
  Config -> list (list nat) -> list (list (list nat)) -> ndarray ->
  Opt * Weights * Weights -> Opt * Weights * Weights.
Variable dev_score : Dev -> WCLSTM Weights Float -> Q.
Variable env : @LoopEnv Dev.

(** One epoch of gradient steps on a state whose networks are those
    of [x]. *)
Lemma fit_epoch_step (s0 : WCLSTM Weights Float)
    (x : Opt * Weights * Weights) (st : @LoopState Weights Float Opt) :
  l_self st = with_models x s0 -> l_opt st = x.1.1 ->
  exists st1,
    fit_epoch train_pass env st = Ok st1
    /\ l_self st1
       = with_models
           (train_pass (cfg s0) (X_w_train env) (X_c_train env) (Y_fit env) x) s0
    /\ l_opt st1
       = (train_pass (cfg s0) (X_w_train env) (X_c_train env) (Y_fit env) x).1.1
    /\ l_world st1 = l_world st
    /\ dev_score_opt st1 = dev_score_opt st
    /\ last_epoch_opt st1 = last_epoch_opt st
    /\ epochs_run st1 = S (epochs_run st).
Proof.
  intros Hself Hopt. unfold fit_epoch. rewrite Hself, Hopt.
  cbn [with_models word_model char_model set_char_model set_word_model
       getattr mbind res_bind cfg].
  destruct x as [[o w] cm]. cbn [fst snd].
  destruct (train_pass (cfg s0) (X_w_train env) (X_c_train env) (Y_fit env) (o, w, cm))
    as [[o' w'] cm'] eqn:Et.
  eexists. split; [reflexivity|]. cbn. repeat split.
Qed.

Hypothesis no_checkpoint :
  verbose env = false \/ X_dev env = None \/ dev_ckpt env = false.
Hypothesis reports_have_examples : verbose env = true -> X_w_train env <> [].

Lemma epoch_body_plain (s0 : WCLSTM Weights Float)
    (x : Opt * Weights * Weights) (idx : Z) (st : @LoopState Weights Float Opt) :
  l_self st = with_models x s0 -> l_opt st = x.1.1 ->
  last_epoch_opt st = None ->
  exists st1,
    epoch_body train_pass dev_score env idx st = Ok (st1, false)
    /\ l_self st1
       = with_models
           (train_pass (cfg s0) (X_w_train env) (X_c_train env) (Y_fit env) x) s0
    /\ l_opt st1
       = (train_pass (cfg s0) (X_w_train env) (X_c_train env) (Y_fit env) x).1.1
    /\ l_world st1 = l_world st
    /\ dev_score_opt st1 = dev_score_opt st
    /\ last_epoch_opt st1 = None
    /\ epochs_run st1 = S (epochs_run st).
Proof.
  intros Hself Hopt Hlast.
  destruct (fit_epoch_step s0 x st Hself Hopt)
    as (st1 & Hfit & H1 & H2 & H3 & H4 & H5 & H6).
  rewrite Hlast in H5.
  exists st1. split; [|auto 10].
  unfold epoch_body. rewrite Hfit. cbn [mbind res_bind].
  destruct (is_check env (n_epochs (cfg (l_self st1))) idx) eqn:Hchk;
    [|reflexivity].
  assert (Hv : verbose env = true)
    by (unfold is_check in Hchk; apply andb_prop in Hchk as [Hv _]; exact Hv).
  rewrite bool_decide_eq_false_2
    by (intros Hz; apply length_zero_iff_nil in Hz;
        exact (reports_have_examples Hv Hz)).
  assert (Hcp : checkpoint dev_score env idx st1 = Ok st1).
  { unfold checkpoint. destruct no_checkpoint as [Hq|[Hq|Hq]].
    - congruence.
    - rewrite Hq. reflexivity.
    - rewrite Hq. destruct (X_dev env); reflexivity. }
  rewrite Hcp. cbn [mbind res_bind]. unfold stale. rewrite H5. reflexivity.
Qed.

Lemma run_epochs_plain (s0 : WCLSTM Weights Float) (idxs : list Z)
    (x : Opt * Weights * Weights) (st : @LoopState Weights Float Opt) :
  l_self st = with_models x s0 -> l_opt st = x.1.1 ->
  last_epoch_opt st = None ->
  exists st',
    run_epochs train_pass dev_score env idxs st = Ok st'
    /\ l_self st'
       = with_models
           (Nat.iter (length idxs)
              (train_pass (cfg s0) (X_w_train env) (X_c_train env) (Y_fit env)) x)
           s0
    /\ l_world st' = l_world st
    /\ dev_score_opt st' = dev_score_opt st
    /\ last_epoch_opt st' = None
    /\ epochs_run st' = (epochs_run st + length idxs)%nat.
Proof.
  revert x st. induction idxs as [|idx idxs IH]; intros x st Hself Hopt Hlast.
  - exists st. cbn. split; [reflexivity|]. split; [exact Hself|].
    split; [reflexivity|]. split; [reflexivity|]. split; [exact Hlast | lia].
  - destruct (epoch_body_plain s0 x idx st Hself Hopt Hlast)
      as (st1 & Hb & H1 & H2 & H3 & H4 & H5 & H6).
    destruct (IH _ st1 H1 H2 H5) as (st' & Hr & G1 & G2 & G3 & G4 & G5).
    exists st'. cbn [run_epochs]. rewrite Hb. split; [exact Hr|].
    split; [rewrite G1; cbn [length]; now rewrite Nat.iter_succ_r|].
    split; [congruence|]. split; [congruence|]. split; [exact G4|].
    rewrite G5, H6. cbn [length]. lia.
Qed.

End PlainLoop.

(** ** What the epoch loop leaves on record *)

Section Record.

Context {Weights Float Opt Dev : Type}.
Variable train_pass :
  Config -> list (list nat) -> list (list (list nat)) -> ndarray ->
  Opt * Weights * Weights -> Opt * Weights * Weights.
Variable dev_score : Dev -> WCLSTM Weights Float -> Q.
Variable env : @LoopEnv Dev.

(** As long as no best epoch is on record, neither the best score nor
    the file system has changed; without a dev set nothing is ever put
    on record. *)
Lemma epoch_body_unrecorded (idx : Z) (st st' : @LoopState Weights Float Opt)
    (brk : bool) :
  epoch_body train_pass dev_score env idx st = Ok (st', brk) ->
  (X_dev env = None -> last_epoch_opt st' = last_epoch_opt st)
  /\ (last_epoch_opt st' = None ->
      last_epoch_opt st = None /\ dev_score_opt st' = dev_score_opt st
      /\ l_world st' = l_world st).
Proof.
  intros H. unfold epoch_body in H. bind_inv H as st1 Hfit.
  assert (Hf : l_world st1 = l_world st /\ dev_score_opt st1 = dev_score_opt st
               /\ last_epoch_opt st1 = last_epoch_opt st).
  { unfold fit_epoch in Hfit. bind_inv Hfit as wm Ew. bind_inv Hfit as cm Ec.
    destruct (train_pass _ _ _ _ _) as [[o' w'] cm']. injection Hfit as <-.
    repeat split. }
  destruct Hf as (F1 & F2 & F3).
  destruct (is_check env (n_epochs (cfg (l_self st1))) idx).
  - case_bool_decide; [discriminate H|]. bind_inv H as st2 Hcp.
    assert (st2 = st') by congruence. subst st2. clear H.
    unfold checkpoint in Hcp. destruct (X_dev env) as [dev|].
    + split; [discriminate|].
      destruct (dev_ckpt env && past_delay env (n_epochs (cfg (l_self st1))) idx
                && Qlt_bool (dev_score_opt st1) (dev_score dev (l_self st1))).
      * bind_inv Hcp as wl Es. injection Hcp as <-. cbn. discriminate.
      * injection Hcp as <-. intros Hn. rewrite F1, F2, <- F3. auto.
    + injection Hcp as <-. split; [intros _; exact F3|].
      intros Hn. rewrite F1, F2, <- F3. auto.
  - assert (st1 = st') by congruence. subst st1.
    split; [intros _; exact F3|]. intros Hn. rewrite F1, F2, <- F3. auto.
Qed.

Lemma run_epochs_unrecorded (idxs : list Z) (st st' : @LoopState Weights Float Opt) :
  run_epochs train_pass dev_score env idxs st = Ok st' ->
  (X_dev env = None -> last_epoch_opt st' = last_epoch_opt st)
  /\ (last_epoch_opt st' = None ->
      last_epoch_opt st = None /\ dev_score_opt st' = dev_score_opt st
      /\ l_world st' = l_world st).
Proof.
  revert st. induction idxs as [|idx idxs IH]; intros st H; cbn [run_epochs] in H.
  - injection H as <-. auto.
  - destruct (epoch_body train_pass dev_score env idx st) as [[st1 brk]|e] eqn:Eb;
      [|discriminate H].
    destruct (epoch_body_unrecorded idx st st1 brk Eb) as [B1 B2].
    destruct brk.
    + injection H as <-. auto.
    + destruct (IH st1 H) as [I1 I2]. split.
      * intros Hd. rewrite (I1 Hd). exact (B1 Hd).
      * intros Hn. destruct (I2 Hn) as (J1 & J2 & J3).
        destruct (B2 J1) as (K1 & K2 & K3). split; [exact K1|].
        split; congruence.
Qed.

End Record.

(** ** [train] as a whole *)

Section TrainMore.

Context {Weights Float Opt Dev : Type}.
Variable mark_sentence : list string -> list (Z * Z * Z) -> list string.
Variable parse_float : string -> option Float.
Variable uniform : nat -> Q -> Q -> nat -> nat -> matrix Float.
Variable reshape_marginals : ndarray -> ndarray.
Variable get_train_idxs : ndarray -> bool -> list nat.
Variable CharRNN : nat -> Config -> Weights.
Variable WordRNN : option Z -> nat -> Config -> Weights.
Variable copy_embedding : matrix Float -> Weights -> Weights.
Variable Adam : Weights -> Weights -> Q -> Opt.
Variable train_pass :
  Config -> list (list nat) -> list (list (list nat)) -> ndarray ->
  Opt * Weights * Weights -> Opt * Weights * Weights.
Variable dev_score : Dev -> WCLSTM Weights Float -> Q.

Lemma preprocess_world (self self' : WCLSTM Weights Float)
    (wl wl' : World Weights Float) (cands : list Candidate) (extend : bool) ws cs :
  _preprocess_data mark_sentence self wl cands extend = Ok (ws, cs, self', wl') ->
  wl' = wl.
Proof.
  intros H. unfold _preprocess_data in H.
  bind_inv H as wd Ewd. bind_inv H as cd Ecd. bind_inv H as r Er.
  destruct r as [[[ws0 cs0] wd'] cd']. cbn in H. congruence.
Qed.

Lemma train_setup_world (self : WCLSTM Weights Float) (wl : World Weights Float)
    (X_train : list Candidate) (Y_train : ndarray) (dev : option Dev) (pf : Z)
    (ckpt : bool) (delay : Q) (sdir : string) (kwargs : Kwargs)
    (env : @LoopEnv Dev) (st0 : @LoopState Weights Float Opt) :
  train_setup mark_sentence parse_float uniform reshape_marginals get_train_idxs
    CharRNN WordRNN copy_embedding Adam
    self wl X_train Y_train dev pf ckpt delay sdir kwargs = Ok (env, st0) ->
  l_world st0 = wl.
Proof.
  intros H. unfold train_setup in H.
  bind_inv H as self1 E1. bind_inv H as Y E2. bind_inv H as XY E3.
  destruct XY as [X Y']. bind_inv H as pre E4.
  destruct pre as [[[Xw Xc] self2] wl1]. bind_inv H as self3 E5.
  bind_inv H as cd E6. bind_inv H as cm E7. bind_inv H as wd E8.
  bind_inv H as wm E9. injection H as <- <-. cbn [l_world].
  exact (preprocess_world _ _ _ _ _ _ _ _ E4).
Qed.

(** X11: [train] with nothing to check-point against.  When reports
    are off ([print_freq <= 0]), or no dev set is given, or
    [dev_ckpt] is off, and the set-up has gone through (with at least
    one training example if reports are on), then [train] returns; the
    loop body runs exactly [max(0, n_epochs)] times without early
    stop; the object carries the networks after that many passes over
    the data; nothing is written and nothing is re-loaded: the file
    system and the warning log are those [train] was started with. *)
Theorem train_without_checkpoints
    (self : WCLSTM Weights Float) (wl : World Weights Float)
    (X_train : list Candidate) (Y_train : ndarray) (dev : option Dev) (pf : Z)
    (ckpt : bool) (delay : Q) (sdir : string) (kwargs : Kwargs)
    (env : @LoopEnv Dev) (st0 : @LoopState Weights Float Opt) :
  train_setup mark_sentence parse_float uniform reshape_marginals get_train_idxs
    CharRNN WordRNN copy_embedding Adam
    self wl X_train Y_train dev pf ckpt delay sdir kwargs = Ok (env, st0) ->
  pf <= 0 \/ dev = None \/ ckpt = false ->
  (0 < pf -> X_w_train env <> []) ->
  exists st wm0 cm0,
    train_loop train_pass dev_score env st0 = Ok st
    /\ train mark_sentence parse_float uniform reshape_marginals get_train_idxs
         CharRNN WordRNN copy_embedding Adam train_pass dev_score
         self wl X_train Y_train dev pf ckpt delay sdir kwargs
       = Ok (l_self st, wl)
    /\ epochs_run st = Z.to_nat (n_epochs (cfg (l_self st0)))
    /\ word_model (l_self st0) = Some wm0 /\ char_model (l_self st0) = Some cm0
    /\ l_self st
       = with_models
           (after train_pass env st0 wm0 cm0 (Z.to_nat (n_epochs (cfg (l_self st0)))))
           (l_self st0)
    /\ last_epoch_opt st = None /\ l_world st = wl.
Proof.
  intros Hsetup Hquiet Hne.
  destruct (train_setup_init _ _ _ _ _ _ _ _ _ _ _ _ _ _ _ _ _ _ _ _ _ Hsetup)
    as ([[wm0 Hw0] [cm0 Hc0]] & Hsc0 & Hl0 & Hr0 & Hdev & Hdir & Hck & Hpf & _).
  pose proof (train_setup_world _ _ _ _ _ _ _ _ _ _ _ _ Hsetup) as Hwl.
  assert (Hq : verbose env = false \/ X_dev env = None \/ dev_ckpt env = false).
  { unfold verbose. rewrite Hpf, Hdev, Hck.
    destruct Hquiet as [H|[H|H]]; [left | right; left | right; right]; try assumption.
    rewrite Z.gtb_ltb. apply Z.ltb_ge. lia. }
  assert (Hv : verbose env = true -> X_w_train env <> []).
  { unfold verbose. rewrite Hpf. intros H. apply Hne.
    rewrite Z.gtb_ltb in H. now apply Z.ltb_lt in H. }
  destruct (run_epochs_plain train_pass dev_score env Hq Hv (l_self st0)
              (Py.range (n_epochs (cfg (l_self st0)))) (l_opt st0, wm0, cm0) st0)
    as (st & Hrun & G1 & G2 & G3 & G4 & G5).
  { symmetry. now apply with_models_id. }
  { reflexivity. }
  { exact Hl0. }
  rewrite length_range in G1, G5.
  exists st, wm0, cm0. split; [exact Hrun|]. split.
  - unfold train. rewrite Hsetup. cbn [mbind res_bind].
    unfold train_loop. rewrite Hrun. cbn [mbind res_bind].
    unfold restore_best.
    replace (dev_ckpt env && bool_decide (is_Some (X_dev env)) && verbose env
             && Qlt_bool 0 (dev_score_opt st)) with false.
    + cbn [mbind res_bind]. now rewrite G2, Hwl.
    + symmetry. destruct Hq as [H|[H|H]]; rewrite H.
      * now rewrite andb_false_r.
      * rewrite bool_decide_eq_false_2 by (intros [? ?]; discriminate).
        now rewrite andb_false_r.
      * reflexivity.
  - split; [rewrite G5, Hr0; reflexivity|].
    split; [exact Hw0|]. split; [exact Hc0|].
    split; [exact G1|]. split; [exact G4|]. now rewrite G2.
Qed.

(** X12: the closing reload of [train] cannot fail.  Whenever the
    set-up and the epoch loop have returned, [train] returns.  If no
    best epoch is on record, nothing was written, nothing is loaded
    and the object keeps the networks of the last epoch.  If a best
    epoch [b] is on record, a dev set was given, check-pointing and
    reports were on, [b] is a reporting epoch of the loop
    ([0 <= b < n_epochs]; [(b + 1) % print_freq == 0] or
    [b + 1 == n_epochs]) and lies strictly past the check-point delay
    ([b > dev_ckpt_delay * n_epochs]); both weight files exist then. *)
Theorem train_returns_after_loop
    (self : WCLSTM Weights Float) (wl : World Weights Float)
    (X_train : list Candidate) (Y_train : ndarray) (dev : option Dev) (pf : Z)
    (ckpt : bool) (delay : Q) (sdir : string) (kwargs : Kwargs)
    (env : @LoopEnv Dev) (st0 st : @LoopState Weights Float Opt) :
  train_setup mark_sentence parse_float uniform reshape_marginals get_train_idxs
    CharRNN WordRNN copy_embedding Adam
    self wl X_train Y_train dev pf ckpt delay sdir kwargs = Ok (env, st0) ->
  train_loop train_pass dev_score env st0 = Ok st ->
  exists self',
    train mark_sentence parse_float uniform reshape_marginals get_train_idxs
      CharRNN WordRNN copy_embedding Adam train_pass dev_score
      self wl X_train Y_train dev pf ckpt delay sdir kwargs
    = Ok (self', l_world st)
    /\ match last_epoch_opt st with
       | None => self' = l_self st /\ l_world st = wl
       | Some b =>
           is_Some dev /\ ckpt = true /\ 0 < pf
           /\ 0 <= b < n_epochs (cfg (l_self st0))
           /\ ((b + 1) mod pf = 0 \/ b + 1 = n_epochs (cfg (l_self st0)))
           /\ (delay * inject_Z (n_epochs (cfg (l_self st0))) < inject_Z b)%Q
           /\ is_Some (files (l_world st) !! word_model_path sdir None)
           /\ is_Some (files (l_world st) !! char_model_path sdir None)
       end.
Proof.
  intros Hsetup Hloop.
  destruct (train_setup_init _ _ _ _ _ _ _ _ _ _ _ _ _ _ _ _ _ _ _ _ _ Hsetup)
    as ([[wm0 Hw0] [cm0 Hc0]] & Hsc0 & Hl0 & Hr0 & Hdev & Hdir & Hck & Hpf & Hdelay).
  pose proof (train_setup_world _ _ _ _ _ _ _ _ _ _ _ _ Hsetup) as Hwl.
  pose proof Hloop as Hloop'. unfold train_loop in Hloop'.
  destruct (run_epochs_unrecorded train_pass dev_score env _ _ _ Hloop')
    as [Hnodev Hnone].
  unfold train. rewrite Hsetup. cbn [mbind res_bind]. rewrite Hloop.
  cbn [mbind res_bind]. unfold restore_best.
  destruct (last_epoch_opt st) as [b|] eqn:Hb.
  - destruct dev as [d|];
      [|specialize (Hnodev Hdev); congruence].
    destruct (train_loop_best train_pass dev_score env d Hdev st0 wm0 cm0
                Hw0 Hc0 Hsc0 Hl0 Hr0 st b Hloop Hb)
      as (j & Hj & Hlt & Hle & Hself & Hfw & Hfc & Hsc & Hpos & Hv & Hckpt & _).
    unfold Py.range in Hloop'.
    destruct (run_epochs_inv train_pass dev_score env d Hdev st0 wm0 cm0 Hr0
                _ 0%nat st0 st
                (loop_inv_start train_pass dev_score env d st0 wm0 cm0
                   Hw0 Hc0 Hsc0 Hl0 Hr0) Hloop')
      as (k' & Hk' & Hinv).
    destruct Hinv as (_ & _ & Hrun & _ & _ & Hfile).
    rewrite Hb in Hfile.
    destruct Hfile as (j' & Hj' & Hjk & (Hchk & _ & Hpd) & _).
    assert (j' = j) by lia. subst j'.
    rewrite Hckpt, Hdev, Hv.
    replace (Qlt_bool 0 (dev_score_opt st)) with true
      by (symmetry; apply Qlt_bool_true; exact Hpos).
    rewrite bool_decide_eq_true_2 by eauto. cbn [andb].
    unfold load, read_net. cbn [mbind res_bind]. rewrite Hfw.
    cbn [mbind res_bind]. rewrite Hfc. cbn [mbind res_bind].
    eexists. split; [reflexivity|].
    rewrite Hdir in Hfw, Hfc. rewrite Hfw, Hfc.
    unfold is_check, verbose in Hchk, Hv. rewrite Hpf in Hchk, Hv.
    apply andb_prop in Hchk as [_ Hchk]. apply orb_prop in Hchk.
    rewrite Z.gtb_ltb in Hv. apply Z.ltb_lt in Hv.
    unfold past_delay in Hpd. rewrite Hdelay in Hpd. apply Qlt_bool_true in Hpd.
    split; [eauto|]. split; [congruence|]. split; [exact Hv|].
    split; [lia|]. split.
    { rewrite Hj. destruct Hchk as [H|H]; apply Z.eqb_eq in H;
        [left | right]; exact H. }
    split; [rewrite Hj; exact Hpd|]. split; eauto.
  - destruct (Hnone eq_refl) as (_ & Hs & Hw).
    rewrite Hs, Hsc0.
    replace (Qlt_bool 0 0) with false by reflexivity.
    rewrite andb_false_r. eexists. split; [reflexivity|].
    split; [reflexivity | congruence].
Qed.

(** X13: the checks of [train] on the shape and sign of the training
    marginals.  Once the keyword arguments are accepted: a
    two-dimensional [Y_train] whose number of columns is not the
    model's cardinality raises the cardinality [ValueError] naming both
    numbers; a one-dimensional [Y_train] on a model whose cardinality
    is not 2 raises [IndexError] (the message is formatted with
    [Y_train.shape[1]], which does not exist); and when the shape fits,
    a negative entry makes [train] raise a [ValueError].  Nothing is
    preprocessed and no network is built in any of these cases. *)
Theorem train_rejects_bad_marginals
    (self self1 : WCLSTM Weights Float) (wl : World Weights Float)
    (X_train : list Candidate) (Y_train : ndarray) (dev : option Dev) (pf : Z)
    (ckpt : bool) (delay : Q) (sdir : string) (kwargs : Kwargs) :
  let run :=
    train mark_sentence parse_float uniform reshape_marginals get_train_idxs
      CharRNN WordRNN copy_embedding Adam train_pass dev_score
      self wl X_train Y_train dev pf ckpt delay sdir kwargs in
  _init_kwargs self kwargs = Ok self1 ->
  (forall k rows, Y_train = Arr2 k rows -> Z.of_nat k <> cardinality self ->
     run = Raise (ValueError (cardinality_msg (Z.of_nat k) (cardinality self))))
  /\ (forall xs, Y_train = Arr1 xs -> cardinality self <> 2 ->
        run = Raise IndexError)
  /\ (match Y_train with Arr2 k _ => Z.of_nat k | Arr1 _ => 2 end
      = cardinality self ->
      all_nonneg (reshape_marginals Y_train) = false ->
      exists msg, run = Raise (ValueError msg)).
Proof.
  intros run Hinit.
  assert (Hcard : cardinality self1 = cardinality self)
    by apply (proj2 (proj2 (init_kwargs_result self kwargs)) self1 Hinit).
  unfold run, train, train_setup. rewrite Hinit. cbn [mbind res_bind].
  unfold check_marginals. rewrite Hcard.
  split; [|split].
  - intros k rows -> Hne. rewrite bool_decide_eq_true_2 by exact Hne. reflexivity.
  - intros xs -> Hne. rewrite bool_decide_eq_true_2 by congruence. reflexivity.
  - intros Heq Hneg. rewrite bool_decide_eq_false_2 by (intros Hx; apply Hx, Heq).
    cbn [mbind res_bind].
    destruct (cardinality self >? 2).
    + destruct (sum_axis1 (reshape_marginals Y_train)) as [sums|e] eqn:Es.
      * cbn [mbind res_bind].
        destruct (forallb _ sums); cbn [mbind res_bind];
          [rewrite Hneg|]; eauto.
      * unfold sum_axis1 in Es. destruct (reshape_marginals Y_train);
          [injection Es as <-; eauto | discriminate Es].
    + cbn [mbind res_bind]. rewrite Hneg. eauto.
Qed.

End TrainMore.

Lemma train_without_checkpoints_witness :
  exists self',
    Demo.train (Demo.fresh 2) Demo.empty_world [Demo.greeting] (Arr1 [1%Q])
      None 1 true 0%Q "checkpoints" (Demo.with_epochs_patience 7 2)
    = Ok (self', Demo.empty_world)
    /\ word_model self' = Some 7%nat /\ char_model self' = Some 7%nat.
Proof.
  assert (Hc :
    match Demo.train_setup (Demo.fresh 2) Demo.empty_world [Demo.greeting]
            (Arr1 [1%Q]) None 1 true 0%Q "checkpoints"
            (Demo.with_epochs_patience 7 2) with
    | Ok (env, st0) =>
        Some (length (X_w_train env), n_epochs (cfg (l_self st0)),
              word_model (l_self st0), char_model (l_self st0))
    | Raise _ => None
    end = Some (1%nat, 7, Some 0%nat, Some 0%nat)) by (vm_compute; reflexivity).
  destruct (Demo.train_setup (Demo.fresh 2) Demo.empty_world [Demo.greeting]
              (Arr1 [1%Q]) None 1 true 0%Q "checkpoints"
              (Demo.with_epochs_patience 7 2)) as [[env st0]|e] eqn:E;
    [|discriminate Hc].
  injection Hc as Hlen Hn Hw Hcm.
  unfold Demo.train_setup in E.
  destruct (train_without_checkpoints Demo.mark_sentence Demo.parse_float
              Demo.uniform Demo.reshape_marginals Demo.get_train_idxs
              Demo.CharRNN Demo.WordRNN Demo.copy_embedding Demo.Adam
              Demo.train_pass Demo.flat_score
              (Demo.fresh 2) Demo.empty_world [Demo.greeting] (Arr1 [1%Q])
              None 1 true 0%Q "checkpoints" (Demo.with_epochs_patience 7 2)
              env st0 E)
    as (st & wm0 & cm0 & Hloop & Htrain & Hrun & Hw0 & Hc0 & Hself & _).
  - right. left. reflexivity.
  - intros _ Hnil. rewrite Hnil in Hlen. discriminate Hlen.
  - exists (l_self st). split; [exact Htrain|].
    assert (wm0 = 0%nat) by congruence. assert (cm0 = 0%nat) by congruence.
    subst wm0 cm0. rewrite Hn in Hself. rewrite Hself. split; reflexivity.
Defined.

Lemma train_returns_after_loop_witness :
  exists self',
    Demo.train (Demo.fresh 2) Demo.empty_world [Demo.greeting] (Arr1 [1%Q])
      (Some tt) 1 true 0%Q "checkpoints" (Demo.with_epochs_patience 7 2)
    = Ok (self', l_world Demo.scenario_end)
    /\ last_epoch_opt Demo.scenario_end = Some 1.
Proof.
  assert (Hsetup : Demo.scenario_setup = Ok (Demo.scenario_env, Demo.scenario_start)).
  { unfold Demo.scenario_env, Demo.scenario_start.
    destruct Demo.scenario_setup as [[e s]|e] eqn:E; [reflexivity|].
    vm_compute in E. discriminate E. }
  assert (Hloop : train_loop Demo.train_pass Demo.flat_score Demo.scenario_env
                    Demo.scenario_start = Ok Demo.scenario_end).
  { unfold Demo.scenario_end.
    destruct (train_loop Demo.train_pass Demo.flat_score Demo.scenario_env
                Demo.scenario_start) as [s|e] eqn:E; [reflexivity|].
    vm_compute in E. discriminate E. }
  destruct (train_returns_after_loop Demo.mark_sentence Demo.parse_float
              Demo.uniform Demo.reshape_marginals Demo.get_train_idxs
              Demo.CharRNN Demo.WordRNN Demo.copy_embedding Demo.Adam
              Demo.train_pass Demo.flat_score
              (Demo.fresh 2) Demo.empty_world [Demo.greeting] (Arr1 [1%Q])
              (Some tt) 1 true 0%Q "checkpoints" (Demo.with_epochs_patience 7 2)
              Demo.scenario_env Demo.scenario_start Demo.scenario_end
              Hsetup Hloop) as (self' & Htrain & _).
  exists self'. split; [exact Htrain|]. vm_compute. reflexivity.
Defined.

Lemma train_rejects_bad_marginals_witness :
  Demo.train (Demo.fresh 2) Demo.empty_world [Demo.greeting]
    (Arr2 3 [[(1 # 2)%Q; (1 # 4)%Q; (1 # 4)%Q]])
    None 5 true (3 # 4)%Q "checkpoints" no_kwargs
  = Raise (ValueError (cardinality_msg 3 2)).
Proof.
  apply (proj1 (train_rejects_bad_marginals Demo.mark_sentence Demo.parse_float
                  Demo.uniform Demo.reshape_marginals Demo.get_train_idxs
                  Demo.CharRNN Demo.WordRNN Demo.copy_embedding Demo.Adam
                  Demo.train_pass Demo.flat_score
                  (Demo.fresh 2)
                  (set_kwargs no_kwargs (config_of_kwargs no_kwargs) (Demo.fresh 2))
                  Demo.empty_world [Demo.greeting]
                  (Arr2 3 [[(1 # 2)%Q; (1 # 4)%Q; (1 # 4)%Q]])
                  None 5 true (3 # 4)%Q "checkpoints" no_kwargs eq_refl)
           3%nat [[(1 # 2)%Q; (1 # 4)%Q; (1 # 4)%Q]] eq_refl).
  discriminate.
Defined.

(** ** Models that share a save directory *)

Lemma string_app_cons (x : ascii) (a b : string) :
  String x a +:+ b = String x (a +:+ b).
Proof. reflexivity. Qed.

Lemma string_app_assoc (a b c : string) : (a +:+ b) +:+ c = a +:+ (b +:+ c).
Proof.
  induction a as [|x a IH]; [reflexivity|].
  rewrite !string_app_cons. now rewrite IH.
Qed.

Lemma string_app_nil_r (a : string) : a +:+ EmptyString = a.
Proof.
  induction a as [|x a IH]; [reflexivity|].
  rewrite string_app_cons. now rewrite IH.
Qed.

Lemma rev_app_snoc (x : string) (c : ascii) (acc : string) :
  String.rev_app (x +:+ String c EmptyString) acc = String c (String.rev_app x acc).
Proof.
  revert acc. induction x as [|a x IH]; intros acc; [reflexivity|].
  rewrite string_app_cons.
  change (String.rev_app (x +:+ String c EmptyString) (String a acc)
          = String c (String.rev_app x (String a acc))).
  apply IH.
Qed.

Lemma rev_snoc (x : string) (c : ascii) :
  String.rev (x +:+ String c EmptyString) = String c (String.rev x).
Proof. apply rev_app_snoc. Qed.

Lemma snoc_decomp (n : string) :
  n <> EmptyString -> exists x c, n = x +:+ String c EmptyString.
Proof.
  induction n as [|a n IH]; [congruence|]. intros _.
  destruct n as [|b n].
  - exists EmptyString, a. reflexivity.
  - destruct IH as (x & c & Hx); [discriminate|].
    exists (String a x), c. rewrite string_app_cons. now rewrite Hx.
Qed.

Lemma slash_free_cons (c : ascii) (s : string) :
  slash_free (String c s) = negb (Ascii.eqb c "/") && slash_free s.
Proof. reflexivity. Qed.

Lemma slash_free_app (a b : string) :
  slash_free (a +:+ b) = slash_free a && slash_free b.
Proof.
  induction a as [|x a IH]; [reflexivity|].
  rewrite string_app_cons, !slash_free_cons, IH. now rewrite andb_assoc.
Qed.

Lemma plain_name_starts (n x : string) :
  plain_name n -> Py.starts_with_slash (n +:+ x) = false.
Proof.
  intros [Hne Hsf]. destruct n as [|c n]; [congruence|].
  rewrite string_app_cons. rewrite slash_free_cons in Hsf.
  apply andb_prop in Hsf as [Hc _]. apply negb_true_iff in Hc. exact Hc.
Qed.

Lemma plain_name_ends (a n : string) :
  plain_name n -> Py.empty_or_ends_with_slash (a +:+ n) = false.
Proof.
  intros [Hne Hsf]. destruct (snoc_decomp n Hne) as (x & c & ->).
  rewrite slash_free_app in Hsf. apply andb_prop in Hsf as [_ Hc].
  rewrite slash_free_cons in Hc. apply andb_prop in Hc as [Hc _].
  apply negb_true_iff in Hc.
  unfold Py.empty_or_ends_with_slash.
  rewrite <- string_app_assoc, rev_snoc. exact Hc.
Qed.

(** The first ["/"] of a string splits it in one way only. *)
Lemma slash_free_split (n1 n2 x y : string) :
  slash_free n1 = true -> slash_free n2 = true ->
  n1 +:+ "/" +:+ x = n2 +:+ "/" +:+ y -> n1 = n2.
Proof.
  revert n2. induction n1 as [|a n1 IH]; intros [|b n2] H1 H2 H.
  - reflexivity.
  - rewrite string_app_cons in H. change (EmptyString +:+ "/" +:+ x) with (String "/" x) in H.
    injection H as <- _. discriminate H2.
  - rewrite string_app_cons in H. change (EmptyString +:+ "/" +:+ y) with (String "/" y) in H.
    injection H as -> _. discriminate H1.
  - rewrite !string_app_cons in H. injection H as -> H.
    rewrite slash_free_cons in H1, H2.
    apply andb_prop in H1 as [_ H1]. apply andb_prop in H2 as [_ H2].
    f_equal. now apply IH.
Qed.

(** Under a plain model name every check-point file is the save
    directory's prefix, the name, a separator and a file name. *)
Lemma checkpoint_paths_plain (save_dir n : string) :
  plain_name n ->
  forall p, p ∈ checkpoint_paths save_dir (Some n) ->
    exists f, p = (if Py.empty_or_ends_with_slash save_dir then save_dir
                   else save_dir +:+ "/") +:+ n +:+ "/" +:+ f.
Proof.
  intros Hn. pose proof Hn as [Hne Hsf].
  assert (He : effective_name (Some n) = n) by (destruct n; [congruence | reflexivity]).
  pose proof (plain_name_starts n EmptyString Hn) as Hs0.
  rewrite string_app_nil_r in Hs0.
  assert (Hdir : model_dir save_dir (Some n)
                 = (if Py.empty_or_ends_with_slash save_dir then save_dir
                    else save_dir +:+ "/") +:+ n).
  { unfold model_dir, Py.path_join. rewrite He, Hs0.
    destruct (Py.empty_or_ends_with_slash save_dir); [reflexivity|].
    symmetry. apply string_app_assoc. }
  assert (Hjoin : forall f, Py.starts_with_slash f = false ->
            Py.path_join (model_dir save_dir (Some n)) f
            = (if Py.empty_or_ends_with_slash save_dir then save_dir
               else save_dir +:+ "/") +:+ n +:+ "/" +:+ f).
  { intros f Hf. unfold Py.path_join. rewrite Hf, Hdir.
    rewrite (plain_name_ends _ n Hn). apply string_app_assoc. }
  intros p Hp. unfold checkpoint_paths in Hp.
  rewrite !elem_of_cons, elem_of_nil in Hp.
  destruct Hp as [->|[->|[->|[->|[]]]]];
    unfold kwargs_path, dicts_path, word_model_path, char_model_path;
    rewrite ?He; eexists; apply Hjoin;
    first [reflexivity | apply (plain_name_starts n _ Hn)].
Qed.

Lemma checkpoint_paths_disjoint (save_dir n1 n2 : string) :
  plain_name n1 -> plain_name n2 -> n1 <> n2 ->
  forall p, p ∈ checkpoint_paths save_dir (Some n1) ->
            p ∉ checkpoint_paths save_dir (Some n2).
Proof.
  intros H1 H2 Hne p Hp1 Hp2.
  destruct (checkpoint_paths_plain save_dir n1 H1 p Hp1) as [f1 E1].
  destruct (checkpoint_paths_plain save_dir n2 H2 p Hp2) as [f2 E2].
  rewrite E1 in E2. apply String.app_inj in E2.
  apply Hne. eapply slash_free_split; [apply H1 | apply H2 | exact E2].
Qed.

(** [save] changes the file system at the four check-point paths of
    its model name at most. *)
Lemma save_frame {Weights Float} (self : WCLSTM Weights Float)
    (wl wl' : World Weights Float) (model_name : option string)
    (save_dir : string) (only_param : bool) :
  save self wl model_name save_dir only_param = Ok wl' ->
  forall p, p ∉ checkpoint_paths save_dir model_name ->
            files wl' !! p = files wl !! p.
Proof.
  intros H p Hp. unfold checkpoint_paths in Hp.
  rewrite !elem_of_cons, elem_of_nil in Hp.
  unfold save in H. cbv zeta in H.
  destruct (ensure_dir_files wl (model_dir save_dir model_name)) as (Hf & _ & _).
  set (wl1 := if path_exists (model_dir save_dir model_name) wl then wl
              else makedirs (model_dir save_dir model_name) wl) in *.
  bind_inv H as wl2 E2. bind_inv H as wm Ewm. bind_inv H as cm Ecm.
  injection H as <-. cbn [files write_file].
  rewrite !lookup_insert_ne by (intros <-; apply Hp; auto 10).
  rewrite <- Hf. destruct only_param; [congruence|].
  unfold save_config in E2. bind_inv E2 as k Ek. bind_inv E2 as cd Ecd.
  bind_inv E2 as wd Ewd.
  destruct (load_emb (cfg self)).
  - bind_inv E2 as ce Ece. bind_inv E2 as we Ewe. injection E2 as <-.
    cbn [files write_file].
    now rewrite !lookup_insert_ne by (intros <-; apply Hp; auto 10).
  - injection E2 as <-. cbn [files write_file].
    now rewrite !lookup_insert_ne by (intros <-; apply Hp; auto 10).
Qed.

(** X18: two models in one save directory do not overwrite each
    other.  For model names that are single path components (not empty,
    no ["/"]) and differ, the four check-point paths of the one are
    disjoint from those of the other, so a [save] under the one name,
    full or [only_param], leaves every check-point file of the other
    name as it was. *)
Theorem checkpoints_do_not_collide {Weights Float} (self : WCLSTM Weights Float)
    (wl wl' : World Weights Float) (save_dir n1 n2 : string) (only_param : bool) :
  plain_name n1 -> plain_name n2 -> n1 <> n2 ->
  save self wl (Some n2) save_dir only_param = Ok wl' ->
  forall p, p ∈ checkpoint_paths save_dir (Some n1) ->
            (p ∉ checkpoint_paths save_dir (Some n2))
            /\ files wl' !! p = files wl !! p.
Proof.
  intros H1 H2 Hne Hs p Hp.
  pose proof (checkpoint_paths_disjoint save_dir n1 n2 H1 H2 Hne p Hp) as Hd.
  split; [exact Hd|]. exact (save_frame _ _ _ _ _ _ Hs p Hd).
Qed.

Lemma checkpoints_do_not_collide_witness :
  let self := set_char_model (Some 7%nat) (set_word_model (Some 5%nat) (Demo.fresh 2)) in
  exists wl',
    save self Demo.empty_world (Some "second") "checkpoints" true = Ok wl'
    /\ files wl' !! word_model_path "checkpoints" (Some "first") = None.
Proof.
  intros self.
  destruct (save self Demo.empty_world (Some "second") "checkpoints" true)
    as [wl'|e] eqn:E; [|discriminate E].
  exists wl'. split; [reflexivity|].
  assert (H1 : plain_name "first") by (split; [discriminate | reflexivity]).
  assert (H2 : plain_name "second") by (split; [discriminate | reflexivity]).
  assert (Hne : "first" <> "second") by discriminate.
  assert (Hp : word_model_path "checkpoints" (Some "first")
               ∈ checkpoint_paths "checkpoints" (Some "first"))
    by (unfold checkpoint_paths; rewrite !elem_of_cons; auto).
  destruct (checkpoints_do_not_collide self Demo.empty_world wl' "checkpoints"
              "first" "second" true H1 H2 Hne E _ Hp) as [_ Hf].
  rewrite Hf. apply lookup_empty.
Defined.

(** * Properties of the tutorial helpers *)

Lemma index_head {A} (l : list A) (x : A) : index l 0 = Ok x <-> head l = Some x.
Proof. unfold index. destruct l; simpl; split; congruence. Qed.

Lemma index_Ok {A} (l : list A) (i : nat) (x : A) : index l i = Ok x <-> l !! i = Some x.
Proof. unfold index. destruct (l !! i); split; congruence. Qed.

(** A successful [l[i]]: a position counted from the front, or, for a
    negative [i], from the end. *)
Lemma index_int_Ok {A} (l : list A) (i : Z) (x : A) :
  index_int l i = Ok x ->
  (0 <= i /\ l !! Z.to_nat i = Some x)
  \/ (i < 0 /\ 0 <= i + Z.of_nat (length l)
      /\ l !! Z.to_nat (i + Z.of_nat (length l)) = Some x).
Proof.
  unfold index_int. destruct (Z.ltb_spec i 0) as [Hneg|Hpos].
  - destruct (Z.ltb_spec (i + Z.of_nat (length l)) 0); [discriminate|].
    rewrite index_Ok. auto.
  - rewrite index_Ok. auto.
Qed.

Lemma last_lookup_pred {A} (l : list A) (x : A) :
  l !! Z.to_nat (-1 + Z.of_nat (length l)) = Some x -> 0 <= -1 + Z.of_nat (length l) ->
  last l = Some x.
Proof.
  intros H Hn. rewrite last_lookup.
  replace (Nat.pred (length l)) with (Z.to_nat (-1 + Z.of_nat (length l))) by lia.
  exact H.
Qed.

Section TutorialProperties.

Context {Sent Xml Elem : Type} `{EqDecision Sent}.
Variable abs_char_offsets : Sent -> list Z.
Variable py_int : string -> option Z.
Variable read_xml : string -> res Xml.
Variable xpath_text : Xml -> string -> list string.
Variable xpath_elems : Xml -> string -> list Elem.

Lemma sent_offsets_length (sents : list Sent) (offs : list Z) :
  sent_offsets abs_char_offsets sents = Ok offs -> length offs = length sents.
Proof.
  revert offs. induction sents as [|s sents IH]; intros offs H; simpl in H.
  - injection H as <-. reflexivity.
  - bind_inv H as so Eso. bind_inv H as sos Esos. injection H as <-.
    simpl. f_equal. now apply IH.
Qed.

(** How the search of lines 37-44 ends: it runs off the list, or
    stops at the first offset that is not below [offset]. *)
Lemma find_sentence_cases (offset i : Z) (offs : list Z) (dflt : Z) :
  (find_sentence offset i offs dflt = dflt /\ Forall (fun so => so < offset) offs)
  \/ (exists k : nat,
        offs !! k = Some offset
        /\ find_sentence offset i offs dflt = i + Z.of_nat k
        /\ Forall (fun so => so < offset) (take k offs))
  \/ (exists (k : nat) (so : Z),
        offs !! k = Some so /\ offset < so
        /\ find_sentence offset i offs dflt = i + Z.of_nat k - 1
        /\ Forall (fun so => so < offset) (take k offs)).
Proof.
  revert i. induction offs as [|so offs IH]; intros i; simpl.
  - left. split; [reflexivity | constructor].
  - destruct (Z.eqb_spec offset so) as [->|Hne].
    + right. left. exists 0%nat. simpl. split; [reflexivity|].
      split; [lia | constructor].
    + destruct (Z.ltb_spec offset so) as [Hlt|Hge].
      * right. right. exists 0%nat, so. simpl. split; [reflexivity|].
        split; [exact Hlt|]. split; [lia | constructor].
      * destruct (IH (i + 1)) as [[E F]|[(k & Hk & E & F)|(k & so' & Hk & Hlt & E & F)]].
        -- left. split; [exact E|]. constructor; [lia | exact F].
        -- right. left. exists (S k). simpl. split; [exact Hk|].
           split; [lia|]. constructor; [lia | exact F].
        -- right. right. exists (S k), so'. simpl. split; [exact Hk|].
           split; [exact Hlt|]. split; [lia|]. constructor; [lia | exact F].
Qed.

(** Where the loop body puts an annotation that it does not skip. *)
Lemma located (sents : list Sent) (offs : list Z) (offset : Z)
    (sent : Sent) (so : Z) :
  length offs = length sents -> ascending offs ->
  index_int sents (find_sentence offset 0 offs (Z.of_nat (length offs) - 1)) = Ok sent ->
  index_int offs (find_sentence offset 0 offs (Z.of_nat (length offs) - 1)) = Ok so ->
  exists so0,
    head offs = Some so0
    /\ (so0 <= offset ->
        exists si : nat,
          sents !! si = Some sent /\ offs !! si = Some so /\ so <= offset
          /\ forall so', offs !! S si = Some so' -> offset < so')
    /\ (offset < so0 ->
        last sents = Some sent /\ last offs = Some so /\ offset < so).
Proof.
  intros Hlen Hasc Hsent Hso.
  destruct offs as [|so0 offs'] eqn:Eoffs.
  { simpl in Hso. discriminate Hso. }
  rewrite <- Eoffs in *. assert (Hhd : offs !! 0%nat = Some so0) by now rewrite Eoffs.
  assert (Hpos : (0 < length offs)%nat) by (rewrite Eoffs; simpl; lia).
  exists so0. split; [now rewrite Eoffs|].
  assert (Hbelow : forall k, Forall (fun so => so < offset) (take k offs) ->
                             (0 < k)%nat -> so0 < offset).
  { intros k F Hk. rewrite Forall_lookup in F. apply (F 0%nat).
    rewrite lookup_take_lt by lia. exact Hhd. }
  destruct (find_sentence_cases offset 0 offs (Z.of_nat (length offs) - 1))
    as [[E F]|[(k & Hk & E & F)|(k & sok & Hk & Hlt & E & F)]];
    rewrite E in Hsent, Hso.
  - (* the search ran off the list: the last sentence *)
    apply index_int_Ok in Hso as [[Hn Hso]|[Hn _]]; [|lia].
    apply index_int_Ok in Hsent as [[_ Hsent]|[Hn' _]]; [|lia].
    assert (Hlt : so < offset).
    { rewrite Forall_lookup in F. exact (F _ _ Hso). }
    split.
    + intros _. exists (Z.to_nat (Z.of_nat (length offs) - 1)).
      split; [exact Hsent|]. split; [exact Hso|]. split; [lia|].
      intros so' Hso'. apply lookup_lt_Some in Hso'. lia.
    + intros Hx. rewrite Forall_lookup in F. specialize (F _ _ Hhd). lia.
  - (* an offset equal to the annotation's *)
    replace (0 + Z.of_nat k) with (Z.of_nat k) in Hsent, Hso by lia.
    apply index_int_Ok in Hso as [[_ Hso]|[Hn _]]; [|lia].
    apply index_int_Ok in Hsent as [[_ Hsent]|[Hn _]]; [|lia].
    rewrite Nat2Z.id in Hso, Hsent.
    assert (so = offset) by congruence. subst so.
    split.
    + intros _. exists k. split; [exact Hsent|]. split; [exact Hso|].
      split; [lia|]. intros so' Hso'. apply (Hasc k (S k)); auto.
    + intros Hx. destruct k as [|k]; [assert (so0 = offset) by congruence; lia|].
      pose proof (Hbelow (S k) F ltac:(lia)). lia.
  - (* the first offset above the annotation's *)
    destruct k as [|k].
    + (* before the first sentence: index -1 *)
      assert (sok = so0) by congruence. subst sok.
      replace (0 + Z.of_nat 0 - 1) with (-1) in Hsent, Hso by lia.
      apply index_int_Ok in Hso as [[Hn _]|(_ & Hn & Hso)]; [lia|].
      apply index_int_Ok in Hsent as [[Hn' _]|(_ & Hn' & Hsent)]; [lia|].
      split; [lia|]. intros _.
      split; [now apply last_lookup_pred|].
      split; [now apply last_lookup_pred|].
      destruct (decide (Z.to_nat (-1 + Z.of_nat (length offs)) = 0%nat)) as [Hz|Hnz].
      * rewrite Hz in Hso. congruence.
      * pose proof (Hasc 0%nat _ so0 so Hhd Hso ltac:(lia)). lia.
    + replace (0 + Z.of_nat (S k) - 1) with (Z.of_nat k) in Hsent, Hso by lia.
      apply index_int_Ok in Hso as [[_ Hso]|[Hn _]]; [|lia].
      apply index_int_Ok in Hsent as [[_ Hsent]|[Hn _]]; [|lia].
      rewrite Nat2Z.id in Hso, Hsent.
      assert (Hlt' : so < offset).
      { rewrite Forall_lookup in F. apply (F k).
        rewrite lookup_take_lt by lia. exact Hso. }
      split.
      * intros _. exists k. split; [exact Hsent|]. split; [exact Hso|].
        split; [lia|]. intros so' Hso'. congruence.
      * intros Hx. pose proof (Hbelow (S k) F ltac:(lia)). lia.
Qed.

Lemma add_mention_inv (sents : list Sent) (offs : list Z) (a : Annotation)
    (um um' : gmap string (@Mention Sent)) :
  add_mention py_int sents offs a um = Ok um' ->
  (individual a /\ um' = um)
  \/ (~ individual a
      /\ exists txt offset len mesh sent so,
           head (ann_text a) = Some txt
           /\ head (ann_offset a) ≫= py_int = Some offset
           /\ head (ann_length a) ≫= py_int = Some len
           /\ head (ann_mesh a) = Some mesh
           /\ index_int sents
                (find_sentence offset 0 offs (Z.of_nat (length offs) - 1)) = Ok sent
           /\ index_int offs
                (find_sentence offset 0 offs (Z.of_nat (length offs) - 1)) = Ok so
           /\ um' = <[mesh := (sent, offset - so, offset - so + len - 1, txt)]> um).
Proof.
  unfold add_mention, individual. intros H. case_bool_decide as Hind.
  - left. split; [exact Hind | congruence].
  - right. split; [exact Hind|].
    bind_inv H as txt Etxt. bind_inv H as o Eo. bind_inv H as offset Eoff.
    bind_inv H as l El. bind_inv H as len Elen. bind_inv H as ty Ety.
    bind_inv H as mesh Emesh. bind_inv H as sent Esent. bind_inv H as so Eso.
    injection H as <-.
    apply index_head in Etxt, Eo, El, Emesh.
    unfold to_int in Eoff, Elen.
    destruct (py_int o) as [z|] eqn:Ez; [|discriminate Eoff].
    destruct (py_int l) as [z'|] eqn:Ez'; [|discriminate Elen].
    injection Eoff as ->. injection Elen as ->.
    exists txt, offset, len, mesh, sent, so.
    rewrite Etxt, Eo, El, Emesh. simpl. rewrite Ez, Ez'. auto 10.
Qed.

Lemma mentions_loop_app (sents : list Sent) (offs : list Z)
    (a1 a2 : list Annotation) (um : gmap string (@Mention Sent)) :
  mentions_loop py_int sents offs (a1 ++ a2) um
  = um1 ← mentions_loop py_int sents offs a1 um;
    mentions_loop py_int sents offs a2 um1.
Proof.
  revert um. induction a1 as [|a a1 IH]; intros um; simpl; [reflexivity|].
  destruct (add_mention py_int sents offs a um) as [um1|e]; simpl;
    [apply IH | reflexivity].
Qed.

(** Every entry of the result was put there by an annotation of the
    list (or was there before). *)
Lemma mentions_loop_origin (sents : list Sent) (offs : list Z)
    (anns : list Annotation) (um0 um : gmap string (@Mention Sent))
    (mesh : string) (m : @Mention Sent) :
  mentions_loop py_int sents offs anns um0 = Ok um ->
  um !! mesh = Some m ->
  um0 !! mesh = Some m
  \/ exists a txt offset len sent so,
       a ∈ anns /\ ~ individual a
       /\ head (ann_text a) = Some txt
       /\ head (ann_offset a) ≫= py_int = Some offset
       /\ head (ann_length a) ≫= py_int = Some len
       /\ head (ann_mesh a) = Some mesh
       /\ index_int sents
            (find_sentence offset 0 offs (Z.of_nat (length offs) - 1)) = Ok sent
       /\ index_int offs
            (find_sentence offset 0 offs (Z.of_nat (length offs) - 1)) = Ok so
       /\ m = (sent, offset - so, offset - so + len - 1, txt).
Proof.
  revert um0. induction anns as [|a anns IH]; intros um0 H Hm; simpl in H.
  - left. congruence.
  - bind_inv H as um1 E1.
    destruct (IH um1 H Hm)
      as [Hin|(a' & txt & offset & len & sent & so & Hin & Hrest)].
    + apply add_mention_inv in E1
        as [[_ ->]|(Hni & txt & offset & len & mesh' & sent & so
                    & Htxt & Hoff & Hlen & Hmesh & Hsent & Hso & Hum)].
      * left. exact Hin.
      * subst um1. destruct (decide (mesh' = mesh)) as [->|Hne].
        -- rewrite lookup_insert_eq in Hin. injection Hin as <-.
           right. exists a, txt, offset, len, sent, so.
           split; [left|]. auto 10.
        -- rewrite lookup_insert_ne in Hin by exact Hne. left. exact Hin.
    + right. exists a', txt, offset, len, sent, so. split; [right; exact Hin|].
      exact Hrest.
Qed.

(** X14: what [get_CD_mentions_by_MESHID] records.  With the sentence
    offsets in ascending order, every entry
    [mesh -> (sent, char_start, char_end, txt)] of the result comes from
    an annotation of the document that is not an individual mention and
    carries that MESH id and text; [char_end] is
    [char_start + length - 1].  If the annotation starts at or after
    the first sentence, [sent] is the sentence that contains the
    annotation's offset (it starts at or before the offset and the
    next sentence, if any, starts after it) and [char_start] is the
    non-negative distance from the sentence start.  If the annotation
    starts before the first sentence, the search ends on index [-1]:
    the mention is attached to the last sentence of the document and
    [char_start] is negative. *)
Theorem mentions_are_located (doc_xml : DocXml) (sents : list Sent)
    (offs : list Z) (um : gmap string (@Mention Sent))
    (mesh : string) (sent : Sent) (char_start char_end : Z) (txt : string) :
  sent_offsets abs_char_offsets sents = Ok offs -> ascending offs ->
  get_CD_mentions_by_MESHID abs_char_offsets py_int doc_xml sents = Ok um ->
  um !! mesh = Some (sent, char_start, char_end, txt) ->
  exists a offset len so0,
    a ∈ annotations doc_xml /\ ~ individual a
    /\ head (ann_mesh a) = Some mesh /\ head (ann_text a) = Some txt
    /\ head (ann_offset a) ≫= py_int = Some offset
    /\ head (ann_length a) ≫= py_int = Some len
    /\ char_end = char_start + len - 1
    /\ head offs = Some so0
    /\ (so0 <= offset ->
        exists si : nat,
          sents !! si = Some sent /\ offs !! si = Some (offset - char_start)
          /\ 0 <= char_start
          /\ forall so', offs !! S si = Some so' -> offset < so')
    /\ (offset < so0 ->
        last sents = Some sent /\ last offs = Some (offset - char_start)
        /\ char_start < 0).
Proof.
  intros Hoffs Hasc H Hm. unfold get_CD_mentions_by_MESHID in H.
  rewrite Hoffs in H. cbn [mbind res_bind] in H.
  destruct (mentions_loop_origin _ _ _ _ _ _ _ H Hm)
    as [Hin|(a & txt' & offset & len & sent' & so & Hin & Hni & Htxt & Hoff
             & Hlen & Hmesh & Hsent & Hso & Heq)].
  { rewrite lookup_empty in Hin. discriminate Hin. }
  assert (sent' = sent) by congruence. assert (txt' = txt) by congruence.
  assert (Hcs : char_start = offset - so) by congruence.
  assert (Hce : char_end = offset - so + len - 1) by congruence.
  subst sent' txt'.
  destruct (located sents offs offset sent so (sent_offsets_length _ _ Hoffs) Hasc
              Hsent Hso) as (so0 & Hhd & Hin1 & Hin2).
  exists a, offset, len, so0.
  split; [exact Hin|]. split; [exact Hni|]. split; [exact Hmesh|].
  split; [exact Htxt|]. split; [exact Hoff|]. split; [exact Hlen|].
  split; [lia|]. split; [exact Hhd|].
  replace (offset - char_start) with so by lia.
  split.
  - intros Hle. destruct (Hin1 Hle) as (si & G1 & G2 & G3 & G4).
    exists si. split; [exact G1|]. split; [exact G2|]. split; [lia | exact G4].
  - intros Hlt. destruct (Hin2 Hlt) as (G1 & G2 & G3).
    split; [exact G1|]. split; [exact G2 | lia].
Qed.

(** What a non-skipped annotation records does not depend on the
    entries recorded before it. *)
Lemma add_mention_frame (sents : list Sent) (offs : list Z) (a : Annotation)
    (um um' : gmap string (@Mention Sent)) :
  ~ individual a -> add_mention py_int sents offs a um = Ok um' ->
  exists mesh m,
    head (ann_mesh a) = Some mesh /\ um' = <[mesh := m]> um
    /\ forall um0, add_mention py_int sents offs a um0 = Ok (<[mesh := m]> um0).
Proof.
  unfold add_mention, individual. intros Hni H.
  rewrite bool_decide_eq_false_2 in H by exact Hni.
  bind_inv H as txt Etxt. bind_inv H as o Eo. bind_inv H as offset Eoff.
  bind_inv H as l El. bind_inv H as len Elen. bind_inv H as ty Ety.
  bind_inv H as mesh Emesh. bind_inv H as sent Esent. bind_inv H as so Eso.
  injection H as <-.
  exists mesh, (sent, offset - so, offset - so + len - 1, txt).
  split; [now apply index_head|]. split; [reflexivity|].
  intros um0. rewrite bool_decide_eq_false_2 by exact Hni.
  rewrite Etxt, Eo. cbn [mbind res_bind]. rewrite Eoff. cbn [mbind res_bind].
  rewrite El. cbn [mbind res_bind]. rewrite Elen. cbn [mbind res_bind].
  rewrite Ety. cbn [mbind res_bind]. rewrite Emesh. cbn [mbind res_bind].
  rewrite Esent. cbn [mbind res_bind]. rewrite Eso. reflexivity.
Qed.

(** Annotations that are skipped or carry another MESH id leave the
    entry of [mesh] alone. *)
Lemma mentions_loop_keeps (sents : list Sent) (offs : list Z)
    (anns : list Annotation) (um0 um : gmap string (@Mention Sent))
    (mesh : string) :
  (forall a, a ∈ anns -> ~ individual a -> head (ann_mesh a) <> Some mesh) ->
  mentions_loop py_int sents offs anns um0 = Ok um ->
  um !! mesh = um0 !! mesh.
Proof.
  revert um0. induction anns as [|a anns IH]; intros um0 Hother H; simpl in H.
  - congruence.
  - bind_inv H as um1 E1.
    rewrite (IH um1) by (try exact H; intros a' Hin; apply Hother; now right).
    apply add_mention_inv in E1
      as [[_ ->]|(Hni & txt & offset & len & mesh' & sent & so
                  & _ & _ & _ & Hmesh & _ & _ & ->)]; [reflexivity|].
    apply lookup_insert_ne. intros ->.
    apply (Hother a); [now left | exact Hni | exact Hmesh].
Qed.

(** X15: one mention per MESH id, and the last one wins.  If [a] is
    the last annotation of the document that is not an individual
    mention and carries the id [mesh], the entry of [mesh] in the
    result of [get_CD_mentions_by_MESHID] is the mention computed from
    [a] alone; every earlier mention with that id is overwritten. *)
Theorem later_mention_overwrites (doc_xml : DocXml) (sents : list Sent)
    (offs : list Z) (um : gmap string (@Mention Sent))
    (pre post : list Annotation) (a : Annotation) (mesh : string) :
  sent_offsets abs_char_offsets sents = Ok offs ->
  annotations doc_xml = pre ++ a :: post ->
  ~ individual a -> head (ann_mesh a) = Some mesh ->
  (forall a', a' ∈ post -> ~ individual a' -> head (ann_mesh a') <> Some mesh) ->
  get_CD_mentions_by_MESHID abs_char_offsets py_int doc_xml sents = Ok um ->
  exists m,
    add_mention py_int sents offs a ∅ = Ok {[mesh := m]}
    /\ um !! mesh = Some m.
Proof.
  intros Hoffs Hsplit Hni Hmesh Hlast H. unfold get_CD_mentions_by_MESHID in H.
  rewrite Hoffs, Hsplit in H. cbn [mbind res_bind] in H.
  rewrite mentions_loop_app in H. bind_inv H as um1 E1.
  cbn [mentions_loop] in H. bind_inv H as um2 E2.
  destruct (add_mention_frame _ _ _ _ _ Hni E2) as (mesh' & m & Hm' & -> & Hany).
  assert (mesh' = mesh) by congruence. subst mesh'.
  exists m. split.
  - rewrite (Hany ∅). now rewrite insert_empty.
  - rewrite (mentions_loop_keeps _ _ _ _ _ _ Hlast H). apply lookup_insert_eq.
Qed.

(** ** Relations *)

Lemma mention_at_lookup (um : gmap string (@Mention Sent)) (key : string) :
  mention_at um key = match um !! key with
                      | Some m => Ok m
                      | None => Raise (KeyError key)
                      end.
Proof. reflexivity. Qed.

(** Over relation elements that have both infons the loop yields the
    pairs of [relation_pair] and goes on. *)
Lemma relations_loop_app (um : gmap string (@Mention Sent))
    (pre rest : list Relation) :
  Forall (fun r => rel_chemical r <> [] /\ rel_disease r <> []) pre ->
  relations_loop um (pre ++ rest)
  = (omap (relation_pair um) pre ++ (relations_loop um rest).1,
     (relations_loop um rest).2).
Proof.
  induction 1 as [|r pre [Hc Hd] _ IH]; cbn [app omap list_omap].
  - now destruct (relations_loop um rest).
  - cbn [relations_loop]. unfold relation_pair at 1, index, mention_at.
    destruct (rel_chemical r) as [|c cs]; [congruence|].
    destruct (rel_disease r) as [|d ds]; [congruence|].
    cbn [lookup list_lookup head mbind res_bind option_bind].
    unfold Mention in *.
    destruct (um !! c) as [chem|]; cbn [mbind res_bind option_bind]; [|exact IH].
    destruct (um !! d) as [dis|]; cbn [mbind res_bind option_bind]; [|exact IH].
    rewrite IH. unfold mention_sent.
    destruct (decide (chem.1.1.1 = dis.1.1.1)) as [E|E].
    + rewrite bool_decide_eq_true_2 by exact E. reflexivity.
    + rewrite bool_decide_eq_false_2 by exact E. reflexivity.
Qed.

Lemma relation_pair_Some (um : gmap string (@Mention Sent)) (r : Relation)
    (p : @Mention Sent * @Mention Sent) :
  relation_pair um r = Some p ->
  mention_sent p.1 = mention_sent p.2
  /\ exists c d, head (rel_chemical r) = Some c /\ head (rel_disease r) = Some d
                 /\ um !! c = Some p.1 /\ um !! d = Some p.2.
Proof.
  unfold relation_pair, Mention in *. intros H.
  destruct (head (rel_chemical r)) as [c|]; simpl in H; [|discriminate H].
  destruct (um !! c) as [chem|] eqn:Ec; simpl in H; [|discriminate H].
  destruct (head (rel_disease r)) as [d|]; simpl in H; [|discriminate H].
  destruct (um !! d) as [dis|] eqn:Ed; simpl in H; [|discriminate H].
  destruct (decide (mention_sent chem = mention_sent dis)) as [E|E];
    [|discriminate H].
  injection H as <-. split; [exact E|]. exists c, d. auto.
Qed.

(** X16: what [get_CID_relations] yields.  When the mentions of the
    document can be collected and every relation element has a
    [Chemical] and a [Disease] infon, the generator ends without an
    exception and yields, in document order, exactly one pair for every
    relation whose two ids both have a mention and whose two mentions
    lie in the same sentence; a relation with an unknown id is skipped
    silently.  Every pair yielded is the pair of the mentions recorded
    under the two ids of a relation, and both lie in one sentence.  A
    relation element without a [Chemical] infon ends the iteration
    with [IndexError] after the pairs of the relations before it. *)
Theorem cid_relations_spec (doc_xml : DocXml) (sents : list Sent)
    (um : gmap string (@Mention Sent)) (pre rest : list Relation) :
  get_CD_mentions_by_MESHID abs_char_offsets py_int doc_xml sents = Ok um ->
  relations doc_xml = pre ++ rest ->
  Forall (fun r => rel_chemical r <> [] /\ rel_disease r <> []) pre ->
  (rest = [] ->
   get_CID_relations abs_char_offsets py_int doc_xml sents
   = (omap (relation_pair um) (relations doc_xml), None))
  /\ (forall r post, rest = r :: post -> rel_chemical r = [] ->
        get_CID_relations abs_char_offsets py_int doc_xml sents
        = (omap (relation_pair um) pre, Some IndexError))
  /\ Forall (fun p =>
       mention_sent p.1 = mention_sent p.2
       /\ exists r c d,
            r ∈ pre /\ head (rel_chemical r) = Some c
            /\ head (rel_disease r) = Some d
            /\ um !! c = Some p.1 /\ um !! d = Some p.2)
       (omap (relation_pair um) pre).
Proof.
  intros Hum Hsplit Hok. unfold get_CID_relations. rewrite Hum, Hsplit.
  rewrite (relations_loop_app um pre rest Hok).
  split; [|split].
  - intros ->. cbn [relations_loop fst snd]. now rewrite !app_nil_r.
  - intros r post -> Hc. cbn [relations_loop]. unfold index. rewrite Hc.
    cbn [lookup list_lookup mbind res_bind fst snd]. now rewrite app_nil_r.
  - apply Forall_forall. intros p Hp. apply list_elem_of_omap in Hp as (r & Hr & Hp).
    destruct (relation_pair_Some um r p Hp) as (Hs & c & d & H1 & H2 & H3 & H4).
    split; [exact Hs|]. exists r, c, d. auto.
Qed.

(** ** The document index *)

Lemma fold_insert_keeps {V} (l : list (string * V)) (m0 : gmap string V) (k : string) :
  k ∉ l.*1 ->
  fold_left (fun m kv => <[kv.1 := kv.2]> m) l m0 !! k = m0 !! k.
Proof.
  revert m0. induction l as [|[k' v'] l IH]; intros m0 Hk; simpl; [reflexivity|].
  simpl in Hk. apply not_elem_of_cons in Hk as [Hne Hk].
  rewrite (IH _ Hk). now apply lookup_insert_ne.
Qed.

Lemma fold_insert_origin {V} (l : list (string * V)) (m0 : gmap string V)
    (k : string) (v : V) :
  fold_left (fun m kv => <[kv.1 := kv.2]> m) l m0 !! k = Some v ->
  m0 !! k = Some v \/ (k, v) ∈ l.
Proof.
  revert m0. induction l as [|[k' v'] l IH]; intros m0 H; simpl in H; [auto|].
  destruct (IH _ H) as [Hm|Hin]; [|right; now right].
  simpl in Hm. destruct (decide (k' = k)) as [->|Hne].
  - rewrite lookup_insert_eq in Hm. injection Hm as ->. right. now left.
  - rewrite lookup_insert_ne in Hm by exact Hne. auto.
Qed.

(** X17: the index that [get_docs_xml] builds.  When the file can be
    read and parsed, ids and documents are paired in order as far as
    both lists go; an id maps to the document paired with its last
    occurrence, so of two documents with the same id only the later
    one can be retrieved; every entry of the result is one of the
    pairs, and surplus ids or documents are dropped. *)
Theorem get_docs_xml_index (filepath doc_path id_path : string)
    (docs : gmap string Elem) :
  get_docs_xml read_xml xpath_text xpath_elems filepath doc_path id_path = Ok docs ->
  exists xml,
    read_xml filepath = Ok xml
    /\ let pairs := zip (xpath_text xml id_path) (xpath_elems xml doc_path) in
       (forall l1 l2 k v, pairs = l1 ++ (k, v) :: l2 -> k ∉ l2.*1 ->
                          docs !! k = Some v)
       /\ (forall k v, docs !! k = Some v -> (k, v) ∈ pairs)
       /\ (size docs <= length (xpath_text xml id_path)
           /\ size docs <= length (xpath_elems xml doc_path))%nat.
Proof.
  intros H. unfold get_docs_xml in H. bind_inv H as xml Exml.
  injection H as <-. exists xml. split; [exact Exml|]. cbv zeta.
  unfold dict_zip. split; [|split].
  - intros l1 l2 k v -> Hk. rewrite fold_left_app. cbn [fold_left fst snd].
    rewrite (fold_insert_keeps l2 _ k Hk). apply lookup_insert_eq.
  - intros k v Hkv. apply fold_insert_origin in Hkv as [Hm|Hin]; [|exact Hin].
    rewrite lookup_empty in Hm. discriminate Hm.
  - assert (Hsize : forall (l : list (string * Elem)) (m0 : gmap string Elem),
              (size (fold_left (fun m kv => <[kv.1 := kv.2]> m) l m0)
               <= size m0 + length l)%nat).
    { induction l as [|[k v] l IH]; intros m0; simpl; [lia|].
      etrans; [apply IH|]. simpl.
      destruct (m0 !! k) eqn:Ek.
      - rewrite map_size_insert_Some by eauto. lia.
      - rewrite map_size_insert_None by exact Ek. lia. }
    specialize (Hsize (zip (xpath_text xml id_path) (xpath_elems xml doc_path)) ∅).
    rewrite map_size_empty, length_zip in Hsize. lia.
Qed.

End TutorialProperties.

Lemma sample_offsets :
  sent_offsets Sample.abs_char_offsets Sample.sents = Ok [0; 10; 20]
  /\ sent_offsets Sample.abs_char_offsets Sample.late_sents = Ok [10; 20].
Proof. split; reflexivity. Qed.

Lemma ascending_sample : ascending [0; 10; 20] /\ ascending [10; 20].
Proof.
  split; intros i j a b Hi Hj Hlt;
    repeat (destruct i as [|i]; [|try discriminate Hi]);
    repeat (destruct j as [|j]; [|try discriminate Hj]);
    simpl in Hi, Hj; try discriminate; try lia;
    injection Hi as <-; injection Hj as <-; lia.
Qed.

Lemma mentions_are_located_witness :
  (exists um,
     get_CD_mentions_by_MESHID Sample.abs_char_offsets Sample.py_int
       Sample.doc Sample.sents = Ok um
     /\ um !! "D014456" = Some (1%nat, 4, 8, "ulcer")
     /\ um !! "D010146" = None)
  /\ exists um,
       get_CD_mentions_by_MESHID Sample.abs_char_offsets Sample.py_int
         Sample.early_doc Sample.late_sents = Ok um
       /\ um !! "D000001" = Some (2%nat, -17, -13, "title")
       /\ last Sample.late_sents = Some 2%nat.
Proof.
  split.
  - destruct (get_CD_mentions_by_MESHID Sample.abs_char_offsets Sample.py_int
                Sample.doc Sample.sents) as [um|e] eqn:E.
    + exists um. split; [reflexivity|].
      assert (Hc :
        match get_CD_mentions_by_MESHID Sample.abs_char_offsets Sample.py_int
                Sample.doc Sample.sents with
        | Ok um => (um !! "D014456", um !! "D010146")
        | Raise _ => (None, None)
        end = (Some (1%nat, 4, 8, "ulcer"), None)) by (vm_compute; reflexivity).
      rewrite E in Hc. split; congruence.
    + assert (Hc :
        match get_CD_mentions_by_MESHID Sample.abs_char_offsets Sample.py_int
                Sample.doc Sample.sents with
        | Ok _ => true
        | Raise _ => false
        end = true) by (vm_compute; reflexivity).
      rewrite E in Hc. discriminate Hc.
  - destruct (get_CD_mentions_by_MESHID Sample.abs_char_offsets Sample.py_int
                Sample.early_doc Sample.late_sents) as [um|e] eqn:E.
    + exists um. split; [reflexivity|].
      assert (Hc :
        match get_CD_mentions_by_MESHID Sample.abs_char_offsets Sample.py_int
                Sample.early_doc Sample.late_sents with
        | Ok um => um !! "D000001"
        | Raise _ => None
        end = Some (2%nat, -17, -13, "title")) by (vm_compute; reflexivity).
      rewrite E in Hc. split; [exact Hc|].
      destruct (mentions_are_located Sample.abs_char_offsets Sample.py_int
                  Sample.early_doc Sample.late_sents [10; 20] um "D000001"
                  2%nat (-17) (-13) "title" (proj2 sample_offsets)
                  (proj2 ascending_sample) E Hc)
        as (a & offset & len & so0 & _ & _ & _ & _ & Hoff & _ & _ & Hhd & _ & Hwrap).
      reflexivity.
    + assert (Hc :
        match get_CD_mentions_by_MESHID Sample.abs_char_offsets Sample.py_int
                Sample.early_doc Sample.late_sents with
        | Ok _ => true
        | Raise _ => false
        end = true) by (vm_compute; reflexivity).
      rewrite E in Hc. discriminate Hc.
Defined.

Lemma later_mention_overwrites_witness :
  exists um m,
    get_CD_mentions_by_MESHID Sample.abs_char_offsets Sample.py_int
      Sample.doc Sample.sents = Ok um
    /\ add_mention Sample.py_int Sample.sents [0; 10; 20]
         (Sample.mention [] "ASA" "20" "3" "D001241") ∅ = Ok {[ "D001241" := m ]}
    /\ um !! "D001241" = Some m.
Proof.
  destruct (get_CD_mentions_by_MESHID Sample.abs_char_offsets Sample.py_int
              Sample.doc Sample.sents) as [um|e] eqn:E.
  - destruct (later_mention_overwrites Sample.abs_char_offsets Sample.py_int
                Sample.doc Sample.sents [0; 10; 20] um
                [Sample.mention [] "aspirin" "12" "7" "D001241";
                 Sample.mention [] "ulcer" "14" "5" "D014456";
                 Sample.mention ["IndividualMention"] "pain" "3" "4" "D010146"]
                [] (Sample.mention [] "ASA" "20" "3" "D001241") "D001241"
                (proj1 sample_offsets) eq_refl) as (m & Hm & Hu).
    + unfold individual. simpl. discriminate.
    + reflexivity.
    + intros a' Hin. apply elem_of_nil in Hin. contradiction.
    + exact E.
    + exists um, m. split; [reflexivity|]. split; [exact Hm | exact Hu].
  - assert (Hc :
      match get_CD_mentions_by_MESHID Sample.abs_char_offsets Sample.py_int
              Sample.doc Sample.sents with
      | Ok _ => true
      | Raise _ => false
      end = true) by (vm_compute; reflexivity).
    rewrite E in Hc. discriminate Hc.
Defined.

Lemma cid_relations_spec_witness :
  exists um,
    get_CD_mentions_by_MESHID Sample.abs_char_offsets Sample.py_int
      Sample.doc Sample.sents = Ok um
    /\ get_CID_relations Sample.abs_char_offsets Sample.py_int Sample.doc Sample.sents
       = (omap (relation_pair um) (relations Sample.doc), None).
Proof.
  destruct (get_CD_mentions_by_MESHID Sample.abs_char_offsets Sample.py_int
              Sample.doc Sample.sents) as [um|e] eqn:E.
  - exists um. split; [reflexivity|].
    apply (proj1 (cid_relations_spec Sample.abs_char_offsets Sample.py_int
                    Sample.doc Sample.sents um (relations Sample.doc) [] E
                    (eq_sym (app_nil_r _))
                    ltac:(repeat constructor; discriminate))).
    reflexivity.
  - assert (Hc :
      match get_CD_mentions_by_MESHID Sample.abs_char_offsets Sample.py_int
              Sample.doc Sample.sents with
      | Ok _ => true
      | Raise _ => false
      end = true) by (vm_compute; reflexivity).
    rewrite E in Hc. discriminate Hc.
Defined.

(** On the sample document the first relation lies across two
    sentences (the chemical's entry is the later mention, in sentence
    2, the disease is in sentence 1) and the second names an id without
    an entry: nothing is yielded. *)
Lemma sample_relations :
  get_CID_relations Sample.abs_char_offsets Sample.py_int Sample.doc Sample.sents
  = ([], None).
Proof. vm_compute. reflexivity. Qed.

Lemma get_docs_xml_index_witness :
  exists docs,
    get_docs_xml Sample.read_xml Sample.xpath_text Sample.xpath_elems
      "corpus.xml" ".//document" ".//id/text()" = Ok docs
    /\ docs !! "d1" = Some 30%nat /\ docs !! "d3" = None.
Proof.
  destruct (get_docs_xml Sample.read_xml Sample.xpath_text Sample.xpath_elems
              "corpus.xml" ".//document" ".//id/text()") as [docs|e] eqn:E.
  - exists docs. split; [reflexivity|].
    destruct (get_docs_xml_index Sample.read_xml Sample.xpath_text
                Sample.xpath_elems "corpus.xml" ".//document" ".//id/text()"
                docs E) as (xml & Hx & Hlast & Hin & _).
    assert (xml = (["d1"; "d2"; "d1"; "d3"], [10; 20; 30]%nat))
      by (vm_compute in Hx; congruence).
    subst xml. split.
    + apply (Hlast [("d1", 10%nat); ("d2", 20%nat)] [] "d1" 30%nat eq_refl).
      apply not_elem_of_nil.
    + destruct (docs !! "d3") as [v|] eqn:Ed; [|reflexivity].
      apply Hin in Ed. vm_compute in Ed.
      repeat (apply elem_of_cons in Ed as [Ed|Ed]; [discriminate Ed|]).
      apply elem_of_nil in Ed. contradiction.
  - vm_compute in E. discriminate E.
Defined.
